(** * dropcast: bookmark retrieval and digest formatting

    A shallow embedding of the three JavaScript modules that make up the
    core of the weekly bookmark mailer:

    - [bookmark-model.js]  ([BookmarkModel]: validation and conversion of
      raw Raindrop.io items),
    - [raindrop-client.js] ([RaindropClient]: the paginated fetch loop),
    - [email-formatter.js] ([EmailFormatter]: grouping, sorting, rendering).

    JavaScript strings are sequences of UTF-16 code units, JavaScript
    values coming out of [JSON.parse] are a small inductive type, thrown
    exceptions are the left injection of a sum, and [console] output is an
    explicit event log.  What the host platform decides ([Date.parse], the
    WHATWG URL parser, the clock, ICU collation, the local time zone) is
    gathered in the record [Host] and every definition is parametric in
    it. *)

From Stdlib Require Import String Ascii.
From Stdlib Require Import List ZArith NArith Bool Lia Permutation Sorted.
Import ListNotations.

Set Warnings "-register-all".

(* ================================================================== *)
(** ** JavaScript strings *)
(* ================================================================== *)

Module JsStr.

(** A JavaScript string: its UTF-16 code units. *)
Definition jsstring : Type := list N.

Definition eq_dec : forall s t : jsstring, {s = t} + {s <> t} :=
  list_eq_dec N.eq_dec.

Definition eqb (s t : jsstring) : bool :=
  if eq_dec s t then true else false.

(** Source literals are written in UTF-8; [js] decodes them to the code
    units the engine stores (surrogate pairs above U+FFFF). *)
Fixpoint utf16_of_utf8 (bs : list N) : jsstring :=
  match bs with
  | [] => []
  | b0 :: r0 =>
    if (b0 <? 128)%N then b0 :: utf16_of_utf8 r0
    else
      match r0 with
      | [] => []
      | b1 :: r1 =>
        if (b0 <? 224)%N
        then ((b0 - 192) * 64 + (b1 - 128))%N :: utf16_of_utf8 r1
        else
          match r1 with
          | [] => []
          | b2 :: r2 =>
            if (b0 <? 240)%N
            then ((b0 - 224) * 4096 + (b1 - 128) * 64 + (b2 - 128))%N
                   :: utf16_of_utf8 r2
            else
              match r2 with
              | [] => []
              | b3 :: r3 =>
                let cp := ((b0 - 240) * 262144 + (b1 - 128) * 4096
                           + (b2 - 128) * 64 + (b3 - 128))%N in
                (55296 + (cp - 65536) / 1024)%N
                  :: (56320 + (cp - 65536) mod 1024)%N
                  :: utf16_of_utf8 r3
              end
          end
      end
  end.

Definition js (s : string) : jsstring :=
  utf16_of_utf8 (map N_of_ascii (list_ascii_of_string s)).

(** Code units used on their own. *)
Definition LF : N := 10.         (* '\n' *)
Definition QUOTE : N := 34.      (* the double quote *)
Definition STAR : N := 9733.     (* U+2605, the favourite mark *)

(** [Array.prototype.join] on an array of strings. *)
Fixpoint join (sep : jsstring) (l : list jsstring) : jsstring :=
  match l with
  | [] => []
  | [x] => x
  | x :: r => x ++ sep ++ join sep r
  end.

(** Decimal digits of a non-negative integer. *)
Fixpoint uint_digits (d : Decimal.uint) : jsstring :=
  match d with
  | Decimal.Nil => []
  | Decimal.D0 r => 48%N :: uint_digits r
  | Decimal.D1 r => 49%N :: uint_digits r
  | Decimal.D2 r => 50%N :: uint_digits r
  | Decimal.D3 r => 51%N :: uint_digits r
  | Decimal.D4 r => 52%N :: uint_digits r
  | Decimal.D5 r => 53%N :: uint_digits r
  | Decimal.D6 r => 54%N :: uint_digits r
  | Decimal.D7 r => 55%N :: uint_digits r
  | Decimal.D8 r => 56%N :: uint_digits r
  | Decimal.D9 r => 57%N :: uint_digits r
  end.

(** [String(n)] / template-literal conversion of an integral Number
    (below 1e21 in magnitude, where the engine prints plain decimal). *)
Definition Number_toString (z : Z) : jsstring :=
  if (z <? 0)%Z
  then 45%N :: uint_digits (N.to_uint (Z.to_N (- z)))
  else uint_digits (N.to_uint (Z.to_N z)).

(** [String.prototype.padStart(targetLength, padString)]. *)
Definition padStart (targetLength : nat) (padString s : jsstring) : jsstring :=
  if (targetLength <=? length s)%nat then s
  else
    let fillLen := (targetLength - length s)%nat in
    firstn fillLen (concat (repeat padString fillLen)) ++ s.

(** The lines of a text: the pieces between consecutive line feeds. *)
Fixpoint lines (s : jsstring) : list jsstring :=
  match s with
  | [] => [[]]
  | c :: r =>
    if (c =? LF)%N then [] :: lines r
    else
      match lines r with
      | [] => [[c]]
      | l :: ls => (c :: l) :: ls
      end
  end.

(** [String.prototype.startsWith]. *)
Fixpoint startsWith (p s : jsstring) : bool :=
  match p, s with
  | [], _ => true
  | _ :: _, [] => false
  | a :: p', b :: s' => (a =? b)%N && startsWith p' s'
  end.

(** [String.prototype.indexOf]: position of the first occurrence. *)
Fixpoint indexOf_from (fuel : nat) (needle s : jsstring) (i : nat) : option nat :=
  if startsWith needle s then Some i
  else
    match fuel, s with
    | S f, _ :: r => indexOf_from f needle r (S i)
    | _, _ => None
    end.

Definition indexOf (needle s : jsstring) : option nat :=
  indexOf_from (length s) needle s 0.

End JsStr.
Import JsStr.

(* ================================================================== *)
(** ** JavaScript values *)
(* ================================================================== *)

Module Js.

(** Values as [JSON.parse] builds them, plus [undefined] for what a
    property read yields when the property is absent.  Numbers are the
    integral ones: identifiers, counts and millisecond timestamps. *)
Inductive JsVal : Type :=
| JUndefined
| JNull
| JBool (b : bool)
| JNum (n : Z)
| JStr (s : jsstring)
| JArr (elems : list JsVal)
| JObj (props : list (jsstring * JsVal)).

(** ToBoolean. *)
Definition truthy (v : JsVal) : bool :=
  match v with
  | JUndefined | JNull => false
  | JBool b => b
  | JNum n => negb (n =? 0)%Z
  | JStr s => match s with [] => false | _ => true end
  | JArr _ | JObj _ => true
  end.

Inductive JsType := TUndefined | TObject | TBoolean | TNumber | TString.

(** The [typeof] operator. *)
Definition typeof (v : JsVal) : JsType :=
  match v with
  | JUndefined => TUndefined
  | JNull | JArr _ | JObj _ => TObject
  | JBool _ => TBoolean
  | JNum _ => TNumber
  | JStr _ => TString
  end.

Fixpoint assoc (k : jsstring) (props : list (jsstring * JsVal)) : JsVal :=
  match props with
  | [] => JUndefined
  | (k', v) :: r => if JsStr.eqb k k' then v else assoc k r
  end.

(** Reading one of the raw item's fields ([_id], [link], [title], [tags],
    [important], [created]): none of them exists on [Object.prototype]
    or [Array.prototype], so only own properties answer. *)
Definition get (v : JsVal) (k : jsstring) : JsVal :=
  match v with
  | JObj props => assoc k props
  | _ => JUndefined
  end.

(** ToString. *)
Fixpoint toString (v : JsVal) : jsstring :=
  match v with
  | JUndefined => js "undefined"
  | JNull => js "null"
  | JBool true => js "true"
  | JBool false => js "false"
  | JNum n => Number_toString n
  | JStr s => s
  | JArr elems =>
    (fix joinElems (l : list JsVal) : jsstring :=
       match l with
       | [] => []
       | x :: r =>
         let sx := match x with
                   | JUndefined | JNull => []
                   | _ => toString x
                   end in
         match r with
         | [] => sx
         | _ :: _ => sx ++ js "," ++ joinElems r
         end
       end) elems
  | JObj _ => js "[object Object]"
  end.

(** [a || b]. *)
Definition or_else (a b : JsVal) : JsVal := if truthy a then a else b.

(** [a ?? b]. *)
Definition nullish_else (a b : JsVal) : JsVal :=
  match a with
  | JUndefined | JNull => b
  | _ => a
  end.

(** Thrown values: [Error], [TypeError] and [RangeError] objects with
    their message. *)
Inductive JsError : Type :=
| Error (message : jsstring)
| TypeError (message : jsstring)
| RangeError (message : jsstring).

Definition message (e : JsError) : jsstring :=
  match e with
  | Error m | TypeError m | RangeError m => m
  end.

(** A computation that returns ([inr]) or throws ([inl]). *)
Definition Result (A : Type) : Type := (JsError + A)%type.

(** What is written to the console and sent to the network, in order. *)
Inductive Event : Type :=
| Request (page : nat)
| ConsoleWarn (text : jsstring)
| ConsoleError (label text : jsstring).

End Js.
Import Js.

(** The platform under the program. *)
Record Host : Type := {
  (** [Date.parse]: the time value of a date string, [None] for NaN. *)
  Date_parse : jsstring -> option Z;
  (** whether [new URL(s)] returns rather than throws. *)
  URL_parses : jsstring -> bool;
  (** the clock read by [new Date()], in milliseconds since the epoch. *)
  Date_now : Z;
  (** [a.localeCompare(b, 'ja')]. *)
  localeCompare_ja : jsstring -> jsstring -> Z;
  (** offset of local time from UTC, in milliseconds, at a UTC instant. *)
  LocalTZA : Z -> Z
}.

(* ================================================================== *)
(** ** bookmark-model.js *)
(* ================================================================== *)

Module BookmarkModel.

(** A [Date] object: its time value, [None] for an Invalid Date. *)
Definition JsDate : Type := option Z.

(** What the [createdAt] slot of the constructor argument may hold. *)
Inductive DateSlot : Type :=
| IsDate (d : JsDate)
| NotDate (v : JsVal).

(** The plain object handed to [new BookmarkModel(data)]; every slot is
    dynamically typed. *)
Record Data : Type := {
  d_id : JsVal;
  d_title : JsVal;
  d_url : JsVal;
  d_folder : JsVal;
  d_isFavorite : JsVal;
  d_createdAt : DateSlot
}.

(** A constructed (hence validated) instance.  [validate] lets the
    constructor return only when [id] is a number, [title], [url] and
    [folder] are strings, [isFavorite] is a boolean and [createdAt] is a
    valid Date, so the instance is given these types. *)
Record t : Type := {
  id : Z;
  title : jsstring;
  url : jsstring;
  folder : jsstring;
  isFavorite : bool;
  createdAt : Z
}.

Definition isNumber (v : JsVal) : bool :=
  match typeof v with TNumber => true | _ => false end.
Definition isString (v : JsVal) : bool :=
  match typeof v with TString => true | _ => false end.
Definition isBoolean (v : JsVal) : bool :=
  match typeof v with TBoolean => true | _ => false end.

Definition MSG_ID : jsstring := Eval vm_compute in js "id は必須の数値です".
Definition MSG_URL : jsstring := Eval vm_compute in js "url は必須の文字列です".
Definition MSG_TITLE : jsstring :=
  Eval vm_compute in js "title は文字列である必要があります".
Definition MSG_FOLDER : jsstring :=
  Eval vm_compute in js "folder は文字列である必要があります".
Definition MSG_FAVORITE : jsstring :=
  Eval vm_compute in js "isFavorite はブール値である必要があります".
Definition MSG_CREATED : jsstring :=
  Eval vm_compute in js "createdAt は有効な日付である必要があります".
Definition MSG_URL_FORMAT : jsstring :=
  Eval vm_compute in js "url は有効なURL形式である必要があります".
Definition MSG_VALIDATION : jsstring :=
  Eval vm_compute in js "ブックマークデータ検証エラー: ".
Definition MSG_INVALID_ITEM : jsstring :=
  Eval vm_compute in js "APIレスポンスアイテムが無効です".
Definition MSG_NO_ID : jsstring :=
  Eval vm_compute in js "APIレスポンスにIDが含まれていません".
Definition MSG_NO_LINK : jsstring :=
  Eval vm_compute in js "APIレスポンスにリンクが含まれていません".
Definition MSG_NOT_ARRAY : jsstring :=
  Eval vm_compute in js "APIレスポンスアイテムは配列である必要があります".
Definition MSG_BATCH : jsstring :=
  Eval vm_compute in js "ブックマーク変換中にエラーが発生しました: ".
Definition MSG_ITEM : jsstring := Eval vm_compute in js "アイテム ".
Definition UNTITLED : jsstring := Eval vm_compute in js "タイトルなし".
Definition UNSORTED : jsstring := Eval vm_compute in js "未分類".

(** V8's wording of the TypeErrors raised by [apiItem.tags.at(0)]. *)
Definition MSG_AT_UNDEFINED : jsstring :=
  Eval vm_compute in js "Cannot read properties of undefined (reading 'at')".
Definition MSG_AT_NULL : jsstring :=
  Eval vm_compute in js "Cannot read properties of null (reading 'at')".
Definition MSG_AT_NOT_FUNCTION : jsstring :=
  Eval vm_compute in js "apiItem.tags.at is not a function".

Section WithHost.
Context (h : Host).

(** [validate()]: the list [errors] as it stands before the final test,
    in push order. *)
Definition validate (d : Data) : list jsstring :=
  (if negb (truthy (d_id d)) || negb (isNumber (d_id d))
   then [MSG_ID] else [])
  ++ (if negb (truthy (d_url d)) || negb (isString (d_url d))
      then [MSG_URL] else [])
  ++ (if negb (isString (d_title d)) then [MSG_TITLE] else [])
  ++ (if negb (isString (d_folder d)) then [MSG_FOLDER] else [])
  ++ (if negb (isBoolean (d_isFavorite d)) then [MSG_FAVORITE] else [])
  ++ (match d_createdAt d with
      | IsDate (Some _) => []
      | IsDate None | NotDate _ => [MSG_CREATED]
      end)
  ++ (if truthy (d_url d)
      then if URL_parses h (toString (d_url d)) then [] else [MSG_URL_FORMAT]
      else []).

(** The fields of [data] at the types [validate] insists on. *)
Definition typed (d : Data) : option t :=
  match d_id d, d_title d, d_url d, d_folder d, d_isFavorite d, d_createdAt d with
  | JNum i, JStr ti, JStr u, JStr f, JBool fav, IsDate (Some c) =>
    Some {| id := i; title := ti; url := u; folder := f;
            isFavorite := fav; createdAt := c |}
  | _, _, _, _, _, _ => None
  end.

(** [new BookmarkModel(data)]: copy the fields, then [validate()], which
    throws when [errors.length > 0]. *)
Definition new (d : Data) : Result t :=
  match validate d, typed d with
  | [], Some b => inr b
  | errors, _ => inl (Error (MSG_VALIDATION ++ join (js ", ") errors))
  end.

(** TimeClip: a finite time value, or NaN beyond 8.64e15 ms. *)
Definition TimeClip (n : Z) : JsDate :=
  if (Z.abs n <=? 8640000000000000)%Z then Some n else None.

(** [new Date(value)] for one argument: a string is parsed, an array or
    object is first turned into a string, anything else is a number of
    milliseconds. *)
Definition new_Date (v : JsVal) : JsDate :=
  match v with
  | JStr s => Date_parse h s
  | JArr _ | JObj _ => Date_parse h (toString v)
  | JNum n => TimeClip n
  | JBool true => Some 1%Z
  | JBool false | JNull => Some 0%Z
  | JUndefined => None
  end.

(** [apiItem.tags.at(0)]. *)
Definition tags_at0 (tags : JsVal) : Result JsVal :=
  match tags with
  | JUndefined => inl (TypeError MSG_AT_UNDEFINED)
  | JNull => inl (TypeError MSG_AT_NULL)
  | JArr elems => inr (hd JUndefined elems)
  | JStr s => inr (match s with [] => JUndefined | c :: _ => JStr [c] end)
  | JBool _ | JNum _ | JObj _ => inl (TypeError MSG_AT_NOT_FUNCTION)
  end.

(** [static fromRaindropApiResponse(apiItem)]. *)
Definition fromRaindropApiResponse (apiItem : JsVal) : Result t :=
  if negb (truthy apiItem)
     || negb (match typeof apiItem with TObject => true | _ => false end)
  then inl (Error MSG_INVALID_ITEM)
  else if negb (truthy (get apiItem (js "_id")))
  then inl (Error MSG_NO_ID)
  else if negb (truthy (get apiItem (js "link")))
  then inl (Error MSG_NO_LINK)
  else
    match tags_at0 (get apiItem (js "tags")) with
    | inl e => inl e
    | inr tag0 =>
      new {| d_id := get apiItem (js "_id");
             d_title := or_else (get apiItem (js "title")) (JStr UNTITLED);
             d_url := get apiItem (js "link");
             d_folder := nullish_else tag0 (JStr UNSORTED);
             d_isFavorite := JBool (truthy (get apiItem (js "important")));
             d_createdAt :=
               IsDate (if truthy (get apiItem (js "created"))
                       then new_Date (get apiItem (js "created"))
                       else Some (Date_now h)) |}
    end.

(** The two arrays the [forEach] callback pushes to, and the index it is
    called with. *)
Record Acc : Type := {
  bookmarks : list t;
  errors : list jsstring;
  index : nat
}.

Definition forEach_item (acc : Acc) (item : JsVal) : Acc :=
  match fromRaindropApiResponse item with
  | inr bookmark =>
    {| bookmarks := bookmarks acc ++ [bookmark];
       errors := errors acc;
       index := S (index acc) |}
  | inl error =>
    {| bookmarks := bookmarks acc;
       errors := errors acc
                 ++ [MSG_ITEM ++ Number_toString (Z.of_nat (index acc))
                     ++ js ": " ++ message error];
       index := S (index acc) |}
  end.

(** [static fromRaindropApiResponseArray(apiItems)]: the console output
    and the returned array (or the thrown error). *)
Definition fromRaindropApiResponseArray (apiItems : JsVal)
  : list Event * Result (list t) :=
  match apiItems with
  | JArr items =>
    let acc := fold_left forEach_item items
                 {| bookmarks := []; errors := []; index := 0 |} in
    (match errors acc with
     | [] => []
     | _ :: _ => [ConsoleWarn (MSG_BATCH ++ join (js ", ") (errors acc))]
     end,
     inr (bookmarks acc))
  | _ => ([], inl (Error MSG_NOT_ARRAY))
  end.

End WithHost.

End BookmarkModel.

(* ================================================================== *)
(** ** raindrop-client.js *)
(* ================================================================== *)

Module RaindropClient.

(** The two properties read from [response.data] of the listing
    endpoint: [items] is whatever the server sent, [count] the reported
    total ([None] when the field is absent, which makes every comparison
    with it false). *)
Record ResponseData : Type := {
  items : JsVal;
  count : option Z
}.

(** [response.data] of the response object that axios resolves with,
    as the destructuring [const { items, count } = response.data] meets
    it: a value whose properties can be read, or [null] or [undefined],
    on which the destructuring throws. *)
Inductive Response : Type :=
| WithData (data : ResponseData)
| NullData
| UndefinedData.

(** The upstream seen by one call of [getRecentBookmarks]: what
    [await this.client.get('/raindrops/0', {params: {..., page}})]
    resolves to, or the error it rejects with, for each page index.  The
    [created] and [perpage] parameters do not change during the call. *)
Definition Upstream : Type := nat -> Result Response.

Definition perPage : nat := 50.

Definition MSG_INVALID_RESPONSE : jsstring :=
  Eval vm_compute in js "Raindrop.io APIからの無効なレスポンス形式".
Definition MSG_PAGE_LIMIT : jsstring :=
  Eval vm_compute in
    js "最大ページ制限（100）に到達しました。ページネーションを停止します。".
Definition MSG_FETCH_ERROR : jsstring :=
  Eval vm_compute in js "ブックマーク取得エラー:".

(** V8's wording of the TypeErrors raised by the destructuring of a
    [response.data] that is [null] or [undefined]. *)
Definition MSG_DESTRUCTURE_NULL : jsstring :=
  Eval vm_compute in
    js "Cannot destructure property 'items' of 'response.data' as it is null.".
Definition MSG_DESTRUCTURE_UNDEFINED : jsstring :=
  Eval vm_compute in
    js "Cannot destructure property 'items' of 'response.data' as it is undefined.".

(** [const { items, ... } = response.data]. *)
Definition destructure (response : Response) : Result ResponseData :=
  match response with
  | WithData data => inr data
  | NullData => inl (TypeError MSG_DESTRUCTURE_NULL)
  | UndefinedData => inl (TypeError MSG_DESTRUCTURE_UNDEFINED)
  end.

(** The variables of the loop. *)
Record Loop : Type := {
  allBookmarks : list BookmarkModel.t;
  page : nat;
  hasMorePages : bool
}.

Definition init : Loop :=
  {| allBookmarks := []; page := 0; hasMorePages := true |}.

(** How one pass through the body of the [while] ends. *)
Inductive Outcome : Type :=
| Continue (st : Loop)        (* back to the loop test *)
| Break (st : Loop)           (* the safety check: [break] *)
| Throw (e : JsError).

Section WithHost.
Context (h : Host) (upstream : Upstream).

(** [allBookmarks.length < count]. *)
Definition below_count (n : nat) (c : option Z) : bool :=
  match c with
  | Some c => (Z.of_nat n <? c)%Z
  | None => false
  end.

(** The body of the [while] loop, with the events it causes. *)
Definition body (st : Loop) : list Event * Outcome :=
  match upstream (page st) with
  | inl e => ([Request (page st)], Throw e)
  | inr response =>
    match destructure response with
    | inl e => ([Request (page st)], Throw e)
    | inr data =>
      match items data with
      | JArr its =>
        match BookmarkModel.fromRaindropApiResponseArray h (items data) with
        | (warns, inl e) => (Request (page st) :: warns, Throw e)
        | (warns, inr parsedBookmarks) =>
          let all := allBookmarks st ++ parsedBookmarks in
          let more := (length its =? perPage)%nat
                      && below_count (length all) (count data) in
          let st' := {| allBookmarks := all;
                        page := S (page st);
                        hasMorePages := more |} in
          if (100 <? page st')%nat
          then (Request (page st) :: warns ++ [ConsoleWarn MSG_PAGE_LIMIT],
                Break st')
          else (Request (page st) :: warns, Continue st')
        end
      | _ => ([Request (page st)], Throw (Error MSG_INVALID_RESPONSE))
      end
    end
  end.

(** [while (hasMorePages) { body }], then [return allBookmarks]; the
    [catch] logs the message and rethrows.  [fuel] bounds the number of
    loop tests; [None] means the bound was too small. *)
Fixpoint while (fuel : nat) (st : Loop)
  : option (list Event * Result (list BookmarkModel.t)) :=
  match fuel with
  | O => None
  | S fuel' =>
    if hasMorePages st then
      match body st with
      | (evs, Throw e) =>
        Some (evs ++ [ConsoleError MSG_FETCH_ERROR (message e)], inl e)
      | (evs, Break st') => Some (evs, inr (allBookmarks st'))
      | (evs, Continue st') =>
        match while fuel' st' with
        | Some (evs', r) => Some (evs ++ evs', r)
        | None => None
        end
      end
    else Some ([], inr (allBookmarks st))
  end.

(** [async getRecentBookmarks(fromDate, toDate)] from [let allBookmarks
    = []] on: the loop and the [catch], against the pages that the two
    formatted dates select.  The method with its two parameters is
    [RaindropMethods.getRecentBookmarks] below. *)
Definition getRecentBookmarks (fuel : nat)
  : option (list Event * Result (list BookmarkModel.t)) :=
  while fuel init.

End WithHost.

(** The page requests in an event log. *)
Definition requests (evs : list Event) : list nat :=
  flat_map (fun e => match e with Request p => [p] | _ => [] end) evs.

End RaindropClient.

(* ================================================================== *)
(** ** Plain objects used as maps, and [Array.prototype.sort] *)
(* ================================================================== *)

Module JsObject.

(** The own properties of an object created by [{}], in creation order. *)
Definition t (V : Type) : Type := list (jsstring * V).

(** The property names every plain object inherits from
    [Object.prototype]. *)
Definition Object_prototype_names : list jsstring :=
  Eval vm_compute in
    map js ["constructor"; "hasOwnProperty"; "isPrototypeOf";
            "propertyIsEnumerable"; "toLocaleString"; "toString";
            "valueOf"; "__proto__"; "__defineGetter__";
            "__defineSetter__"; "__lookupGetter__";
            "__lookupSetter__"]%string.

Definition inherited (k : jsstring) : bool :=
  existsb (JsStr.eqb k) Object_prototype_names.

Section Props.
Context {V : Type}.

Fixpoint own (o : t V) (k : jsstring) : option V :=
  match o with
  | [] => None
  | (k', v) :: r => if JsStr.eqb k k' then Some v else own r k
  end.

(** What [o[k]] evaluates to. *)
Inductive Read : Type :=
| Own (v : V)        (* an own property *)
| Inherited          (* a member of [Object.prototype] *)
| Undefined.

Definition read (o : t V) (k : jsstring) : Read :=
  match own o k with
  | Some v => Own v
  | None => if inherited k then Inherited else Undefined
  end.

(** [o[k] = v] for a name that [Object.prototype] does not define: the
    own property is overwritten in place, or created last. *)
Fixpoint write (o : t V) (k : jsstring) (v : V) : t V :=
  match o with
  | [] => [(k, v)]
  | (k', v') :: r =>
    if JsStr.eqb k k' then (k', v) :: r else (k', v') :: write r k v
  end.

End Props.

Definition isDigit (c : N) : bool := ((48 <=? c) && (c <=? 57))%N.

Definition digitsValue (s : jsstring) : N :=
  fold_left (fun acc c => (acc * 10 + (c - 48))%N) s 0%N.

(** An array index: the canonical decimal spelling of an integer between
    0 and 2^32 - 2. *)
Definition arrayIndex (k : jsstring) : option N :=
  match k with
  | [] => None
  | c :: r =>
    if forallb isDigit k
       && (negb (c =? 48)%N || match r with [] => true | _ => false end)
       && (digitsValue k <? 4294967295)%N
    then Some (digitsValue k)
    else None
  end.

Definition isArrayIndex (k : jsstring) : bool :=
  match arrayIndex k with Some _ => true | None => false end.

Section Keys.
Context {V : Type}.

Fixpoint insertIndex (e : N * (jsstring * V)) (l : list (N * (jsstring * V)))
  : list (N * (jsstring * V)) :=
  match l with
  | [] => [e]
  | e' :: r =>
    if (fst e <? fst e')%N then e :: l else e' :: insertIndex e r
  end.

(** The own properties whose name is an array index, by ascending
    index. *)
Fixpoint indexEntries (o : t V) : list (N * (jsstring * V)) :=
  match o with
  | [] => []
  | (k, v) :: r =>
    match arrayIndex k with
    | Some i => insertIndex (i, (k, v)) (indexEntries r)
    | None => indexEntries r
    end
  end.

(** [Object.entries(o)]: integer-like names first, in ascending numeric
    order, then the other names in creation order. *)
Definition entries (o : t V) : list (jsstring * V) :=
  map snd (indexEntries o)
  ++ filter (fun kv => negb (isArrayIndex (fst kv))) o.

(** [Object.keys(o)]. *)
Definition keys (o : t V) : list jsstring := map fst (entries o).

End Keys.

End JsObject.

Module JsArray.

Section Sort.
Context {A : Type} (comparefn : A -> A -> Z).

Fixpoint insert (x : A) (l : list A) : list A :=
  match l with
  | [] => [x]
  | y :: r =>
    if (0 <? comparefn x y)%Z then y :: insert x r else x :: l
  end.

(** [Array.prototype.sort(comparefn)]: a stable sort; an element moves
    behind another only when [comparefn] puts it strictly after. *)
Fixpoint sort (l : list A) : list A :=
  match l with
  | [] => []
  | x :: r => insert x (sort r)
  end.

End Sort.

End JsArray.

(* ================================================================== *)
(** ** email-formatter.js *)
(* ================================================================== *)

Module EmailFormatter.

Import BookmarkModel.

Definition Group : Type := list BookmarkModel.t.

Record Options : Type := {
  dateRange : option jsstring;     (* default [null] *)
  includeHeader : bool             (* default [true] *)
}.

Definition defaultOptions : Options :=
  {| dateRange := None; includeHeader := true |}.

Definition MSG_PUSH_NOT_FUNCTION : jsstring :=
  Eval vm_compute in js "grouped[folderName].push is not a function".
Definition MSG_PUSH_UNDEFINED : jsstring :=
  Eval vm_compute in
    js "Cannot read properties of undefined (reading 'push')".
Definition DIGEST_TITLE : jsstring :=
  Eval vm_compute in js "今週のブックマークダイジェスト".
Definition TOTAL_PREFIX : jsstring := Eval vm_compute in js "合計 ".
Definition TOTAL_SUFFIX : jsstring :=
  Eval vm_compute in js " 件のブックマークが見つかりました。".
Definition EMPTY_NOTICE : jsstring :=
  Eval vm_compute in js "今週は新しいブックマークがありませんでした。".
Definition SUBJECT_PREFIX : jsstring :=
  Eval vm_compute in js "週次ブックマークダイジェスト - ".
Definition FAVORITE_MARK : jsstring :=
  Eval vm_compute in js " %{color: red}★%".
Definition H4 : jsstring := Eval vm_compute in js "h4. ".

(** [if (dateRange)]: neither [null] nor the empty string. *)
Definition given (dateRange : option jsstring) : option jsstring :=
  match dateRange with
  | Some (c :: r) => Some (c :: r)
  | Some [] | None => None
  end.

(** [static #formatSingleBookmark(bookmark)]. *)
Definition formatSingleBookmark (bookmark : BookmarkModel.t) : jsstring :=
  let formattedLine :=
    js "* " ++ [QUOTE] ++ title bookmark ++ [QUOTE] ++ js ":"
    ++ url bookmark in
  if isFavorite bookmark then formattedLine ++ FAVORITE_MARK
  else formattedLine.

(** [static #formatFolderSection(folderName, bookmarks)]. *)
Definition formatFolderSection (folderName : jsstring) (bookmarks : Group)
  : jsstring :=
  fold_left
    (fun section bookmark => section ++ [LF] ++ formatSingleBookmark bookmark)
    bookmarks (H4 ++ folderName).

(** [static #formatHeader(bookmarkCount, dateRange)]. *)
Definition formatHeader (bookmarkCount : nat) (dateRange : option jsstring)
  : jsstring :=
  let header :=
    match given dateRange with
    | Some r => DIGEST_TITLE ++ js " (" ++ r ++ js ")"
    | None => DIGEST_TITLE
    end in
  header ++ [LF; LF] ++ TOTAL_PREFIX
  ++ Number_toString (Z.of_nat bookmarkCount) ++ TOTAL_SUFFIX.

(** [static #formatEmptyMessage(dateRange)]. *)
Definition formatEmptyMessage (dateRange : option jsstring) : jsstring :=
  let message :=
    match given dateRange with
    | Some r => DIGEST_TITLE ++ js " (" ++ r ++ js ")"
    | None => DIGEST_TITLE
    end in
  message ++ [LF; LF] ++ EMPTY_NOTICE.

(** [bookmark.folder || '未分類']. *)
Definition folderNameOf (bookmark : BookmarkModel.t) : jsstring :=
  match folder bookmark with
  | [] => UNSORTED
  | c :: r => c :: r
  end.

(** The callback of the first [forEach] of [#groupBookmarksByFolder]. *)
Definition addToGroup (grouped : JsObject.t Group) (bookmark : BookmarkModel.t)
  : Result (JsObject.t Group) :=
  let folderName := folderNameOf bookmark in
  (* if (!grouped[folderName]) grouped[folderName] = []; *)
  let grouped1 :=
    match JsObject.read grouped folderName with
    | JsObject.Undefined => JsObject.write grouped folderName []
    | JsObject.Own _ | JsObject.Inherited => grouped
    end in
  (* grouped[folderName].push(bookmark); *)
  match JsObject.read grouped1 folderName with
  | JsObject.Own members =>
    inr (JsObject.write grouped1 folderName (members ++ [bookmark]))
  | JsObject.Inherited => inl (TypeError MSG_PUSH_NOT_FUNCTION)
  | JsObject.Undefined => inl (TypeError MSG_PUSH_UNDEFINED)
  end.

Fixpoint forEach_addToGroup (grouped : JsObject.t Group)
  (bookmarks : list BookmarkModel.t) : Result (JsObject.t Group) :=
  match bookmarks with
  | [] => inr grouped
  | bookmark :: rest =>
    match addToGroup grouped bookmark with
    | inl e => inl e
    | inr grouped' => forEach_addToGroup grouped' rest
    end
  end.

(** [(a, b) => new Date(b.createdAt) - new Date(a.createdAt)]. *)
Definition newestFirst (a b : BookmarkModel.t) : Z :=
  (createdAt b - createdAt a)%Z.

Section WithHost.
Context (h : Host).

(** [static #groupBookmarksByFolder(bookmarks)]. *)
Definition groupBookmarksByFolder (bookmarks : list BookmarkModel.t)
  : Result (JsObject.t Group) :=
  match forEach_addToGroup [] bookmarks with
  | inl e => inl e
  | inr grouped =>
    let sortedFolderNames :=
      JsArray.sort (localeCompare_ja h) (JsObject.keys grouped) in
    inr (fold_left
           (fun sortedGrouped folderName =>
              match JsObject.own grouped folderName with
              | Some members =>
                JsObject.write sortedGrouped folderName
                  (JsArray.sort newestFirst members)
              | None => sortedGrouped
              end)
           sortedFolderNames [])
  end.

(** [static formatBookmarksToEmailBody(bookmarks, options)];
    [bookmarks] is [None] for [null] or [undefined]. *)
Definition formatBookmarksToEmailBody
  (bookmarks : option (list BookmarkModel.t)) (options : Options)
  : Result jsstring :=
  match bookmarks with
  | None | Some [] => inr (formatEmptyMessage (dateRange options))
  | Some (b :: bs) =>
    let emailBody :=
      if includeHeader options
      then formatHeader (length (b :: bs)) (dateRange options) ++ [LF; LF]
      else [] in
    match groupBookmarksByFolder (b :: bs) with
    | inl e => inl e
    | inr groupedBookmarks =>
      let folderSections :=
        map (fun entry => formatFolderSection (fst entry) (snd entry))
            (JsObject.entries groupedBookmarks) in
      inr (emailBody ++ join [LF; LF] folderSections)
    end
  end.

(** Days since the epoch to the civil date (proleptic Gregorian): year,
    month (1 to 12) and day of the month.  It is computed in closed form
    and agrees with ECMAScript's [YearFromTime], [MonthFromTime] and
    [DateFromTime] ([civil_year] and [civil_calendar] below). *)
Definition civil (day : Z) : Z * Z * Z :=
  let z := (day + 719468)%Z in
  let era := (z / 146097)%Z in
  let doe := (z - era * 146097)%Z in
  let yoe := ((doe - doe / 1460 + doe / 36524 - doe / 146096) / 365)%Z in
  let doy := (doe - (365 * yoe + yoe / 4 - yoe / 100))%Z in
  let mp := ((5 * doy + 2) / 153)%Z in
  let d := (doy - (153 * mp + 2) / 5 + 1)%Z in
  let m := (if mp <? 10 then mp + 3 else mp - 9)%Z in
  let y := (yoe + era * 400 + (if m <=? 2 then 1 else 0))%Z in
  (y, m, d).

Definition msPerDay : Z := 86400000.

(** LocalTime(t). *)
Definition localTime (t : Z) : Z := (t + LocalTZA h t)%Z.

(** [Date.prototype.getFullYear], [getMonth] (0 to 11) and [getDate], on
    the time value of a valid Date. *)
Definition getFullYear (t : Z) : Z :=
  fst (fst (civil (localTime t / msPerDay))).
Definition getMonth (t : Z) : Z :=
  (snd (fst (civil (localTime t / msPerDay))) - 1)%Z.
Definition getDate (t : Z) : Z :=
  snd (civil (localTime t / msPerDay)).

(** The [formatDate] arrow function of [formatDateRange]; the same three
    lines open [generateEmailSubject]. *)
Definition formatDate (date : Z) : jsstring :=
  let year := getFullYear date in
  let month := padStart 2 (js "0") (Number_toString (getMonth date + 1)) in
  let day := padStart 2 (js "0") (Number_toString (getDate date)) in
  Number_toString year ++ js "/" ++ month ++ js "/" ++ day.

(** [static generateEmailSubject(startDate, endDate)]; the arguments are
    [None] for [null], else the time value of a valid Date. *)
Definition generateEmailSubject (startDate endDate : option Z) : jsstring :=
  let now := Date_now h in
  let targetDate := match endDate with Some e => e | None => now end in
  let year := getFullYear targetDate in
  let month :=
    padStart 2 (js "0") (Number_toString (getMonth targetDate + 1)) in
  let day := padStart 2 (js "0") (Number_toString (getDate targetDate)) in
  SUBJECT_PREFIX ++ Number_toString year ++ js "/" ++ month ++ js "/" ++ day.

(** [static formatDateRange(startDate, endDate)]. *)
Definition formatDateRange (startDate endDate : Z) : jsstring :=
  formatDate startDate ++ js " - " ++ formatDate endDate.

End WithHost.

End EmailFormatter.

(* ================================================================== *)
(** ** Vocabulary of the properties *)
(* ================================================================== *)

Module Spec.

Import BookmarkModel.

Section Conversion.
Context (h : Host).

(** A raw item without a usable identifier or link. *)
Definition missingIdOrLink (item : JsVal) : bool :=
  negb (truthy (get item (js "_id"))) || negb (truthy (get item (js "link"))).

(** The records of the items that convert, in the order of the items. *)
Definition converted (items : list JsVal) : list BookmarkModel.t :=
  flat_map (fun item =>
              match fromRaindropApiResponse h item with
              | inr b => [b]
              | inl _ => []
              end) items.

(** The items that do not convert: position in the batch (counted from
    [start]) and the message of the error. *)
Fixpoint failures (start : nat) (items : list JsVal) : list (nat * jsstring) :=
  match items with
  | [] => []
  | item :: rest =>
    match fromRaindropApiResponse h item with
    | inl e => (start, message e) :: failures (S start) rest
    | inr _ => failures (S start) rest
    end
  end.

Definition failureLine (f : nat * jsstring) : jsstring :=
  MSG_ITEM ++ Number_toString (Z.of_nat (fst f)) ++ js ": " ++ snd f.

(** One warning naming every failure, or no warning at all. *)
Definition batchWarning (fs : list (nat * jsstring)) : list Event :=
  match fs with
  | [] => []
  | _ :: _ => [ConsoleWarn (MSG_BATCH ++ join (js ", ") (map failureLine fs))]
  end.

End Conversion.

Section Pagination.
Context (h : Host) (upstream : RaindropClient.Upstream).

(** The raw items of page [p], when the response carries an array. *)
Definition pageItems (p : nat) : option (list JsVal) :=
  match upstream p with
  | inr (RaindropClient.WithData data) =>
    match RaindropClient.items data with
    | JArr its => Some its
    | _ => None
    end
  | _ => None
  end.

(** The total reported by the response to page [p]. *)
Definition pageCount (p : nat) : option Z :=
  match upstream p with
  | inr (RaindropClient.WithData data) => RaindropClient.count data
  | _ => None
  end.

Definition pageRecords (p : nat) : list BookmarkModel.t :=
  match pageItems p with
  | Some its => converted h its
  | None => []
  end.

(** The validated records of the pages before [p]. *)
Fixpoint before (p : nat) : list BookmarkModel.t :=
  match p with
  | O => []
  | S q => before q ++ pageRecords q
  end.

(** The validated records accumulated once page [p] is converted. *)
Definition accumulated (p : nat) : list BookmarkModel.t := before (S p).

(** Page [p] was full and the accumulated records are fewer than the
    total that page [p] itself reports. *)
Definition continues (p : nat) : bool :=
  match pageItems p with
  | Some its =>
    (length its =? RaindropClient.perPage)%nat
    && RaindropClient.below_count (length (accumulated p)) (pageCount p)
  | None => false
  end.

(** ceil(c / 50) for a non-negative total. *)
Definition pagesFor (c : Z) : nat := Z.to_nat ((c + 49) / 50).

(** Every page reports the total [c], the pages below ceil(c / 50) hold
    50 items each and the last of them the remainder, and each of these
    items converts. *)
Definition steady (c : Z) : Prop :=
  forall p, p < pagesFor c ->
    pageCount p = Some c
    /\ exists its,
         pageItems p = Some its
         /\ Z.of_nat (length its) = Z.min 50 (c - 50 * Z.of_nat p)
         /\ Forall (fun item => exists b, fromRaindropApiResponse h item = inr b)
              its.

End Pagination.

(** Page [p] was requested during the run that logged [evs]. *)
Definition requested (evs : list Event) (p : nat) : Prop :=
  In p (RaindropClient.requests evs).

(** What is observed of a run: the pages requested, the number of
    records returned ([None] when the call threw) and the last event. *)
Definition observe (res : option (list Event * Result (list BookmarkModel.t)))
  : option (list nat * option nat * option Event) :=
  match res with
  | Some (evs, r) =>
    Some (RaindropClient.requests evs,
          match r with inr l => Some (length l) | inl _ => None end,
          last (map Some evs) None)
  | None => None
  end.

(** [b] belongs under the heading [k]. *)
Definition inFolder (k : jsstring) (b : BookmarkModel.t) : bool :=
  JsStr.eqb (EmailFormatter.folderNameOf b) k.

(** [o] groups the bookmarks [done]: its names are distinct, none of
    them is a member of [Object.prototype], each holds, in their order
    in [done], the bookmarks of that folder, at least one, and every
    bookmark is held. *)
Definition Grouped (o : JsObject.t EmailFormatter.Group)
  (done : list BookmarkModel.t) : Prop :=
  NoDup (map fst o)
  /\ (forall k ms, In (k, ms) o ->
        ms = filter (inFolder k) done
        /\ ms <> [] /\ JsObject.inherited k = false)
  /\ (forall b, In b done -> In (EmailFormatter.folderNameOf b) (map fst o))
  /\ Permutation (concat (map snd o)) done.

(** The section of the folder [k]: its name and its bookmarks, newest
    first. *)
Definition sorted_entry (bs : list BookmarkModel.t) (k : jsstring)
  : jsstring * EmailFormatter.Group :=
  (k, JsArray.sort EmailFormatter.newestFirst (filter (inFolder k) bs)).

(** Occurrences of the favourite mark U+2605 in a text. *)
Definition stars (s : jsstring) : nat := count_occ N.eq_dec s STAR.

Definition noLineFeed (s : jsstring) : Prop := ~ In LF s.

(** A line of the form [* "..."...] and a line of the form [h4. ...]. *)
Definition isBookmarkLine (l : jsstring) : bool :=
  startsWith (js "* " ++ [QUOTE]) l.
Definition isHeadingLine (l : jsstring) : bool :=
  startsWith EmailFormatter.H4 l.

(** The two decimal digits of a number below 100. *)
Definition twoDigits (n : Z) : jsstring :=
  [Z.to_N (48 + n / 10); Z.to_N (48 + n mod 10)].

(** The day number of the first day of year [y], as ECMAScript defines
    it; [YearFromTime] is the year whose first day is the last one not
    after the given day. *)
Definition DayFromYear (y : Z) : Z :=
  (365 * (y - 1970) + (y - 1969) / 4 - (y - 1901) / 100
   + (y - 1601) / 400)%Z.

(** ECMAScript's [DaysInYear]. *)
Definition DaysInYear (y : Z) : Z :=
  if negb (y mod 4 =? 0)%Z then 365%Z
  else if negb (y mod 100 =? 0)%Z then 366%Z
  else if negb (y mod 400 =? 0)%Z then 365%Z
  else 366%Z.

(** ECMAScript's table for [MonthFromTime] (0 to 11), on the day within
    the year and the leap-year flag (0 or 1). *)
Definition MonthFromDay (leap dwy : Z) : Z :=
  (if dwy <? 31 then 0
   else if dwy <? 59 + leap then 1
   else if dwy <? 90 + leap then 2
   else if dwy <? 120 + leap then 3
   else if dwy <? 151 + leap then 4
   else if dwy <? 181 + leap then 5
   else if dwy <? 212 + leap then 6
   else if dwy <? 243 + leap then 7
   else if dwy <? 273 + leap then 8
   else if dwy <? 304 + leap then 9
   else if dwy <? 334 + leap then 10
   else 11)%Z.

(** ECMAScript's table for [DateFromTime]. *)
Definition DateFromDay (leap dwy : Z) : Z :=
  match MonthFromDay leap dwy with
  | 0 => dwy + 1
  | 1 => dwy - 30
  | 2 => dwy - 58 - leap
  | 3 => dwy - 89 - leap
  | 4 => dwy - 119 - leap
  | 5 => dwy - 150 - leap
  | 6 => dwy - 180 - leap
  | 7 => dwy - 211 - leap
  | 8 => dwy - 242 - leap
  | 9 => dwy - 272 - leap
  | 10 => dwy - 303 - leap
  | _ => dwy - 333 - leap
  end%Z.

End Spec.

(* ================================================================== *)
(** ** Concrete inputs *)
(* ================================================================== *)

Module Examples.

Import BookmarkModel.

(** Comparison by code units, standing in for a collation. *)
Fixpoint codeUnitCompare (a b : jsstring) : Z :=
  match a, b with
  | [], [] => 0
  | [], _ :: _ => -1
  | _ :: _, [] => 1
  | x :: a', y :: b' =>
    if (x <? y)%N then -1
    else if (y <? x)%N then 1
    else codeUnitCompare a' b'
  end.

(** 2024-03-05T10:00:00.000Z and 2024-01-01T00:00:00.000Z. *)
Definition t_2024_03_05_10h : Z := 1709632800000.
Definition t_2024_01_01 : Z := 1704067200000.

(** A host in the time zone UTC+[tz] milliseconds whose [Date.parse]
    knows the one timestamp the examples use and whose URL parser
    accepts what starts with [https://]. *)
Definition host (tz : Z) : Host :=
  {| Date_parse := fun s =>
       if JsStr.eqb s (js "2024-01-01T00:00:00.000Z")
       then Some t_2024_01_01 else None;
     URL_parses := startsWith (js "https://");
     Date_now := t_2024_03_05_10h;
     localeCompare_ja := codeUnitCompare;
     LocalTZA := fun _ => tz |}.

Definition utc : Host := host 0.

(** [{_id: n, title: 'Example', link: 'https://example.com/', tags: ['tech']}]. *)
Definition rawItem (n : Z) : JsVal :=
  JObj [(js "_id", JNum n);
        (js "title", JStr (js "Example"));
        (js "link", JStr (js "https://example.com/"));
        (js "tags", JArr [JStr (js "tech")])].

(** [{title: 'Example', link: 'https://example.com/', tags: []}]: no [_id]. *)
Definition rawItemWithoutId : JsVal :=
  JObj [(js "title", JStr (js "Example"));
        (js "link", JStr (js "https://example.com/"));
        (js "tags", JArr [])].

(** [{_id: 7, title: 'Example', link: 'https://example.com/'}]: no [tags]. *)
Definition rawItemWithoutTags : JsVal :=
  JObj [(js "_id", JNum 7);
        (js "title", JStr (js "Example"));
        (js "link", JStr (js "https://example.com/"))].

(** [{_id: 'api-id-123', title: 'Example', link: 'https://example.com/',
      tags: [], important: true, created: '2024-01-01T00:00:00.000Z'}]. *)
Definition rawItemWithStringId : JsVal :=
  JObj [(js "_id", JStr (js "api-id-123"));
        (js "title", JStr (js "Example"));
        (js "link", JStr (js "https://example.com/"));
        (js "tags", JArr []);
        (js "important", JBool true);
        (js "created", JStr (js "2024-01-01T00:00:00.000Z"))].

(** [n] well-formed raw items. *)
Definition rawItems (n : nat) : list JsVal :=
  map (fun k => rawItem (Z.of_nat (S k))) (seq 0 n).

(** A response whose data carries [items] and [count]. *)
Definition answer (items : list JsVal) (count : Z)
  : Result RaindropClient.Response :=
  inr (RaindropClient.WithData
         {| RaindropClient.items := JArr items;
            RaindropClient.count := Some count |}).

(** An upstream holding [c] items and reporting [c] on every page. *)
Definition steadyUpstream (c : nat) : RaindropClient.Upstream :=
  fun p => answer (rawItems (Nat.min 50 (c - 50 * p))) (Z.of_nat c).

(** An upstream that always answers with a full page and a total that is
    never reached. *)
Definition endlessUpstream : RaindropClient.Upstream :=
  fun _ => answer (rawItems 50) 1000000.

(** An upstream whose total drifts: 60 on page 0, 1000 on page 1, and an
    empty page 2. *)
Definition driftingUpstream : RaindropClient.Upstream :=
  fun p =>
    match p with
    | 0 => answer (rawItems 50) 60
    | 1 => answer (rawItems 50) 1000
    | _ => answer [] 1000
    end.

(** An upstream reporting 100 items over two full pages, the first item
    of which has no identifier; further pages are empty. *)
Definition upstreamWithBadItem : RaindropClient.Upstream :=
  fun p =>
    match p with
    | 0 => answer (rawItemWithoutId :: rawItems 49) 100
    | 1 => answer (rawItems 50) 100
    | _ => answer [] 100
    end.

Definition record (i : Z) (ti fo : string) (fav : bool) (c : Z)
  : BookmarkModel.t :=
  {| id := i; title := js ti; url := js "https://example.com/";
     folder := js fo; isFavorite := fav; createdAt := c |}.

End Examples.

(* ================================================================== *)
(** ** More of the platform *)
(* ================================================================== *)

Module JsBuiltins.

(** [String.prototype.includes]: the needle starts at some position. *)
Fixpoint includes (needle s : jsstring) : bool :=
  startsWith needle s
  || match s with
     | [] => false
     | _ :: r => includes needle r
     end.

(** A number of the calendar on [width] digits:
    [String(n).padStart(width, '0')]. *)
Definition pad (width : nat) (n : Z) : jsstring :=
  padStart width (js "0") (Number_toString n).

(** [Date.prototype.toISOString] on the time value of a valid Date:
    [YYYY-MM-DDTHH:mm:ss.sssZ] in UTC, the year on four digits from 0 to
    9999 and on six digits with a sign outside. *)
Definition toISOString (t : Z) : jsstring :=
  let day := (t / EmailFormatter.msPerDay)%Z in
  let ms := (t mod EmailFormatter.msPerDay)%Z in
  let '(y, m, d) := EmailFormatter.civil day in
  let year :=
    if ((0 <=? y) && (y <=? 9999))%Z then pad 4 y
    else (if (y <? 0)%Z then js "-" else js "+") ++ pad 6 (Z.abs y) in
  year ++ js "-" ++ pad 2 m ++ js "-" ++ pad 2 d
  ++ js "T" ++ pad 2 (ms / 3600000)%Z
  ++ js ":" ++ pad 2 ((ms / 60000) mod 60)%Z
  ++ js ":" ++ pad 2 ((ms / 1000) mod 60)%Z
  ++ js "." ++ pad 3 (ms mod 1000)%Z ++ js "Z".

(** V8's wording of the RangeError of [toISOString] on an Invalid
    Date. *)
Definition MSG_INVALID_TIME : jsstring :=
  Eval vm_compute in js "Invalid time value".

(** [date.toISOString()] on a Date object, valid or not. *)
Definition Date_toISOString (date : BookmarkModel.JsDate) : Result jsstring :=
  match date with
  | Some t => inr (toISOString t)
  | None => inl (RangeError MSG_INVALID_TIME)
  end.

(** The [name] property of a thrown error object. *)
Definition errorName (e : JsError) : jsstring :=
  match e with
  | Error _ => js "Error"
  | TypeError _ => js "TypeError"
  | RangeError _ => js "RangeError"
  end.

End JsBuiltins.

(* ================================================================== *)
(** ** bookmark-model.js: instance methods and [BookmarkValidator] *)
(* ================================================================== *)

Module BookmarkMethods.

Import BookmarkModel.

(** [toPlainObject()]. *)
Definition toPlainObject (this : BookmarkModel.t) : Data :=
  {| d_id := JNum (id this);
     d_title := JStr (title this);
     d_url := JStr (url this);
     d_folder := JStr (folder this);
     d_isFavorite := JBool (isFavorite this);
     d_createdAt := IsDate (Some (createdAt this)) |}.

End BookmarkMethods.

Module BookmarkValidator.

Import BookmarkModel.

(** The argument of [new BookmarkModel(data)] as the validator hands it
    over unchecked: a value whose six properties can be read, or [null]
    or [undefined], on which the first read, [data.id], throws. *)
Inductive Argument : Type :=
| Fields (d : Data)
| NullArgument
| UndefinedArgument.

(** V8's wording of the TypeErrors raised by [data.id]. *)
Definition MSG_ID_OF_NULL : jsstring :=
  Eval vm_compute in js "Cannot read properties of null (reading 'id')".
Definition MSG_ID_OF_UNDEFINED : jsstring :=
  Eval vm_compute in js "Cannot read properties of undefined (reading 'id')".

Section WithHost.
Context (h : Host).

(** [new BookmarkModel(data)] on any argument. *)
Definition construct (data : Argument) : Result t :=
  match data with
  | Fields d => new h d
  | NullArgument => inl (TypeError MSG_ID_OF_NULL)
  | UndefinedArgument => inl (TypeError MSG_ID_OF_UNDEFINED)
  end.

(** [static isValid(data)]. *)
Definition isValid (data : Argument) : bool :=
  match construct data with
  | inr _ => true
  | inl _ => false
  end.


(** [static isValidApiItem(apiItem)]. *)
Definition isValidApiItem (apiItem : JsVal) : bool :=
  match fromRaindropApiResponse h apiItem with
  | inr _ => true
  | inl _ => false
  end.

End WithHost.

End BookmarkValidator.

Coercion BookmarkValidator.Fields
  : BookmarkModel.Data >-> BookmarkValidator.Argument.

(* ================================================================== *)
(** ** raindrop-client.js: the interceptor and the two methods *)
(* ================================================================== *)

Module Interceptor.

(** What axios rejects with before the interceptor: an error carrying the
    response of the server (a status outside 2xx and the decoded body),
    an error of a request that got no response, or any other error. *)
Inductive AxiosError : Type :=
| WithResponse (status : Z) (data : JsVal)
| WithRequest
| Other (e : JsError).

Definition MSG_API_ERROR : jsstring :=
  Eval vm_compute in js "Raindrop.io APIエラー (".
Definition MSG_401 : jsstring :=
  Eval vm_compute in
    js "認証に失敗しました。APIトークンを確認してください。".
Definition MSG_403 : jsstring :=
  Eval vm_compute in
    js "アクセスが禁止されています。API権限を確認してください。".
Definition MSG_429 : jsstring :=
  Eval vm_compute in
    js "レート制限を超過しました。しばらく待ってから再試行してください。".
Definition MSG_5XX : jsstring :=
  Eval vm_compute in
    js "Raindrop.ioサーバーエラーです。しばらく待ってから再試行してください。".
Definition MSG_NETWORK : jsstring :=
  Eval vm_compute in
    js "ネットワークエラー: Raindrop.io APIに接続できません".

Definition MSG_TOKEN : jsstring :=
  Eval vm_compute in
    js "Raindrop.io APIトークンが必要です。RAINDROP_API_TOKEN環境変数を設定するか、コンストラクタに渡してください。".

(** [constructor(apiToken = null)]: the token kept in [this.apiToken],
    given the value of [process.env.RAINDROP_API_TOKEN]; the creation
    of the axios client that follows the check is taken not to throw. *)
Definition new (apiToken env_RAINDROP_API_TOKEN : JsVal) : Result JsVal :=
  let apiToken :=
    or_else (match apiToken with JUndefined => JNull | v => v end)
      env_RAINDROP_API_TOKEN in
  if negb (truthy apiToken) then inl (Error MSG_TOKEN)
  else inr apiToken.

(** [#handleError(error)]: the error the returned promise rejects with,
    and its [status] property. *)
Definition handleError (error : AxiosError) : JsError * option Z :=
  match error with
  | WithResponse status data =>
    let message := MSG_API_ERROR ++ Number_toString status ++ js ")" in
    let message :=
      if (status =? 401)%Z then MSG_401
      else if (status =? 403)%Z then MSG_403
      else if (status =? 429)%Z then MSG_429
      else if ((status =? 500) || (status =? 502)
               || (status =? 503) || (status =? 504))%Z then MSG_5XX
      else if truthy data && truthy (get data (js "errorMessage"))
      then message ++ js ": " ++ Js.toString (get data (js "errorMessage"))
      else message in
    (Error message, Some status)
  | WithRequest => (Error MSG_NETWORK, None)
  | Other e => (e, None)
  end.

(** The upstream as the methods of the client see it once the
    constructor has installed the interceptor: responses pass, errors go
    through [#handleError].  [Req] is what identifies a request: the page
    index for one call of [getRecentBookmarks], the whole request
    otherwise. *)
Definition intercepted {Req : Type}
  (raw : Req -> AxiosError + RaindropClient.Response)
  : Req -> Result RaindropClient.Response :=
  fun request =>
    match raw request with
    | inl error => inl (fst (handleError error))
    | inr response => inr response
    end.

End Interceptor.

Module RaindropMethods.

Import BookmarkModel.

(** The request [this.client.get(path, {params})]; [created] is [None]
    when the parameter is not set. *)
Record Get : Type := {
  path : jsstring;
  perpage : nat;
  page_ : nat;
  created : option jsstring
}.

(** What the client answers to a request: the response it resolves
    with, or the error it rejects with. *)
Definition Server : Type := Get -> Result RaindropClient.Response.

(** The [options] of [getBookmarksByCollection], defaults applied; a
    date is [None] for [null], else a Date object. *)
Record Options : Type := {
  fromDate : option JsDate;  (* default [null] *)
  toDate : option JsDate;    (* default [null] *)
  page : nat;                (* default [0] *)
  perPage : nat              (* default [50] *)
}.

Definition defaultOptions : Options :=
  {| fromDate := None; toDate := None; page := 0; perPage := 50 |}.

Definition MSG_COLLECTION : jsstring := Eval vm_compute in js "コレクション".
Definition MSG_COLLECTION_ERROR : jsstring :=
  Eval vm_compute in js "のブックマーク取得エラー:".

(** V8's wording of the TypeError raised by the destructuring of an
    [options] argument that is [null]. *)
Definition MSG_OPTIONS_NULL : jsstring :=
  Eval vm_compute in
    js "Cannot destructure property 'fromDate' of 'options' as it is null.".

(** [`${fromDateStr}..${toDateStr}`], when both dates can be
    formatted; the start is formatted first. *)
Definition createdFilter (fromDate toDate : JsDate) : Result jsstring :=
  match JsBuiltins.Date_toISOString fromDate with
  | inl e => inl e
  | inr fromDateStr =>
    match JsBuiltins.Date_toISOString toDate with
    | inl e => inl e
    | inr toDateStr => inr (fromDateStr ++ js ".." ++ toDateStr)
    end
  end.

Section WithHost.
Context (h : Host) (UTC : Z -> Z) (server : Server).

(** The pages of the listing endpoint under one [created] filter. *)
Definition pagesOf (created : jsstring) : RaindropClient.Upstream :=
  fun page =>
    server {| path := js "/raindrops/0";
              perpage := RaindropClient.perPage;
              page_ := page;
              created := Some created |}.

(** [fromDate = new Date(); fromDate.setDate(fromDate.getDate() - 7)]:
    the local time of the clock seven days earlier, taken back to UTC by
    the abstract operation [UTC] of the platform and clipped. *)
Definition sevenDaysAgo : JsDate :=
  TimeClip (UTC (EmailFormatter.localTime h (Date_now h)
                 - 7 * EmailFormatter.msPerDay)%Z).

(** [async getRecentBookmarks(fromDate = null, toDate = null)], the
    whole method: a missing date is replaced, both dates are formatted
    outside the [try], and the rest is [RaindropClient.getRecentBookmarks]
    against the pages under that filter.  A date is [None] when the
    argument is falsy, else a Date object. *)
Definition getRecentBookmarks (fromDate toDate : option JsDate) (fuel : nat)
  : option (list Event * Result (list BookmarkModel.t)) :=
  let fromDate :=
    match fromDate with
    | Some d => d
    | None => sevenDaysAgo
    end in
  let toDate :=
    match toDate with
    | Some d => d
    | None => Some (Date_now h)
    end in
  match createdFilter fromDate toDate with
  | inl e => Some ([], inl e)
  | inr created => RaindropClient.getRecentBookmarks h (pagesOf created) fuel
  end.

(** [async getBookmarksByCollection(collectionId, options)]: the request
    sent, if any, the console output and the returned array (or the
    error thrown).  [options] is [None] for [null], on which the
    destructuring before the [try] throws. *)
Definition getBookmarksByCollection (collectionId : Z)
  (options : option Options)
  : option Get * list Event * Result (list BookmarkModel.t) :=
  match options with
  | None => (None, [], inl (TypeError MSG_OPTIONS_NULL))
  | Some options =>
  let rethrow (e : JsError) :=
    [ConsoleError (MSG_COLLECTION ++ Number_toString collectionId
                   ++ MSG_COLLECTION_ERROR) (message e)] in
  let created : Result (option jsstring) :=
    match fromDate options, toDate options with
    | Some fromDate, Some toDate =>
      match createdFilter fromDate toDate with
      | inl e => inl e
      | inr filter => inr (Some filter)
      end
    | _, _ => inr None
    end in
  match created with
  | inl e => (None, rethrow e, inl e)
  | inr created =>
    let request :=
      {| path := js "/raindrops/" ++ Number_toString collectionId;
         perpage := perPage options;
         page_ := page options;
         created := created |} in
    match server request with
    | inl e => (Some request, rethrow e, inl e)
    | inr response =>
      match RaindropClient.destructure response with
      | inl e => (Some request, rethrow e, inl e)
      | inr data =>
        match RaindropClient.items data with
        | JArr _ =>
          match BookmarkModel.fromRaindropApiResponseArray h
                  (RaindropClient.items data) with
          | (warns, inl e) => (Some request, warns ++ rethrow e, inl e)
          | (warns, inr bookmarks) => (Some request, warns, inr bookmarks)
          end
        | _ => (Some request, [], inr [])
        end
      end
    end
  end
  end.

End WithHost.

End RaindropMethods.

(* ================================================================== *)
(** ** email-formatter.js: [generateEmailContent] *)
(* ================================================================== *)

Module EmailContent.

Import EmailFormatter.

(** The [options] of [generateEmailContent]; a date is [None] for
    [null], the addresses are whatever the caller passes. *)
Record Options : Type := {
  startDate : option Z;     (* default [null] *)
  endDate : option Z;       (* default [null] *)
  fromEmail : JsVal;        (* default [null] *)
  toEmail : JsVal           (* default [null] *)
}.

(** The object [generateEmailContent] returns. *)
Record t : Type := {
  subject : jsstring;
  body : jsstring;
  from : JsVal;
  to : JsVal;
  bookmarkCount : nat;
  dateRange : option jsstring
}.

(** A destructuring default: it replaces [undefined] only. *)
Definition default (v d : JsVal) : JsVal :=
  match v with
  | JUndefined => d
  | _ => v
  end.

Section WithHost.
Context (h : Host).

(** [static generateEmailContent(bookmarks, options)]. *)
Definition generateEmailContent
  (bookmarks : option (list BookmarkModel.t)) (options : Options)
  : Result t :=
  let dateRange :=
    match startDate options, endDate options with
    | Some s, Some e => Some (formatDateRange h s e)
    | _, _ => None
    end in
  let subject :=
    generateEmailSubject h (startDate options) (endDate options) in
  match formatBookmarksToEmailBody h bookmarks
          {| EmailFormatter.dateRange := dateRange;
             includeHeader := true |} with
  | inl e => inl e
  | inr body =>
    inr {| subject := subject;
           body := body;
           from := default (fromEmail options) JNull;
           to := default (toEmail options) JNull;
           bookmarkCount :=
             match bookmarks with
             | Some bs => length bs
             | None => 0
             end;
           dateRange := dateRange |}
  end.

End WithHost.

End EmailContent.

(* ================================================================== *)
(** ** ses-client.js *)
(* ================================================================== *)

Module SESClient.

(** The instance: what the constructor stored. *)
Record t : Type := {
  fromEmail : JsVal;
  toEmail : JsVal;
  region : JsVal
}.

(** The [options] of the constructor; a field is [JUndefined] when
    absent. *)
Record Options : Type := {
  o_region : JsVal;
  o_fromEmail : JsVal;
  o_toEmail : JsVal
}.

(** The variables of [process.env] the constructor reads. *)
Record Env : Type := {
  AWS_REGION : JsVal;
  EMAIL_FROM : JsVal;
  EMAIL_TO : JsVal
}.

(** V8's wording of the TypeError raised by the destructuring of an
    [options] argument that is [null]. *)
Definition MSG_OPTIONS_NULL : jsstring :=
  Eval vm_compute in
    js "Cannot destructure property 'region' of 'options' as it is null.".

Definition MSG_NO_FROM : jsstring :=
  Eval vm_compute in js "EMAIL_FROM環境変数が設定されていません".
Definition MSG_NO_TO : jsstring :=
  Eval vm_compute in js "EMAIL_TO環境変数が設定されていません".

(** [constructor(options = {})].  [options] is [None] for [null], on
    which the destructuring throws; [AWSSESClient region] is the error
    that [new AWSSESClient({ region })] of the AWS SDK throws, if it
    throws. *)
Definition new (AWSSESClient : JsVal -> option JsError)
  (options : option Options) (env : Env) : Result t :=
  match options with
  | None => inl (TypeError MSG_OPTIONS_NULL)
  | Some options =>
  let region :=
    match o_region options with
    | JUndefined => or_else (AWS_REGION env) (JStr (js "us-east-1"))
    | v => v
    end in
  let fromEmail :=
    match o_fromEmail options with
    | JUndefined => EMAIL_FROM env
    | v => v
    end in
  let toEmail :=
    match o_toEmail options with
    | JUndefined => EMAIL_TO env
    | v => v
    end in
  if negb (truthy fromEmail) then inl (Error MSG_NO_FROM)
  else if negb (truthy toEmail) then inl (Error MSG_NO_TO)
  else
    match AWSSESClient region with
    | Some e => inl e
    | None => inr {| fromEmail := fromEmail; toEmail := toEmail;
                     region := region |}
    end
  end.

(** The argument of [sendEmail]; a field is [JUndefined] when absent. *)
Record EmailContent : Type := {
  subject : JsVal;
  body : JsVal;
  from : JsVal;
  to : JsVal
}.

(** The input of the [SendEmailCommand]; both charsets are ['UTF-8']. *)
Record SendEmailParams : Type := {
  Source : jsstring;
  ToAddresses : list jsstring;
  Subject_Data : jsstring;
  Body_Text_Data : jsstring
}.

(** An error of the AWS SDK: its [name] and [message] (empty when
    missing). *)
Record AwsError : Type := {
  aws_name : jsstring;
  aws_message : jsstring
}.

(** What [this.sesClient.send(command)] resolves to ([result.MessageId])
    or rejects with. *)
Definition Send : Type := SendEmailParams -> AwsError + JsVal.

(** The object [sendEmail] resolves to. *)
Record SendResult : Type := {
  success : bool;
  messageId : JsVal;
  r_from : jsstring;
  r_to : jsstring;
  r_subject : jsstring
}.

(** A thrown error with the [code] property [#handleSESError] adds. *)
Record Thrown : Type := {
  error : JsError;
  code : option jsstring
}.

Inductive Effect : Type :=
| SendEmailCommand (params : SendEmailParams)
| Console (label text : jsstring).

Definition MSG_SUBJECT : jsstring :=
  Eval vm_compute in js "件名は必須の文字列です".
Definition MSG_BODY : jsstring :=
  Eval vm_compute in js "本文は必須の文字列です".
Definition MSG_FROM : jsstring :=
  Eval vm_compute in js "送信者メールアドレスが無効です".
Definition MSG_TO : jsstring :=
  Eval vm_compute in js "受信者メールアドレスが無効です".
Definition MSG_SEND_ERROR : jsstring :=
  Eval vm_compute in js "メール送信エラー:".
Definition MSG_FAILED : jsstring :=
  Eval vm_compute in js "メール送信に失敗しました".
Definition MSG_REJECTED : jsstring :=
  Eval vm_compute in
    js "メッセージが拒否されました。メールアドレスまたは内容を確認してください。".
Definition MSG_DOMAIN : jsstring :=
  Eval vm_compute in
    js "送信者ドメインが検証されていません。SESでドメインを検証してください。".
Definition MSG_CONFIGURATION_SET : jsstring :=
  Eval vm_compute in js "指定された設定セットが存在しません。".
Definition MSG_PAUSED : jsstring :=
  Eval vm_compute in
    js "アカウントの送信が一時停止されています。AWSサポートにお問い合わせください。".
Definition MSG_DISABLED : jsstring :=
  Eval vm_compute in
    js "アカウントの送信が無効になっています。AWSサポートにお問い合わせください。".
Definition MSG_PARAMETER : jsstring :=
  Eval vm_compute in
    js "無効なパラメータが指定されました。メールアドレスや内容を確認してください。".
Definition MSG_ACCESS : jsstring :=
  Eval vm_compute in
    js "SESへのアクセス権限がありません。IAMロールの設定を確認してください。".
Definition MSG_THROTTLING : jsstring :=
  Eval vm_compute in
    js "SESの送信制限に達しました。しばらく待ってから再試行してください。".

(** The [case] labels of [#handleSESError], each with its message. *)
Definition sesMessages : list (jsstring * jsstring) :=
  Eval vm_compute in
    [(js "MessageRejected", MSG_REJECTED);
     (js "MailFromDomainNotVerified", MSG_DOMAIN);
     (js "ConfigurationSetDoesNotExist", MSG_CONFIGURATION_SET);
     (js "SendingPausedException", MSG_PAUSED);
     (js "AccountSendingPausedException", MSG_DISABLED);
     (js "InvalidParameterValue", MSG_PARAMETER);
     (js "AccessDenied", MSG_ACCESS);
     (js "UnauthorizedOperation", MSG_ACCESS);
     (js "Throttling", MSG_THROTTLING)].

Fixpoint lookup (k : jsstring) (table : list (jsstring * jsstring))
  : option jsstring :=
  match table with
  | [] => None
  | (k', v) :: r => if JsStr.eqb k k' then Some v else lookup k r
  end.

(** [#handleSESError(error)]. *)
Definition handleSESError (error : AwsError) : Thrown :=
  let errorCode :=
    match aws_name error with
    | [] => js "UnknownError"
    | c :: r => c :: r
    end in
  let message :=
    match lookup errorCode sesMessages with
    | Some m => m
    | None =>
      match aws_message error with
      | [] => MSG_FAILED
      | c :: r => MSG_FAILED ++ js ": " ++ (c :: r)
      end
    end in
  {| error := Error message; code := Some errorCode |}.

(** [!v || typeof v !== 'string'] fails: [v] is a non-empty string. *)
Definition nonEmptyString (v : JsVal) : option jsstring :=
  match v with
  | JStr (c :: r) => Some (c :: r)
  | _ => None
  end.

Section WithService.
Context (h : Host) (send : Send) (this : t).

(** [async sendEmail(emailContent)]. *)
Definition sendEmail (emailContent : EmailContent)
  : list Effect * (Thrown + SendResult) :=
  let from := EmailContent.default (from emailContent) (fromEmail this) in
  let to := EmailContent.default (to emailContent) (toEmail this) in
  match nonEmptyString (subject emailContent) with
  | None => ([], inl {| error := Error MSG_SUBJECT; code := None |})
  | Some subject =>
    match nonEmptyString (body emailContent) with
    | None => ([], inl {| error := Error MSG_BODY; code := None |})
    | Some body =>
      match nonEmptyString from with
      | None => ([], inl {| error := Error MSG_FROM; code := None |})
      | Some from =>
        match nonEmptyString to with
        | None => ([], inl {| error := Error MSG_TO; code := None |})
        | Some to =>
          let sendEmailParams :=
            {| Source := from;
               ToAddresses := [to];
               Subject_Data := subject;
               Body_Text_Data := body |} in
          match send sendEmailParams with
          | inr MessageId =>
            ([SendEmailCommand sendEmailParams],
             inr {| success := true;
                    messageId := MessageId;
                    r_from := from;
                    r_to := to;
                    r_subject := subject |})
          | inl error =>
            ([SendEmailCommand sendEmailParams;
              Console MSG_SEND_ERROR (aws_message error)],
             inl (handleSESError error))
          end
        end
      end
    end
  end.

(** The object [sendBookmarkDigest] resolves to: the fields of the
    result of [sendEmail], then [bookmarkCount] and [dateRange]. *)
Record DigestResult : Type := {
  sent : SendResult;
  bookmarkCount : nat;
  dateRange : option jsstring
}.

(** [async sendBookmarkDigest(bookmarks, options)]. *)
Definition sendBookmarkDigest
  (bookmarks : option (list BookmarkModel.t)) (options : EmailContent.Options)
  : list Effect * (Thrown + DigestResult) :=
  let fromEmail :=
    or_else (EmailContent.default (EmailContent.fromEmail options) JNull)
      (fromEmail this) in
  let toEmail :=
    or_else (EmailContent.default (EmailContent.toEmail options) JNull)
      (toEmail this) in
  match EmailContent.generateEmailContent h bookmarks
          {| EmailContent.startDate := EmailContent.startDate options;
             EmailContent.endDate := EmailContent.endDate options;
             EmailContent.fromEmail := fromEmail;
             EmailContent.toEmail := toEmail |} with
  | inl e => ([], inl {| error := e; code := None |})
  | inr emailContent =>
    match sendEmail
            {| subject := JStr (EmailContent.subject emailContent);
               body := JStr (EmailContent.body emailContent);
               from := EmailContent.from emailContent;
               to := EmailContent.to emailContent |} with
    | (effects, inl e) => (effects, inl e)
    | (effects, inr result) =>
      (effects,
       inr {| sent := result;
              bookmarkCount := EmailContent.bookmarkCount emailContent;
              dateRange := EmailContent.dateRange emailContent |})
    end
  end.

End WithService.

End SESClient.

(* ================================================================== *)
(** ** error-handler.js *)
(* ================================================================== *)

Module ErrorHandler.

Inductive ErrorType : Type :=
| CONFIGURATION_ERROR
| RAINDROP_API_ERROR
| SES_ERROR
| NETWORK_ERROR
| TIMEOUT_ERROR
| UNKNOWN_ERROR.

Inductive ErrorSeverity : Type := CRITICAL | HIGH | MEDIUM | LOW.

(** The string each member of [ErrorType] and [ErrorSeverity] is. *)
Definition typeName (type : ErrorType) : jsstring :=
  match type with
  | CONFIGURATION_ERROR => js "CONFIGURATION_ERROR"
  | RAINDROP_API_ERROR => js "RAINDROP_API_ERROR"
  | SES_ERROR => js "SES_ERROR"
  | NETWORK_ERROR => js "NETWORK_ERROR"
  | TIMEOUT_ERROR => js "TIMEOUT_ERROR"
  | UNKNOWN_ERROR => js "UNKNOWN_ERROR"
  end.

Definition severityName (severity : ErrorSeverity) : jsstring :=
  match severity with
  | CRITICAL => js "CRITICAL"
  | HIGH => js "HIGH"
  | MEDIUM => js "MEDIUM"
  | LOW => js "LOW"
  end.

(** What the handler reads of an error that is no [AppError]. *)
Record PlainError : Type := {
  name : jsstring;
  message : jsstring;
  stack : jsstring
}.

(** An [AppError]; its [name] is ['AppError']. *)
Record AppError : Type := {
  app_message : jsstring;
  type : ErrorType;
  severity : ErrorSeverity;
  originalError : option PlainError;      (* default [null] *)
  timestamp : jsstring
}.

(** A caught value: [error instanceof AppError] or not. *)
Inductive Caught : Type :=
| Plain (e : PlainError)
| App (a : AppError).

Definition nameOf (error : Caught) : jsstring :=
  match error with
  | Plain e => name e
  | App _ => js "AppError"
  end.

Definition messageOf (error : Caught) : jsstring :=
  match error with
  | Plain e => message e
  | App a => app_message a
  end.

(** An [Error] or [TypeError] thrown by the code above, as caught. *)
Definition caught (e : JsError) (stack : jsstring) : Caught :=
  Plain {| name := JsBuiltins.errorName e;
           message := Js.message e;
           stack := stack |}.

Definition isOneOf (s : jsstring) (l : list jsstring) : bool :=
  existsb (JsStr.eqb s) l.

(** [error.message.includes(s)]. *)
Definition messageIncludes (error : Caught) (s : string) : bool :=
  JsBuiltins.includes (js s) (messageOf error).

(** [classifyError(error)]. *)
Definition classifyError (error : Caught) : ErrorType * ErrorSeverity :=
  let '(type, severity) :=
    if messageIncludes error "環境変数" || messageIncludes error "設定"
    then (CONFIGURATION_ERROR, CRITICAL)
    else if messageIncludes error "Raindrop" || messageIncludes error "API"
    then (RAINDROP_API_ERROR, HIGH)
    else if messageIncludes error "SES" || messageIncludes error "メール"
    then (SES_ERROR, HIGH)
    else if messageIncludes error "Network" || messageIncludes error "ネットワーク"
    then (NETWORK_ERROR, MEDIUM)
    else if messageIncludes error "timeout" || messageIncludes error "タイムアウト"
    then (TIMEOUT_ERROR, MEDIUM)
    else (UNKNOWN_ERROR, MEDIUM) in
  let name := nameOf error in
  match name with
  | [] => (type, severity)
  | _ :: _ =>
    if isOneOf name [js "AccessDenied"; js "UnauthorizedOperation"]
    then (CONFIGURATION_ERROR, CRITICAL)
    else if isOneOf name [js "Throttling"; js "TooManyRequestsException"]
    then (RAINDROP_API_ERROR, MEDIUM)
    else if isOneOf name [js "MessageRejected"; js "SendingPausedException"]
    then (SES_ERROR, HIGH)
    else if isOneOf name [js "NetworkingError"; js "TimeoutError"]
    then (NETWORK_ERROR, MEDIUM)
    else (type, severity)
  end.

(** The [errorData] that [logError] hands to [logger.error] along with
    the message. *)
Record ErrorData (Ctx : Type) : Type := {
  log_message : jsstring;
  log_type : ErrorType;
  log_severity : ErrorSeverity;
  log_timestamp : jsstring;
  log_originalError : option PlainError;
  log_context : Ctx
}.

Section WithHost.
Context (h : Host) (JSON_stringify : JsVal -> jsstring).

(** [new AppError(message, type, severity, originalError)]; the
    timestamp is the clock in ISO format. *)
Definition new_AppError (message : jsstring) (type : ErrorType)
  (severity : ErrorSeverity) (originalError : option PlainError) : AppError :=
  {| app_message := message;
     type := type;
     severity := severity;
     originalError := originalError;
     timestamp := JsBuiltins.toISOString (Date_now h) |}.

(** [logError(error, context)]: the call of [logger.error]. *)
Definition logError {Ctx : Type} (error : AppError) (context : Ctx)
  : ErrorData Ctx :=
  {| log_message := app_message error;
     log_type := type error;
     log_severity := severity error;
     log_timestamp := timestamp error;
     log_originalError := originalError error;
     log_context := context |}.

(** [handleError(error, context)]: what is logged and what is
    returned. *)
Definition handleError {Ctx : Type} (error : Caught) (context : Ctx)
  : ErrorData Ctx * AppError :=
  let '(type, severity) := classifyError error in
  match error with
  | App a => (logError a context, a)
  | Plain e =>
    let appError := new_AppError (message e) type severity (Some e) in
    (logError appError context, appError)
  end.

(** [isRecoverable(error)], as a truth value. *)
Definition isRecoverable (error : AppError) : bool :=
  match type error with
  | NETWORK_ERROR | TIMEOUT_ERROR => true
  | _ =>
    match originalError error with
    | Some e =>
      isOneOf (name e)
        [js "Throttling"; js "TooManyRequestsException";
         js "ServiceUnavailable"]
    | None => false
    end
  end.

(** The object [generateErrorResponse] returns. *)
Record Response : Type := {
  statusCode : Z;
  body : jsstring
}.

Definition USER_SYSTEM : jsstring :=
  Eval vm_compute in js "システムエラーが発生しました".
Definition USER_CONFIGURATION : jsstring :=
  Eval vm_compute in js "設定エラーが発生しました".
Definition USER_RAINDROP : jsstring :=
  Eval vm_compute in js "ブックマーク取得サービスでエラーが発生しました".
Definition USER_SES : jsstring :=
  Eval vm_compute in js "メール送信サービスでエラーが発生しました".
Definition USER_NETWORK : jsstring :=
  Eval vm_compute in js "ネットワークエラーが発生しました".

(** The [switch] of [generateErrorResponse]: status code and message
    for the user. *)
Definition statusAndMessage (type : ErrorType) : Z * jsstring :=
  match type with
  | CONFIGURATION_ERROR => (500%Z, USER_CONFIGURATION)
  | RAINDROP_API_ERROR => (502%Z, USER_RAINDROP)
  | SES_ERROR => (502%Z, USER_SES)
  | NETWORK_ERROR | TIMEOUT_ERROR => (503%Z, USER_NETWORK)
  | UNKNOWN_ERROR => (500%Z, USER_SYSTEM)
  end.

(** [generateErrorResponse(error)]. *)
Definition generateErrorResponse (error : AppError) : Response :=
  let '(statusCode, userMessage) := statusAndMessage (type error) in
  {| statusCode := statusCode;
     body :=
       JSON_stringify
         (JObj [(js "message", JStr userMessage);
                (js "error",
                 JObj [(js "type", JStr (typeName (type error)));
                       (js "severity", JStr (severityName (severity error)));
                       (js "timestamp", JStr (timestamp error))])]) |}.

(** [shouldAlert(error)]. *)
Definition shouldAlert (error : AppError) : bool :=
  match severity error with
  | CRITICAL | HIGH => true
  | MEDIUM | LOW => false
  end.

End WithHost.

End ErrorHandler.

(* ================================================================== *)
(** ** index.js: [loadConfiguration] *)
(* ================================================================== *)

Module Handler.

Import ErrorHandler.

(** What [paramStore.getDropCastConfig()] resolves to: three values,
    [JUndefined] for a parameter the store does not hold. *)
Record DropCastConfig : Type := {
  RAINDROP_API_TOKEN : JsVal;
  EMAIL_FROM : JsVal;
  EMAIL_TO : JsVal
}.

(** The object [loadConfiguration] resolves to. *)
Record Configuration : Type := {
  c_RAINDROP_API_TOKEN : JsVal;
  c_EMAIL_FROM : JsVal;
  c_EMAIL_TO : JsVal;
  c_AWS_REGION : JsVal
}.

Definition MSG_MISSING : jsstring :=
  Eval vm_compute in js "必須設定が取得できませんでした: ".
Definition MSG_LOAD : jsstring := Eval vm_compute in js "設定取得エラー: ".

Section WithHost.
Context (h : Host).

(** [async loadConfiguration(logger)], given what the parameter store
    answers and the value of [process.env.AWS_REGION]. *)
Definition loadConfiguration (getDropCastConfig : Result DropCastConfig)
  (env_AWS_REGION : JsVal) : AppError + Configuration :=
  let attempt : (jsstring + Configuration) :=
    match getDropCastConfig with
    | inl error => inl (Js.message error)
    | inr config =>
      let requiredConfig :=
        [(js "RAINDROP_API_TOKEN", RAINDROP_API_TOKEN config);
         (js "EMAIL_FROM", EMAIL_FROM config);
         (js "EMAIL_TO", EMAIL_TO config)] in
      let missingConfig :=
        map fst (filter (fun kv => negb (truthy (snd kv))) requiredConfig) in
      match missingConfig with
      | _ :: _ =>
        inl (app_message
               (new_AppError h (MSG_MISSING ++ join (js ", ") missingConfig)
                  CONFIGURATION_ERROR CRITICAL None))
      | [] =>
        inr {| c_RAINDROP_API_TOKEN := RAINDROP_API_TOKEN config;
               c_EMAIL_FROM := EMAIL_FROM config;
               c_EMAIL_TO := EMAIL_TO config;
               c_AWS_REGION :=
                 or_else env_AWS_REGION (JStr (js "us-east-1")) |}
      end
    end in
  match attempt with
  | inl error_message =>
    inl (new_AppError h (MSG_LOAD ++ error_message)
           CONFIGURATION_ERROR CRITICAL None)
  | inr configuration => inr configuration
  end.

End WithHost.

End Handler.

(* ================================================================== *)
(** ** Vocabulary of the further properties *)
(* ================================================================== *)

Module Props.

Import BookmarkModel.

(** The first tag of a raw item as [tags.at(0) ?? '未分類'] reads it:
    [None] when the read throws or gives something that is no string. *)
Definition firstTag (item : JsVal) : option jsstring :=
  match get item (js "tags") with
  | JArr [] | JArr (JUndefined :: _) | JArr (JNull :: _) | JStr [] =>
    Some UNSORTED
  | JArr (JStr s :: _) => Some s
  | JStr (c :: _) => Some [c]
  | _ => None
  end.

(** The title of a raw item as [title || 'タイトルなし'] reads it. *)
Definition titleOf (item : JsVal) : option jsstring :=
  match get item (js "title") with
  | JStr (c :: r) => Some (c :: r)
  | v => if truthy v then None else Some UNTITLED
  end.

(** The error that page [p] makes the fetch throw: the one its request
    rejects with, the TypeError of a response whose data is [null] or
    [undefined], or the complaint about a response that carries no array
    of items. *)
Definition thrownAt (upstream : RaindropClient.Upstream) (p : nat)
  : option JsError :=
  match upstream p with
  | inl e => Some e
  | inr response =>
    match RaindropClient.destructure response with
    | inl e => Some e
    | inr data =>
      match RaindropClient.items data with
      | JArr _ => None
      | _ => Some (Error RaindropClient.MSG_INVALID_RESPONSE)
      end
    end
  end.

(** What fetching page [p] logs: the request, then the warning about the
    items of the page that do not convert, if any. *)
Definition pageEvents (h : Host) (upstream : RaindropClient.Upstream)
  (p : nat) : list Event :=
  Request p
  :: match Spec.pageItems upstream p with
     | Some its => Spec.batchWarning (Spec.failures h 0 its)
     | None => []
     end.

(** What a run that ends with page [p] logs last: the error it
    rethrows, or the warning about the page limit after page 100. *)
Definition ending (p : nat) (r : Result (list BookmarkModel.t))
  : list Event :=
  match r with
  | inl e => [ConsoleError RaindropClient.MSG_FETCH_ERROR (message e)]
  | inr _ =>
    if (p =? 100)%nat then [ConsoleWarn RaindropClient.MSG_PAGE_LIMIT]
    else []
  end.

(** The first line of a digest: the title, followed by the date-range
    label in parentheses when one is given. *)
Definition headline (dateRange : option jsstring) : jsstring :=
  match EmailFormatter.given dateRange with
  | Some r => EmailFormatter.DIGEST_TITLE ++ js " (" ++ r ++ js ")"
  | None => EmailFormatter.DIGEST_TITLE
  end.

(** The line of a digest that states the number of records. *)
Definition totalLine (n : nat) : jsstring :=
  EmailFormatter.TOTAL_PREFIX ++ Number_toString (Z.of_nat n)
  ++ EmailFormatter.TOTAL_SUFFIX.

(** The number an integer-like name spells. *)
Definition indexOfName (k : jsstring) : N :=
  match JsObject.arrayIndex k with
  | Some i => i
  | None => 0%N
  end.

(** Every character of a text satisfies [p]. *)
Definition allChars (p : N -> bool) (s : jsstring) : Prop :=
  Forall (fun c => p c = true) s.

(** A digit, a slash, a space or a hyphen. *)
Definition isDateChar (c : N) : bool :=
  JsObject.isDigit c || (c =? 47)%N || (c =? 32)%N || (c =? 45)%N.

End Props.

(* ================================================================== *)
(** ** Conversion of raw items *)
(* ================================================================== *)

Import BookmarkModel Spec.

Section ConversionFacts.
Context (h : Host).

(** An item lacking [_id] or [link] is refused by one of the three
    guards that open [fromRaindropApiResponse]. *)
Lemma missing_is_refused (item : JsVal) :
  missingIdOrLink item = true ->
  exists m,
    fromRaindropApiResponse h item = inl (Error m)
    /\ In m [MSG_INVALID_ITEM; MSG_NO_ID; MSG_NO_LINK].
Proof.
  unfold missingIdOrLink, fromRaindropApiResponse. intros Hmiss.
  destruct (negb (truthy item) || _) eqn:Hobj.
  - exists MSG_INVALID_ITEM. simpl. auto.
  - destruct (negb (truthy (get item (js "_id")))) eqn:Hid.
    + exists MSG_NO_ID. simpl. auto.
    + destruct (negb (truthy (get item (js "link")))) eqn:Hlink.
      * exists MSG_NO_LINK. simpl. auto.
      * simpl in Hmiss. discriminate.
Qed.

(** The state of the [forEach] after a run over [items]. *)
Lemma forEach_item_fold (items : list JsVal) (acc : Acc) :
  fold_left (forEach_item h) items acc
  = {| bookmarks := bookmarks acc ++ converted h items;
       errors := errors acc ++ map failureLine (failures h (index acc) items);
       index := index acc + length items |}.
Proof.
  revert acc. induction items as [|item rest IH]; intros acc; simpl.
  - rewrite !app_nil_r, Nat.add_0_r. destruct acc; reflexivity.
  - rewrite IH. unfold forEach_item.
    destruct (fromRaindropApiResponse h item) as [e|b]; simpl;
      rewrite <- ?app_assoc; simpl; f_equal; lia.
Qed.

Lemma fromRaindropApiResponseArray_spec (items : list JsVal) :
  fromRaindropApiResponseArray h (JArr items)
  = (batchWarning (failures h 0 items), inr (converted h items)).
Proof.
  unfold fromRaindropApiResponseArray. rewrite forEach_item_fold. simpl.
  unfold batchWarning.
  destruct (failures h 0 items); reflexivity.
Qed.

Lemma converted_app (l1 l2 : list JsVal) :
  converted h (l1 ++ l2) = converted h l1 ++ converted h l2.
Proof. unfold converted. apply flat_map_app. Qed.

Lemma failures_app (start : nat) (l1 l2 : list JsVal) :
  failures h start (l1 ++ l2)
  = failures h start l1 ++ failures h (start + length l1) l2.
Proof.
  revert start. induction l1 as [|item rest IH]; intros start; simpl.
  - rewrite Nat.add_0_r. reflexivity.
  - rewrite IH, Nat.add_succ_r.
    destruct (fromRaindropApiResponse h item); reflexivity.
Qed.

Lemma failures_lower_bound (start : nat) (items : list JsVal) i m :
  In (i, m) (failures h start items) -> start <= i.
Proof.
  revert start. induction items as [|item rest IH]; intros start; simpl.
  - tauto.
  - destruct (fromRaindropApiResponse h item).
    + simpl. intros [E|Hin].
      * inversion E. lia.
      * apply IH in Hin. lia.
    + intros Hin. apply IH in Hin. lia.
Qed.

(** [failures] pairs the position of each failing item with the message
    of the error it raised. *)
Lemma failures_iff (start : nat) (items : list JsVal) i m :
  In (start + i, m) (failures h start items)
  <-> exists item e,
        nth_error items i = Some item
        /\ fromRaindropApiResponse h item = inl e
        /\ m = message e.
Proof.
  revert start i. induction items as [|item rest IH]; intros start i.
  - simpl. split; [tauto|]. intros (it & e & Hn & _).
    destruct i; discriminate.
  - destruct i as [|i].
    + rewrite Nat.add_0_r. simpl.
      destruct (fromRaindropApiResponse h item) as [e|b] eqn:E.
      * simpl. split.
        -- intros [Heq|Hin].
           ++ inversion Heq. eauto.
           ++ apply failures_lower_bound in Hin. lia.
        -- intros (it & e' & Hn & He & ->). inversion Hn; subst it.
           left. congruence.
      * split.
        -- intros Hin. apply failures_lower_bound in Hin. lia.
        -- intros (it & e' & Hn & He & _). inversion Hn; subst it.
           congruence.
    + specialize (IH (S start) i). simpl in IH.
      replace (start + S i) with (S (start + i)) by lia. simpl.
      destruct (fromRaindropApiResponse h item) as [e|b] eqn:E.
      * simpl. rewrite <- IH. split.
        -- intros [Heq|Hin]; [inversion Heq; lia | exact Hin].
        -- auto.
      * exact IH.
Qed.

End ConversionFacts.

(** C1.  An item lacking [_id] or [link] makes [fromRaindropApiResponse]
    throw an [Error]; [fromRaindropApiResponseArray] never throws on an
    array: it returns the records of exactly the items that convert, in
    the order of the items (a record of an earlier item stays before a
    record of a later one), an item lacking [_id] or [link] contributes
    no record, and the failures are reported in at most one
    [console.warn] that lists, for each failing item, its index and the
    message of its error. *)
Theorem C1_bad_items_are_dropped_from_the_batch
  (h : Host) (items : list JsVal) :
  (forall item, missingIdOrLink item = true ->
     exists m, fromRaindropApiResponse h item = inl (Error m)
               /\ In m [MSG_INVALID_ITEM; MSG_NO_ID; MSG_NO_LINK])
  /\ fromRaindropApiResponseArray h (JArr items)
     = (batchWarning (failures h 0 items), inr (converted h items))
  /\ (forall l1 item l2, items = l1 ++ item :: l2 ->
        converted h items
        = converted h l1
          ++ match fromRaindropApiResponse h item with
             | inr b => [b]
             | inl _ => []
             end
          ++ converted h l2)
  /\ (forall l1 item l2, items = l1 ++ item :: l2 ->
        missingIdOrLink item = true ->
        converted h items = converted h l1 ++ converted h l2)
  /\ (forall i m,
        In (i, m) (failures h 0 items)
        <-> exists item e,
              nth_error items i = Some item
              /\ fromRaindropApiResponse h item = inl e
              /\ m = message e).
Proof.
  assert (Horder : forall l1 item l2, items = l1 ++ item :: l2 ->
            converted h items
            = converted h l1
              ++ match fromRaindropApiResponse h item with
                 | inr b => [b]
                 | inl _ => []
                 end
              ++ converted h l2).
  { intros l1 item l2 ->. rewrite converted_app. reflexivity. }
  split; [|split; [|split; [|split]]].
  - intros item. apply missing_is_refused.
  - apply fromRaindropApiResponseArray_spec.
  - exact Horder.
  - intros l1 item l2 Hsplit Hmiss.
    rewrite (Horder _ _ _ Hsplit).
    destruct (missing_is_refused h item Hmiss) as (m & -> & _).
    reflexivity.
  - intros i m. apply (failures_iff h 0 items i m).
Qed.

(** C1 at a batch of three: the item without [_id] is dropped, its two
    valid neighbours come out in order, one warning names index 1. *)
Lemma C1_witness :
  let items := [Examples.rawItem 1; Examples.rawItemWithoutId;
                Examples.rawItem 2] in
  missingIdOrLink Examples.rawItemWithoutId = true
  /\ fromRaindropApiResponse Examples.utc Examples.rawItemWithoutId
     = inl (Error MSG_NO_ID)
  /\ fromRaindropApiResponseArray Examples.utc (JArr items)
     = (batchWarning [(1, MSG_NO_ID)], inr (converted Examples.utc items))
  /\ map id (converted Examples.utc items) = [1%Z; 2%Z].
Proof.
  cbv zeta.
  destruct (C1_bad_items_are_dropped_from_the_batch Examples.utc
              [Examples.rawItem 1; Examples.rawItemWithoutId;
               Examples.rawItem 2]) as (_ & Hbatch & _).
  split; [reflexivity|]. split; [reflexivity|].
  split; [|vm_compute; reflexivity].
  rewrite Hbatch. f_equal.
Defined.

Section ConstructorFacts.
Context (h : Host).

(** What [typed] returns carries the fields of [data] unchanged. *)
Lemma typed_fields (d : Data) (b : BookmarkModel.t) :
  typed d = Some b ->
  d_id d = JNum (id b) /\ d_title d = JStr (title b)
  /\ d_url d = JStr (url b) /\ d_folder d = JStr (folder b)
  /\ d_isFavorite d = JBool (isFavorite b)
  /\ d_createdAt d = IsDate (Some (createdAt b)).
Proof.
  unfold typed.
  destruct (d_id d); try discriminate.
  destruct (d_title d); try discriminate.
  destruct (d_url d); try discriminate.
  destruct (d_folder d); try discriminate.
  destruct (d_isFavorite d); try discriminate.
  destruct (d_createdAt d) as [[c|]|]; try discriminate.
  intros E. inversion E. simpl. repeat split; reflexivity.
Qed.

(** When [validate] finds no error the fields have the types of an
    instance: the constructor never returns an ill-typed object. *)
Lemma validate_nil_typed (d : Data) :
  validate h d = [] -> exists b, typed d = Some b.
Proof.
  unfold validate. intros Hv.
  apply app_eq_nil in Hv. destruct Hv as [Hid Hv].
  apply app_eq_nil in Hv. destruct Hv as [Hurl Hv].
  apply app_eq_nil in Hv. destruct Hv as [Htitle Hv].
  apply app_eq_nil in Hv. destruct Hv as [Hfolder Hv].
  apply app_eq_nil in Hv. destruct Hv as [Hfav Hv].
  apply app_eq_nil in Hv. destruct Hv as [Hcreated _].
  unfold typed, isNumber, isString, isBoolean in *.
  destruct (d_id d); simpl in Hid; rewrite ?orb_true_r in Hid;
    try discriminate.
  destruct (d_title d); simpl in Htitle; try discriminate.
  destruct (d_url d); simpl in Hurl; rewrite ?orb_true_r in Hurl;
    try discriminate.
  destruct (d_folder d); simpl in Hfolder; try discriminate.
  destruct (d_isFavorite d); simpl in Hfav; try discriminate.
  destruct (d_createdAt d) as [[c|]|v]; try discriminate.
  eexists. reflexivity.
Qed.

Lemma new_inr (d : Data) (b : BookmarkModel.t) :
  new h d = inr b -> validate h d = [] /\ typed d = Some b.
Proof.
  unfold new. destruct (validate h d) as [|e es]; [|discriminate].
  destruct (typed d) as [b'|]; [|discriminate].
  intros E. inversion E. auto.
Qed.

Lemma new_valid (d : Data) :
  validate h d = [] -> exists b, new h d = inr b /\ typed d = Some b.
Proof.
  intros Hv. destruct (validate_nil_typed d Hv) as (b & Hb).
  exists b. unfold new. rewrite Hv, Hb. auto.
Qed.

(** A [data] whose [id] is not a number is refused. *)
Lemma new_needs_numeric_id (d : Data) :
  isNumber (d_id d) = false -> exists e, new h d = inl e.
Proof.
  intros Hid. unfold new.
  assert (Hv : exists m ms, validate h d = m :: ms).
  { unfold validate. rewrite Hid, orb_true_r. simpl. eauto. }
  destruct Hv as (m & ms & ->). eauto.
Qed.

(** The fields of a converted record, read off the raw item. *)
Lemma fromRaindropApiResponse_fields (item : JsVal) (b : BookmarkModel.t) :
  fromRaindropApiResponse h item = inr b ->
  get item (js "_id") = JNum (id b)
  /\ id b <> 0%Z
  /\ get item (js "link") = JStr (url b)
  /\ or_else (get item (js "title")) (JStr UNTITLED) = JStr (title b)
  /\ isFavorite b = truthy (get item (js "important"))
  /\ folder b = match get item (js "tags") with
                | JArr (JStr s :: _) => s
                | JStr (c :: _) => [c]
                | _ => UNSORTED
                end.
Proof.
  unfold fromRaindropApiResponse.
  destruct (negb (truthy item) || _); [discriminate|].
  destruct (negb (truthy (get item (js "_id")))) eqn:Hid; [discriminate|].
  destruct (negb (truthy (get item (js "link")))); [discriminate|].
  destruct (tags_at0 (get item (js "tags"))) as [e|tag0] eqn:Htags;
    [discriminate|].
  intros Hnew. apply new_inr in Hnew. destruct Hnew as [_ Hty].
  apply typed_fields in Hty. simpl in Hty.
  destruct Hty as (H1 & H2 & H3 & H4 & H5 & _).
  repeat split; try assumption.
  - intros Hz. rewrite H1, Hz in Hid. discriminate.
  - inversion H5. reflexivity.
  - unfold tags_at0 in Htags.
    destruct (get item (js "tags")) as [| |bt|nt|st|at'|ot];
      try discriminate; inversion Htags; subst tag0; clear Htags.
    + destruct st; simpl in H4; inversion H4; reflexivity.
    + destruct at' as [|x xs]; simpl in H4; [inversion H4; reflexivity|].
      destruct x; simpl in H4; inversion H4; reflexivity.
Qed.

End ConstructorFacts.

(** C5.  A raw item that has no [tags] field does not get the
    placeholder folder: [apiItem.tags.at(0)] throws a [TypeError], the
    conversion of that item fails and the batch converter drops it. *)
Theorem C5_item_without_tags_is_refused (h : Host) :
  fromRaindropApiResponse h Examples.rawItemWithoutTags
  = inl (TypeError MSG_AT_UNDEFINED)
  /\ snd (fromRaindropApiResponseArray h (JArr [Examples.rawItemWithoutTags]))
     = inr [].
Proof. split; reflexivity. Qed.

(** When the conversion succeeds the folder is the first tag, and the
    placeholder when the tag list is empty. *)
Lemma folder_is_first_tag (h : Host) (item : JsVal) (b : BookmarkModel.t) :
  fromRaindropApiResponse h item = inr b ->
  (forall s rest, get item (js "tags") = JArr (JStr s :: rest) -> folder b = s)
  /\ (get item (js "tags") = JArr [] -> folder b = UNSORTED).
Proof.
  intros Hb. apply fromRaindropApiResponse_fields in Hb.
  destruct Hb as (_ & _ & _ & _ & _ & Hf).
  split; [intros s rest E | intros E]; rewrite E in Hf; exact Hf.
Qed.

(** C6.  An identifier that is not a number, a string identifier
    included, makes the conversion fail: [validate] tests
    [typeof this.id !== 'number']. *)
Theorem C6_string_identifier_is_refused (h : Host) (item : JsVal) :
  isNumber (get item (js "_id")) = false ->
  exists e, fromRaindropApiResponse h item = inl e.
Proof.
  intros Hid. unfold fromRaindropApiResponse.
  destruct (negb (truthy item) || _); [eauto|].
  destruct (negb (truthy (get item (js "_id")))); [eauto|].
  destruct (negb (truthy (get item (js "link")))); [eauto|].
  destruct (tags_at0 (get item (js "tags"))) as [e|tag0]; [eauto|].
  apply new_needs_numeric_id. exact Hid.
Qed.

(** C6 at the item whose [_id] is ['api-id-123'] and whose other fields
    are in order. *)
Lemma C6_witness :
  isNumber (get Examples.rawItemWithStringId (js "_id")) = false
  /\ exists e,
       fromRaindropApiResponse Examples.utc Examples.rawItemWithStringId
       = inl e.
Proof.
  split; [reflexivity|].
  apply (C6_string_identifier_is_refused Examples.utc
           Examples.rawItemWithStringId).
  reflexivity.
Defined.

(** The error raised for ['api-id-123'] is the validation error about
    [id] alone; with a numeric identifier the same item converts. *)
Lemma string_identifier_example :
  fromRaindropApiResponse Examples.utc Examples.rawItemWithStringId
  = inl (Error (MSG_VALIDATION ++ MSG_ID))
  /\ exists b, fromRaindropApiResponse Examples.utc (Examples.rawItem 123)
               = inr b /\ id b = 123%Z.
Proof.
  split; [vm_compute; reflexivity|].
  eexists. split; vm_compute; reflexivity.
Qed.

(** A converted record carries the numeric identifier of its item. *)
Lemma numeric_identifier_is_kept (h : Host) (item : JsVal) (b : BookmarkModel.t) :
  fromRaindropApiResponse h item = inr b ->
  get item (js "_id") = JNum (id b).
Proof.
  intros Hb. apply fromRaindropApiResponse_fields in Hb. tauto.
Qed.

(* ================================================================== *)
(** ** The fetch loop *)
(* ================================================================== *)

Import RaindropClient.

Lemma requests_app (a b : list Event) :
  requests (a ++ b) = requests a ++ requests b.
Proof. unfold requests. apply flat_map_app. Qed.

Lemma requests_batchWarning (fs : list (nat * jsstring)) :
  requests (batchWarning fs) = [].
Proof. destruct fs; reflexivity. Qed.

Section LoopFacts.
Context (h : Host) (upstream : Upstream).

(** One pass through the body, read off the upstream. *)
Lemma body_spec (st : Loop) :
  match pageItems upstream (page st) with
  | None =>
    exists e, body h upstream st = ([Request (page st)], Throw e)
  | Some its =>
    let st' :=
      {| allBookmarks := allBookmarks st ++ converted h its;
         page := S (page st);
         hasMorePages :=
           (length its =? perPage)%nat
           && below_count (length (allBookmarks st ++ converted h its))
                (pageCount upstream (page st)) |} in
    body h upstream st
    = if (100 <? S (page st))%nat
      then (Request (page st) :: batchWarning (failures h 0 its)
              ++ [ConsoleWarn MSG_PAGE_LIMIT], Break st')
      else (Request (page st) :: batchWarning (failures h 0 its),
            Continue st')
  end.
Proof.
  unfold pageItems, pageCount, body.
  destruct (upstream (page st)) as [e|[data| |]]; cbn [destructure]; eauto.
  destruct (items data) as [| |b|n|s|its|o] eqn:Hitems; eauto.
  rewrite fromRaindropApiResponseArray_spec. reflexivity.
Qed.

(** The loop returns as soon as the fuel covers the pages that remain
    below the safety limit. *)
Lemma while_terminates (fuel : nat) (st : Loop) :
  page st <= 100 -> 101 - page st <= fuel ->
  exists res, while h upstream fuel st = Some res.
Proof.
  revert st. induction fuel as [|fuel IH]; intros st Hp Hfuel; [lia|].
  simpl. destruct (hasMorePages st); [|eauto].
  pose proof (body_spec st) as Hb.
  destruct (pageItems upstream (page st)) as [its|].
  - cbv zeta in Hb. rewrite Hb.
    destruct (100 <? S (page st))%nat eqn:Hlim; [eauto|].
    apply Nat.ltb_ge in Hlim.
    match goal with
    | |- context [while h upstream fuel ?s] =>
      destruct (IH s) as ([evs' r'] & ->); cbn [page]; [lia|lia|eauto]
    end.
  - destruct Hb as (e & ->). eauto.
Qed.

(** More fuel does not change what the loop returns. *)
Lemma while_mono (fuel fuel' : nat) (st : Loop) res :
  while h upstream fuel st = Some res -> fuel <= fuel' ->
  while h upstream fuel' st = Some res.
Proof.
  revert fuel' st res.
  induction fuel as [|fuel IH]; intros fuel' st res; [discriminate|].
  destruct fuel' as [|fuel']; [lia|]. simpl.
  destruct (hasMorePages st); [|auto].
  destruct (body h upstream st) as [evs [st'|st'|e]]; auto.
  destruct (while h upstream fuel st') as [[evs' r']|] eqn:E; [|discriminate].
  intros Hres Hle. rewrite (IH fuel' st' _ E); [exact Hres|lia].
Qed.

(** The pages a run requests, and where and why it stops. *)
Lemma while_trace (fuel : nat) (st : Loop) evs r :
  while h upstream fuel st = Some (evs, r) ->
  hasMorePages st = true ->
  page st <= 100 ->
  allBookmarks st = before h upstream (page st) ->
  exists n,
    requests evs = seq (page st) (S n)
    /\ page st + n <= 100
    /\ (forall q, page st <= q < page st + n ->
          continues h upstream q = true)
    /\ (page st + n < 100 -> continues h upstream (page st + n) = false)
    /\ (forall l, r = inr l ->
          l = accumulated h upstream (page st + n)
          /\ pageItems upstream (page st + n) <> None)
    /\ (forall e, r = inl e -> pageItems upstream (page st + n) = None).
Proof.
  revert st evs r.
  induction fuel as [|fuel IH]; intros st evs r; [discriminate|].
  simpl. intros Hrun Hmore Hp Hall. rewrite Hmore in Hrun.
  pose proof (body_spec st) as Hb.
  assert (Hcont : continues h upstream (page st)
                  = match pageItems upstream (page st) with
                    | Some its =>
                      (length its =? perPage)%nat
                      && below_count
                           (length (allBookmarks st ++ converted h its))
                           (pageCount upstream (page st))
                    | None => false
                    end).
  { unfold continues, accumulated. simpl. unfold pageRecords.
    rewrite Hall. destruct (pageItems upstream (page st)); reflexivity. }
  destruct (pageItems upstream (page st)) as [its|] eqn:Hits.
  - cbv zeta in Hb. rewrite Hb in Hrun. clear Hb.
    assert (Hacc : allBookmarks st ++ converted h its
                   = accumulated h upstream (page st)).
    { unfold accumulated. simpl. unfold pageRecords.
      rewrite Hits, Hall. reflexivity. }
    destruct (100 <? S (page st))%nat eqn:Hlim.
    + (* the safety check breaks out of the loop *)
      apply Nat.ltb_lt in Hlim. inversion Hrun; subst evs r; clear Hrun.
      exists 0. rewrite Nat.add_0_r. simpl.
      rewrite requests_app, requests_batchWarning. simpl.
      split; [reflexivity|]. split; [lia|]. split; [intros q Hq; lia|].
      split; [lia|]. split; [|discriminate].
      intros l E. inversion E. split; [exact Hacc|].
      rewrite Hits. discriminate.
    + apply Nat.ltb_ge in Hlim.
      match type of Hrun with
      | context [while h upstream fuel ?s] => set (st' := s) in *
      end.
      destruct (while h upstream fuel st') as [[evs' r']|] eqn:Hrec;
        [|discriminate].
      inversion Hrun; subst evs r; clear Hrun.
      destruct (hasMorePages st') eqn:Hmore'.
      * (* another page is fetched *)
        destruct (IH st' evs' r' Hrec Hmore') as
          (n & Hreq & Hle & Hbefore & Hlast & Hok & Herr).
        { simpl. lia. }
        { simpl. unfold pageRecords. rewrite Hits, Hall. reflexivity. }
        simpl page in *.
        exists (S n).
        replace (page st + S n) with (S (page st) + n) by lia.
        split; [|split; [exact Hle|split; [|split; [exact Hlast|split]]]].
        -- simpl. rewrite requests_app, requests_batchWarning. simpl.
           rewrite Hreq. reflexivity.
        -- intros q Hq. destruct (Nat.eq_dec q (page st)) as [->|Hne].
           ++ rewrite Hcont. exact Hmore'.
           ++ apply Hbefore. lia.
        -- exact Hok.
        -- exact Herr.
      * (* the loop test fails *)
        destruct fuel as [|fuel]; [discriminate|].
        cbn [while] in Hrec. rewrite Hmore' in Hrec.
        inversion Hrec; subst evs' r'; clear Hrec.
        exists 0. rewrite Nat.add_0_r. simpl.
        rewrite app_nil_r, requests_batchWarning.
        split; [reflexivity|]. split; [lia|]. split; [intros q Hq; lia|].
        split; [intros _; rewrite Hcont; exact Hmore'|].
        split; [|discriminate].
        intros l E. inversion E. split; [exact Hacc|].
        rewrite Hits. discriminate.
  - destruct Hb as (e & Hb). rewrite Hb in Hrun.
    inversion Hrun; subst evs r; clear Hrun.
    exists 0. rewrite Nat.add_0_r. simpl.
    split; [reflexivity|]. split; [lia|]. split; [intros q Hq; lia|].
    split; [intros _; rewrite Hcont; reflexivity|].
    split; [discriminate|]. intros e' _. exact Hits.
Qed.

(** Every call returns, after at most 101 page requests numbered from
    0, the last of which is the first page that does not continue or
    page 100. *)
Lemma getRecentBookmarks_trace (fuel : nat) :
  101 <= fuel ->
  exists evs r n,
    getRecentBookmarks h upstream fuel = Some (evs, r)
    /\ requests evs = seq 0 (S n)
    /\ n <= 100
    /\ (forall q, q < n -> continues h upstream q = true)
    /\ (n < 100 -> continues h upstream n = false)
    /\ (forall l, r = inr l ->
          l = accumulated h upstream n /\ pageItems upstream n <> None)
    /\ (forall e, r = inl e -> pageItems upstream n = None).
Proof.
  intros Hfuel. unfold getRecentBookmarks.
  destruct (while_terminates fuel init) as ([evs r] & Hrun);
    [simpl; lia | simpl; lia |].
  destruct (while_trace fuel init evs r Hrun) as
    (n & Hreq & Hle & Hbefore & Hlast & Hok & Herr);
    [reflexivity | simpl; lia | reflexivity |].
  simpl in *. exists evs, r, n.
  split; [exact Hrun|]. split; [exact Hreq|]. split; [exact Hle|].
  split; [intros q Hq; apply Hbefore; lia|].
  split; [exact Hlast|]. split; [exact Hok|exact Herr].
Qed.

End LoopFacts.

Lemma below_count_iff (n : nat) (c : option Z) :
  below_count n c = true <-> exists c', c = Some c' /\ (Z.of_nat n < c')%Z.
Proof.
  unfold below_count. destruct c as [c'|].
  - rewrite Z.ltb_lt. split.
    + intros Hlt. exists c'. auto.
    + intros (c'' & E & Hlt). inversion E. lia.
  - split; [discriminate|]. intros (c' & E & _). discriminate.
Qed.

Lemma continues_iff (h : Host) (upstream : Upstream) (p : nat) its :
  pageItems upstream p = Some its ->
  (continues h upstream p = true
   <-> length its = 50
       /\ exists c, pageCount upstream p = Some c
                    /\ (Z.of_nat (length (accumulated h upstream p)) < c)%Z).
Proof.
  intros Hits. unfold continues. rewrite Hits.
  rewrite andb_true_iff, Nat.eqb_eq, below_count_iff. reflexivity.
Qed.

(** C2 (amended).  Every call of [getRecentBookmarks] returns, and in
    its run, once one of the first 99 pages (index below 99) has been
    fetched and converted, the next page is requested if and only if
    that page held exactly 50 raw items and the number of validated
    records accumulated so far is strictly below the total reported by
    the response to that same page; when page 0 holds fewer than 50
    items, page 0 is the only request. *)
Theorem C2_next_page_iff_full_and_below_reported_total
  (h : Host) (upstream : Upstream) (fuel : nat) :
  101 <= fuel ->
  exists evs r,
    getRecentBookmarks h upstream fuel = Some (evs, r)
    /\ (forall p its,
          p < 99 -> requested evs p -> pageItems upstream p = Some its ->
          (requested evs (S p)
           <-> length its = 50
               /\ exists c,
                    pageCount upstream p = Some c
                    /\ (Z.of_nat (length (accumulated h upstream p)) < c)%Z))
    /\ (forall its,
          pageItems upstream 0 = Some its -> length its < 50 ->
          requests evs = [0]).
Proof.
  intros Hfuel.
  destruct (getRecentBookmarks_trace h upstream fuel Hfuel) as
    (evs & r & n & Hrun & Hreq & Hle & Hbefore & Hlast & _).
  exists evs, r. split; [exact Hrun|]. split.
  - intros p its Hp Hrequested Hits. unfold requested in *.
    rewrite Hreq in *. rewrite in_seq in *.
    rewrite <- (continues_iff h upstream p its Hits). split.
    + intros Hnext. apply Hbefore. lia.
    + intros Hcont.
      destruct (Nat.eq_dec p n) as [->|Hne]; [|lia].
      rewrite (Hlast ltac:(lia)) in Hcont. discriminate.
  - intros its Hits Hshort.
    destruct n as [|n]; [exact Hreq|].
    assert (Hcont : continues h upstream 0 = true) by (apply Hbefore; lia).
    apply (continues_iff h upstream 0 its Hits) in Hcont. lia.
Qed.

(** C2 on the upstream that holds 75 items: after page 0 (50 items, 50
    records, total 75) page 1 is requested; after page 1 none is. *)
Lemma C2_witness :
  101 <= 101
  /\ exists evs r,
       getRecentBookmarks Examples.utc (Examples.steadyUpstream 75) 101
       = Some (evs, r)
       /\ (forall p its,
             p < 99 -> requested evs p ->
             pageItems (Examples.steadyUpstream 75) p = Some its ->
             (requested evs (S p)
              <-> length its = 50
                  /\ exists c,
                       pageCount (Examples.steadyUpstream 75) p = Some c
                       /\ (Z.of_nat
                             (length (accumulated Examples.utc
                                        (Examples.steadyUpstream 75) p))
                           < c)%Z))
       /\ (forall its,
             pageItems (Examples.steadyUpstream 75) 0 = Some its ->
             length its < 50 -> requests evs = [0]).
Proof.
  split; [lia|].
  apply (C2_next_page_iff_full_and_below_reported_total
           Examples.utc (Examples.steadyUpstream 75) 101).
  lia.
Defined.

(** C2 as first stated fails: on the upstream whose total drifts from 60
    (page 0) to 1000 (page 1), page 2 is requested after page 1 although
    the 100 records accumulated by then are not below the total that
    page 0 reported. *)
Lemma C2_counterexample :
  exists evs r its,
    getRecentBookmarks Examples.utc Examples.driftingUpstream 101
    = Some (evs, r)
    /\ requested evs 1
    /\ pageItems Examples.driftingUpstream 1 = Some its
    /\ requested evs 2
    /\ ~ (length its = 50
          /\ exists c,
               pageCount Examples.driftingUpstream 0 = Some c
               /\ (Z.of_nat
                     (length (accumulated Examples.utc
                                Examples.driftingUpstream 1))
                   < c)%Z).
Proof.
  destruct (getRecentBookmarks Examples.utc Examples.driftingUpstream 101)
    as [[evs r]|] eqn:Hrun; [|vm_compute in Hrun; discriminate].
  exists evs, r, (Examples.rawItems 50).
  split; [reflexivity|].
  assert (Hreq : requests evs = [0; 1; 2]).
  { vm_compute in Hrun. inversion Hrun. reflexivity. }
  unfold requested. rewrite Hreq.
  split; [simpl; auto|]. split; [reflexivity|]. split; [simpl; auto|].
  intros (_ & c & Hc & Hlt).
  vm_compute in Hc. inversion Hc; subst c.
  assert (Hlen : length (accumulated Examples.utc
                           Examples.driftingUpstream 1) = 100)
    by (vm_compute; reflexivity).
  rewrite Hlen in Hlt. lia.
Qed.

Section SteadyUpstream.
Context (h : Host) (upstream : Upstream) (c : Z).

Lemma pagesFor_bounds :
  (0 <= c)%Z ->
  (50 * Z.of_nat (pagesFor c) - 50 < c <= 50 * Z.of_nat (pagesFor c))%Z.
Proof.
  intros Hc. unfold pagesFor.
  rewrite Z2Nat.id by (apply Z.div_pos; lia).
  pose proof (Z.div_mod (c + 49) 50 ltac:(lia)) as Hdm.
  pose proof (Z.mod_pos_bound (c + 49) 50 ltac:(lia)) as Hmod.
  lia.
Qed.

Lemma converted_length (its : list JsVal) :
  Forall (fun item => exists b, fromRaindropApiResponse h item = inr b) its ->
  length (converted h its) = length its.
Proof.
  induction 1 as [|item rest (b & Hb) _ IH]; [reflexivity|].
  unfold converted in *. simpl. rewrite Hb. simpl. rewrite IH. reflexivity.
Qed.

Lemma steady_before (p : nat) :
  (0 <= c)%Z -> steady h upstream c -> p <= pagesFor c ->
  Z.of_nat (length (before h upstream p)) = Z.min (50 * Z.of_nat p) c.
Proof.
  intros Hc Hsteady. pose proof (pagesFor_bounds Hc) as HN.
  induction p as [|p IH]; intros Hp.
  - simpl. lia.
  - simpl before. rewrite length_app, Nat2Z.inj_add, IH by lia.
    destruct (Hsteady p ltac:(lia)) as (_ & its & Hits & Hlen & Hall).
    unfold pageRecords. rewrite Hits, (converted_length its Hall), Hlen. lia.
Qed.

Lemma steady_continues (p : nat) :
  (0 <= c)%Z -> steady h upstream c -> p < pagesFor c ->
  continues h upstream p = negb (S p =? pagesFor c)%nat.
Proof.
  intros Hc Hsteady Hp. pose proof (pagesFor_bounds Hc) as HN.
  destruct (Hsteady p Hp) as (Hcount & its & Hits & Hlen & Hall).
  unfold continues, accumulated. rewrite Hits, Hcount.
  unfold below_count, perPage.
  rewrite (steady_before (S p) Hc Hsteady) by lia.
  destruct (S p =? pagesFor c)%nat eqn:Hlast; simpl.
  - apply Nat.eqb_eq in Hlast. apply andb_false_iff. right.
    apply Z.ltb_ge. lia.
  - apply Nat.eqb_neq in Hlast. apply andb_true_iff. split.
    + apply Nat.eqb_eq. lia.
    + apply Z.ltb_lt. lia.
Qed.

End SteadyUpstream.

(** C3 (amended).  For a total between 1 and 5000, when every page
    reports that total, each page before the last holds exactly 50
    items, the last holds the remainder and every item converts,
    [getRecentBookmarks] requests exactly the pages 0 to
    ceil(total / 50) - 1 and returns as many records as the total. *)
Theorem C3_steady_upstream_takes_ceil_pages
  (h : Host) (upstream : Upstream) (c : Z) (fuel : nat) :
  (1 <= c <= 5000)%Z -> 101 <= fuel -> steady h upstream c ->
  exists evs l,
    getRecentBookmarks h upstream fuel = Some (evs, inr l)
    /\ requests evs = seq 0 (pagesFor c)
    /\ Z.of_nat (length l) = c.
Proof.
  intros Hc Hfuel Hsteady.
  assert (Hc0 : (0 <= c)%Z) by lia.
  pose proof (pagesFor_bounds c Hc0) as HN.
  destruct (getRecentBookmarks_trace h upstream fuel Hfuel) as
    (evs & r & n & Hrun & Hreq & Hle & Hbefore & Hlast & Hok & Herr).
  assert (Hn : S n = pagesFor c).
  { destruct (Nat.lt_trichotomy (S n) (pagesFor c)) as [Hlt|[Heq|Hgt]].
    - assert (Hstop : continues h upstream n = false) by (apply Hlast; lia).
      rewrite (steady_continues h upstream c n Hc0 Hsteady) in Hstop by lia.
      apply negb_false_iff, Nat.eqb_eq in Hstop. lia.
    - exact Heq.
    - assert (Hgo : continues h upstream (pagesFor c - 1) = true)
        by (apply Hbefore; lia).
      rewrite (steady_continues h upstream c _ Hc0 Hsteady) in Hgo by lia.
      apply negb_true_iff, Nat.eqb_neq in Hgo. lia. }
  destruct (Hsteady n ltac:(lia)) as (_ & its & Hits & _).
  destruct r as [e|l].
  - rewrite (Herr e eq_refl) in Hits. discriminate.
  - exists evs, l. split; [exact Hrun|]. split; [rewrite Hreq, Hn; reflexivity|].
    destruct (Hok l eq_refl) as [-> _]. unfold accumulated.
    rewrite (steady_before h upstream c (S n) Hc0 Hsteady) by lia. lia.
Qed.

(** A boolean test for "every item converts". *)
Lemma all_convert_check (h : Host) (its : list JsVal) :
  forallb (fun item =>
             match fromRaindropApiResponse h item with
             | inr _ => true
             | inl _ => false
             end) its = true ->
  Forall (fun item => exists b, fromRaindropApiResponse h item = inr b) its.
Proof.
  rewrite forallb_forall, Forall_forall. intros Hall item Hin.
  specialize (Hall item Hin).
  destruct (fromRaindropApiResponse h item) as [e|b]; [discriminate|eauto].
Qed.

Lemma steadyUpstream_75_is_steady :
  steady Examples.utc (Examples.steadyUpstream 75) 75.
Proof.
  intros p Hp. change (pagesFor 75) with 2 in Hp.
  destruct p as [|[|p]]; [| |lia].
  - split; [reflexivity|]. exists (Examples.rawItems 50).
    split; [reflexivity|]. split; [reflexivity|].
    apply all_convert_check. vm_compute. reflexivity.
  - split; [reflexivity|]. exists (Examples.rawItems 25).
    split; [reflexivity|]. split; [reflexivity|].
    apply all_convert_check. vm_compute. reflexivity.
Qed.

(** C3 at a total of 75: two requests, page 0 and page 1. *)
Lemma C3_witness :
  (1 <= 75 <= 5000)%Z /\ 101 <= 101
  /\ steady Examples.utc (Examples.steadyUpstream 75) 75
  /\ exists evs l,
       getRecentBookmarks Examples.utc (Examples.steadyUpstream 75) 101
       = Some (evs, inr l)
       /\ requests evs = seq 0 (pagesFor 75)
       /\ Z.of_nat (length l) = 75%Z.
Proof.
  split; [lia|]. split; [lia|].
  split; [exact steadyUpstream_75_is_steady|].
  apply (C3_steady_upstream_takes_ceil_pages
           Examples.utc (Examples.steadyUpstream 75) 75 101).
  - lia.
  - lia.
  - exact steadyUpstream_75_is_steady.
Defined.

(** Reading a run back from what was observed of it. *)
Lemma observe_returned res reqs n ev :
  observe res = Some (reqs, Some n, ev) ->
  exists evs l,
    res = Some (evs, inr l)
    /\ requests evs = reqs /\ length l = n
    /\ last (map Some evs) None = ev.
Proof.
  unfold observe. destruct res as [[evs [e|l]]|]; try discriminate.
  intros E. inversion E. exists evs, l. auto.
Qed.

(** C3 as first stated fails at a total of 0: the upstream reports 0 on
    every page and no page is constrained, ceil(0 / 50) is 0, yet page 0
    is requested. *)
Lemma C3_counterexample :
  (forall p, pageCount (Examples.steadyUpstream 0) p = Some 0%Z)
  /\ steady Examples.utc (Examples.steadyUpstream 0) 0
  /\ exists evs l,
       getRecentBookmarks Examples.utc (Examples.steadyUpstream 0) 101
       = Some (evs, inr l)
       /\ requests evs = [0]
       /\ length (requests evs) <> pagesFor 0.
Proof.
  split; [intros p; reflexivity|].
  split; [intros p Hp; change (pagesFor 0) with 0 in Hp; lia|].
  destruct (observe_returned
              (getRecentBookmarks Examples.utc (Examples.steadyUpstream 0) 101)
              [0] 0 (Some (Request 0)))
    as (evs & l & Hrun & Hreq & _); [vm_compute; reflexivity|].
  exists evs, l. split; [exact Hrun|]. split; [exact Hreq|].
  rewrite Hreq. vm_compute. discriminate.
Qed.

(** It also fails when an item does not convert: the upstream reports
    100 on every page and serves two full pages, but the first item has
    no identifier, so 99 records are held after page 1 and a third page
    is requested. *)
Lemma C3_fails_with_a_bad_item :
  (forall p, pageCount Examples.upstreamWithBadItem p = Some 100%Z)
  /\ (forall p, p < pagesFor 100 ->
        exists its, pageItems Examples.upstreamWithBadItem p = Some its
                    /\ length its = 50)
  /\ exists evs l,
       getRecentBookmarks Examples.utc Examples.upstreamWithBadItem 101
       = Some (evs, inr l)
       /\ requests evs = [0; 1; 2]
       /\ pagesFor 100 = 2.
Proof.
  split; [intros [|[|p]]; reflexivity|].
  split.
  - intros p Hp. change (pagesFor 100) with 2 in Hp.
    destruct p as [|[|p]]; [| |lia]; eexists; split; reflexivity.
  - destruct (observe_returned
                (getRecentBookmarks Examples.utc Examples.upstreamWithBadItem 101)
                [0; 1; 2] 99 (Some (Request 2)))
      as (evs & l & Hrun & Hreq & _); [vm_compute; reflexivity|].
    exists evs, l. split; [exact Hrun|]. split; [exact Hreq|]. reflexivity.
Qed.

(** And it fails above the safety limit: for a total of 5100 served 50
    at a time, ceil(5100 / 50) is 102 but 101 pages are requested. *)
Lemma C3_fails_beyond_the_limit :
  exists evs l,
    getRecentBookmarks Examples.utc (Examples.steadyUpstream (102 * 50)) 101
    = Some (evs, inr l)
    /\ length (requests evs) = 101
    /\ pagesFor 5100 = 102.
Proof.
  destruct (observe_returned
              (getRecentBookmarks Examples.utc (Examples.steadyUpstream (102 * 50)) 101)
              (seq 0 101) (101 * 50) (Some (ConsoleWarn MSG_PAGE_LIMIT)))
    as (evs & l & Hrun & Hreq & _); [vm_compute; reflexivity|].
  exists evs, l. split; [exact Hrun|].
  rewrite Hreq. split; reflexivity.
Qed.

(** Every call returns after at most 101 page requests. *)
Lemma getRecentBookmarks_terminates
  (h : Host) (upstream : Upstream) (fuel : nat) :
  101 <= fuel ->
  exists evs r,
    getRecentBookmarks h upstream fuel = Some (evs, r)
    /\ length (requests evs) <= 101.
Proof.
  intros Hfuel.
  destruct (getRecentBookmarks_trace h upstream fuel Hfuel) as
    (evs & r & n & Hrun & Hreq & Hle & _).
  exists evs, r. split; [exact Hrun|].
  rewrite Hreq, length_seq. lia.
Qed.

(** C4.  Against the upstream that always answers with a full page and
    an unreachable total, the loop is not stopped after 100 pages: it
    requests the 101 pages 0 to 100, returns 5050 records, and only then
    logs the warning that announces a limit of 100. *)
Theorem C4_safety_limit_lets_101_pages_through :
  exists evs l,
    getRecentBookmarks Examples.utc Examples.endlessUpstream 101
    = Some (evs, inr l)
    /\ requests evs = seq 0 101
    /\ length l = 101 * 50
    /\ last (map Some evs) None = Some (ConsoleWarn MSG_PAGE_LIMIT).
Proof.
  apply observe_returned. vm_compute. reflexivity.
Qed.

(* ================================================================== *)
(** ** Sorting and plain objects *)
(* ================================================================== *)

Section SortFacts.
Context {A : Type} (comparefn : A -> A -> Z).

Lemma insert_perm (x : A) (l : list A) :
  Permutation (JsArray.insert comparefn x l) (x :: l).
Proof.
  induction l as [|y r IH]; simpl; [reflexivity|].
  destruct (0 <? comparefn x y)%Z; [|reflexivity].
  rewrite IH. apply perm_swap.
Qed.

(** Sorting neither drops nor duplicates an element. *)
Lemma sort_perm (l : list A) : Permutation (JsArray.sort comparefn l) l.
Proof.
  induction l as [|x r IH]; simpl; [reflexivity|].
  rewrite insert_perm, IH. reflexivity.
Qed.

End SortFacts.

Lemma eqb_eq (s t : jsstring) : JsStr.eqb s t = true <-> s = t.
Proof.
  unfold JsStr.eqb. destruct (JsStr.eq_dec s t); split; congruence.
Qed.

Lemma eqb_refl (s : jsstring) : JsStr.eqb s s = true.
Proof. apply eqb_eq. reflexivity. Qed.

Lemma eqb_neq (s t : jsstring) : JsStr.eqb s t = false <-> s <> t.
Proof.
  unfold JsStr.eqb. destruct (JsStr.eq_dec s t); split; congruence.
Qed.

Lemma filter_split_perm {A : Type} (f : A -> bool) (l : list A) :
  Permutation (filter f l ++ filter (fun a => negb (f a)) l) l.
Proof.
  induction l as [|a l IH]; simpl; [reflexivity|].
  destruct (f a); simpl.
  - apply perm_skip. exact IH.
  - rewrite <- Permutation_middle. apply perm_skip. exact IH.
Qed.

Lemma concat_perm {A : Type} (l l' : list (list A)) :
  Permutation l l' -> Permutation (concat l) (concat l').
Proof.
  induction 1 as [|x l l' _ IH|x y l|l l' l'' _ IH1 _ IH2]; simpl.
  - reflexivity.
  - rewrite IH. reflexivity.
  - rewrite !app_assoc. apply Permutation_app_tail, Permutation_app_comm.
  - rewrite IH1. exact IH2.
Qed.

Lemma concat_map_perm {A B : Type} (f g : A -> list B) (l : list A) :
  (forall a, In a l -> Permutation (f a) (g a)) ->
  Permutation (concat (map f l)) (concat (map g l)).
Proof.
  induction l as [|a l IH]; intros Hfg; simpl; [reflexivity|].
  apply Permutation_app.
  - apply Hfg. left. reflexivity.
  - apply IH. intros a' Hin. apply Hfg. right. exact Hin.
Qed.

Section ObjectFacts.
Context {V : Type}.
Implicit Types (o : JsObject.t V) (k : jsstring) (v : V).

Lemma own_None o k : JsObject.own o k = None <-> ~ In k (map fst o).
Proof.
  induction o as [|[k' v'] r IH]; simpl.
  - tauto.
  - destruct (JsStr.eqb k k') eqn:E.
    + apply eqb_eq in E. subst k'. split; [discriminate|tauto].
    + apply eqb_neq in E. rewrite IH. split.
      * intros Hn [Heq|Hin]; [congruence|tauto].
      * tauto.
Qed.


Lemma In_own o k v : NoDup (map fst o) -> In (k, v) o -> JsObject.own o k = Some v.
Proof.
  induction o as [|[k' v'] r IH]; simpl; [tauto|].
  intros Hnd [Heq|Hin].
  - inversion Heq. subst. rewrite eqb_refl. reflexivity.
  - inversion Hnd as [|? ? Hnotin Hnd']. subst.
    destruct (JsStr.eqb k k') eqn:E.
    + apply eqb_eq in E. subst k'. exfalso. apply Hnotin.
      apply (in_map fst) in Hin. exact Hin.
    + apply IH; assumption.
Qed.

(** Writing a new name adds the property last. *)
Lemma write_new o k v :
  JsObject.own o k = None -> JsObject.write o k v = o ++ [(k, v)].
Proof.
  induction o as [|[k' v'] r IH]; simpl; [reflexivity|].
  destruct (JsStr.eqb k k'); [discriminate|].
  intros Hown. rewrite IH by assumption. reflexivity.
Qed.

(** Writing an existing name replaces the value where it stands. *)
Lemma write_old o k v v0 :
  JsObject.own o k = Some v0 ->
  exists o1 o2,
    o = o1 ++ (k, v0) :: o2
    /\ JsObject.write o k v = o1 ++ (k, v) :: o2.
Proof.
  induction o as [|[k' v'] r IH]; simpl; [discriminate|].
  destruct (JsStr.eqb k k') eqn:E.
  - apply eqb_eq in E. subst k'. intros H. inversion H. subst v'.
    exists [], r. auto.
  - intros Hown. destruct (IH Hown) as (o1 & o2 & -> & ->).
    exists ((k', v') :: o1), o2. auto.
Qed.

Lemma insertIndex_perm (e : N * (jsstring * V)) l :
  Permutation (JsObject.insertIndex e l) (e :: l).
Proof.
  induction l as [|e' r IH]; simpl; [reflexivity|].
  destruct (fst e <? fst e')%N; [reflexivity|].
  rewrite IH. apply perm_swap.
Qed.

Lemma indexEntries_perm o :
  Permutation (map snd (JsObject.indexEntries o))
    (filter (fun kv => JsObject.isArrayIndex (fst kv)) o).
Proof.
  induction o as [|[k v] r IH]; simpl; [reflexivity|].
  unfold JsObject.isArrayIndex at 1. simpl.
  destruct (JsObject.arrayIndex k) as [i|].
  - rewrite insertIndex_perm. simpl. apply perm_skip. exact IH.
  - exact IH.
Qed.

(** [Object.entries] enumerates every own property once. *)
Lemma entries_perm o : Permutation (JsObject.entries o) o.
Proof.
  unfold JsObject.entries. rewrite indexEntries_perm.
  apply filter_split_perm.
Qed.

(** Without integer-like names, enumeration order is creation order. *)
Lemma entries_no_index o :
  (forall k, In k (map fst o) -> JsObject.isArrayIndex k = false) ->
  JsObject.entries o = o.
Proof.
  intros Hno. unfold JsObject.entries.
  assert (Hidx : JsObject.indexEntries o = []).
  { induction o as [|[k v] r IH]; simpl; [reflexivity|].
    assert (Hk : JsObject.isArrayIndex k = false)
      by (apply Hno; left; reflexivity).
    unfold JsObject.isArrayIndex in Hk.
    destruct (JsObject.arrayIndex k); [discriminate|].
    apply IH. intros k' Hin. apply Hno. right. exact Hin. }
  rewrite Hidx. simpl.
  induction o as [|[k v] r IH]; simpl; [reflexivity|].
  rewrite (Hno k) by (left; reflexivity). simpl. f_equal.
  apply IH.
  - intros k' Hin. apply Hno. right. exact Hin.
  - simpl in Hidx. destruct (JsObject.arrayIndex k) as [i|] eqn:E.
    + assert (Hk : JsObject.isArrayIndex k = false)
        by (apply Hno; left; reflexivity).
      unfold JsObject.isArrayIndex in Hk. rewrite E in Hk. discriminate.
    + exact Hidx.
Qed.

End ObjectFacts.

(* ================================================================== *)
(** ** Grouping by folder *)
(* ================================================================== *)

Import EmailFormatter.

Section WriteFacts.
Context {V : Type}.
Implicit Types (o : JsObject.t V) (k : jsstring) (v : V).

Lemma own_write_same o k v : JsObject.own (JsObject.write o k v) k = Some v.
Proof.
  induction o as [|[k' v'] r IH]; simpl.
  - rewrite eqb_refl. reflexivity.
  - destruct (JsStr.eqb k k') eqn:E; simpl; rewrite E; auto.
Qed.

Lemma write_write_new o k v1 v2 :
  JsObject.own o k = None ->
  JsObject.write (JsObject.write o k v1) k v2 = o ++ [(k, v2)].
Proof.
  induction o as [|[k' v'] r IH]; simpl.
  - rewrite eqb_refl. reflexivity.
  - destruct (JsStr.eqb k k') eqn:E; [discriminate|].
    intros Hown. simpl. rewrite E, IH by assumption. reflexivity.
Qed.

End WriteFacts.

(** The two statements of the callback, by cases on the name. *)
Lemma addToGroup_spec (o : JsObject.t Group) (b : BookmarkModel.t) :
  addToGroup o b
  = match JsObject.own o (folderNameOf b) with
    | Some ms => inr (JsObject.write o (folderNameOf b) (ms ++ [b]))
    | None =>
      if JsObject.inherited (folderNameOf b)
      then inl (TypeError MSG_PUSH_NOT_FUNCTION)
      else inr (o ++ [(folderNameOf b, [b])])
    end.
Proof.
  unfold addToGroup, JsObject.read.
  destruct (JsObject.own o (folderNameOf b)) as [ms|] eqn:Hown.
  - rewrite Hown. reflexivity.
  - destruct (JsObject.inherited (folderNameOf b)).
    + rewrite Hown. reflexivity.
    + rewrite own_write_same. simpl. rewrite write_write_new by assumption.
      reflexivity.
Qed.

Lemma filter_inFolder_snoc k done b :
  filter (inFolder k) (done ++ [b])
  = filter (inFolder k) done
    ++ (if JsStr.eqb (folderNameOf b) k then [b] else []).
Proof. rewrite filter_app. reflexivity. Qed.

Lemma filter_none {A : Type} (f : A -> bool) (l : list A) :
  (forall a, In a l -> f a = false) -> filter f l = [].
Proof.
  induction l as [|a l IH]; intros Hf; simpl; [reflexivity|].
  rewrite (Hf a) by (left; reflexivity).
  apply IH. intros a' Hin. apply Hf. right. exact Hin.
Qed.

(** One more bookmark keeps the object a grouping. *)
Lemma addToGroup_Grouped o done b o' :
  Grouped o done -> addToGroup o b = inr o' -> Grouped o' (done ++ [b]).
Proof.
  intros (Hnd & Hmem & Hcov & Hperm). rewrite addToGroup_spec.
  set (k := folderNameOf b).
  destruct (JsObject.own o k) as [ms|] eqn:Hown.
  - (* the folder is already there *)
    intros E. inversion E; subst o'; clear E.
    destruct (write_old o k (ms ++ [b]) ms Hown) as (o1 & o2 & Ho & ->).
    subst o. rewrite map_app in Hnd. simpl in Hnd.
    split; [|split; [|split]].
    + rewrite map_app. simpl. exact Hnd.
    + intros k' ms' Hin. rewrite filter_inFolder_snoc. fold k.
      apply in_app_or in Hin. simpl in Hin.
      assert (Hother : In (k', ms') (o1 ++ o2) ->
                ms' = filter (inFolder k') done ++
                      (if JsStr.eqb k k' then [b] else [])
                /\ ms' <> [] /\ JsObject.inherited k' = false).
      { intros Hin'.
        assert (Hne : k <> k').
        { intros ->. apply NoDup_remove_2 in Hnd. apply Hnd.
          rewrite <- map_app. apply (in_map fst) in Hin'. exact Hin'. }
        apply eqb_neq in Hne. rewrite Hne, app_nil_r.
        apply Hmem. apply in_app_or in Hin'. apply in_or_app. simpl. tauto. }
      destruct Hin as [Hin|[Hin|Hin]].
      * apply Hother, in_or_app. auto.
      * inversion Hin; subst k' ms'. rewrite eqb_refl.
        destruct (Hmem k ms) as (-> & _ & Hinh);
          [apply in_or_app; simpl; auto|].
        split; [reflexivity|]. split; [|exact Hinh].
        intros Hnil. apply app_eq_nil in Hnil. destruct Hnil; discriminate.
      * apply Hother, in_or_app. auto.
    + intros b' Hin. rewrite map_app. simpl.
      apply in_app_or in Hin. destruct Hin as [Hin|[<-|[]]].
      * specialize (Hcov b' Hin). rewrite map_app in Hcov. exact Hcov.
      * apply in_or_app. simpl. auto.
    + rewrite map_app, concat_app in *. simpl in *.
      rewrite <- Hperm. repeat rewrite <- app_assoc.
      do 2 apply Permutation_app_head.
      apply Permutation_app_comm.
  - (* a new folder *)
    destruct (JsObject.inherited k) eqn:Hinh; [discriminate|].
    intros E. inversion E; subst o'; clear E.
    apply own_None in Hown.
    split; [|split; [|split]].
    + rewrite map_app. simpl.
      apply Permutation_NoDup with (l := k :: map fst o).
      * apply Permutation_cons_append.
      * constructor; assumption.
    + intros k' ms' Hin. rewrite filter_inFolder_snoc. fold k.
      apply in_app_or in Hin. destruct Hin as [Hin|[Hin|[]]].
      * assert (Hne : k <> k').
        { intros ->. apply Hown. apply (in_map fst) in Hin. exact Hin. }
        apply eqb_neq in Hne. rewrite Hne, app_nil_r. apply Hmem. exact Hin.
      * inversion Hin; subst k' ms'. rewrite eqb_refl.
        assert (Hnone : filter (inFolder k) done = []).
        { apply filter_none. intros b' Hb'. unfold inFolder.
          apply eqb_neq. intros Hk. apply Hown.
          rewrite <- Hk. apply Hcov. exact Hb'. }
        rewrite Hnone. split; [reflexivity|]. split; [discriminate|exact Hinh].
    + intros b' Hin. rewrite map_app. simpl.
      apply in_app_or in Hin. destruct Hin as [Hin|[<-|[]]].
      * apply in_or_app. left. apply Hcov. exact Hin.
      * apply in_or_app. simpl. auto.
    + rewrite map_app, concat_app. simpl.
      apply Permutation_app_tail. exact Hperm.
Qed.

Lemma Grouped_nil : Grouped [] [].
Proof.
  split; [constructor|]. split; [intros k ms []|].
  split; [intros b []|]. reflexivity.
Qed.

Lemma forEach_addToGroup_Grouped bs : forall o done o',
  Grouped o done -> forEach_addToGroup o bs = inr o' ->
  Grouped o' (done ++ bs).
Proof.
  induction bs as [|b bs IH]; intros o done o' Hg; simpl.
  - intros E. inversion E; subst. rewrite app_nil_r. exact Hg.
  - destruct (addToGroup o b) as [e|o1] eqn:Hstep; [discriminate|].
    intros Hrest.
    replace (done ++ b :: bs) with ((done ++ [b]) ++ bs)
      by (rewrite <- app_assoc; reflexivity).
    apply (IH o1); [|exact Hrest].
    apply (addToGroup_Grouped o done b o1 Hg Hstep).
Qed.

(** Grouping succeeds when no folder name is a member of
    [Object.prototype]. *)
Lemma forEach_addToGroup_succeeds bs : forall o done,
  Grouped o done ->
  (forall b, In b bs -> JsObject.inherited (folderNameOf b) = false) ->
  exists o', forEach_addToGroup o bs = inr o'.
Proof.
  induction bs as [|b bs IH]; intros o done Hg Hplain; simpl; [eauto|].
  assert (Hstep : exists o1, addToGroup o b = inr o1).
  { rewrite addToGroup_spec.
    destruct (JsObject.own o (folderNameOf b)); [eauto|].
    rewrite (Hplain b) by (left; reflexivity). eauto. }
  destruct Hstep as (o1 & Hstep). rewrite Hstep.
  apply (IH o1 (done ++ [b])).
  - apply (addToGroup_Grouped o done b o1 Hg Hstep).
  - intros b' Hin. apply Hplain. right. exact Hin.
Qed.

(** Grouping throws at the first bookmark whose folder name is a member
    of [Object.prototype]. *)
Lemma forEach_addToGroup_inherited (b : BookmarkModel.t) bs :
  JsObject.inherited (folderNameOf b) = true ->
  forEach_addToGroup [] (b :: bs) = inl (TypeError MSG_PUSH_NOT_FUNCTION).
Proof.
  intros Hinh. simpl. rewrite addToGroup_spec. simpl. rewrite Hinh.
  reflexivity.
Qed.

Section GroupFacts.
Context (h : Host).

Lemma fold_write_sorted (grouped : JsObject.t Group) bs names :
  forall acc,
    NoDup names ->
    (forall k, In k names ->
       JsObject.own grouped k = Some (filter (inFolder k) bs)) ->
    (forall k, In k names -> ~ In k (map fst acc)) ->
    fold_left
      (fun sortedGrouped folderName =>
         match JsObject.own grouped folderName with
         | Some members =>
           JsObject.write sortedGrouped folderName
             (JsArray.sort newestFirst members)
         | None => sortedGrouped
         end) names acc
    = acc ++ map (sorted_entry bs) names.
Proof.
  induction names as [|k names IH]; intros acc Hnd Hown Hfresh; simpl.
  - rewrite app_nil_r. reflexivity.
  - rewrite (Hown k) by (left; reflexivity).
    rewrite write_new
      by (apply own_None; apply Hfresh; left; reflexivity).
    inversion Hnd as [|? ? Hnotin Hnd']; subst.
    rewrite IH.
    + rewrite <- app_assoc. reflexivity.
    + exact Hnd'.
    + intros k' Hin. apply Hown. right. exact Hin.
    + intros k' Hin. rewrite map_app. simpl. intros Hin'.
      apply in_app_or in Hin'. destruct Hin' as [Hin'|[<-|[]]].
      * apply (Hfresh k'); [right; exact Hin|exact Hin'].
      * contradiction.
Qed.

(** What [#groupBookmarksByFolder] returns: one property per folder
    name, written in the order the names were sorted in, holding the
    bookmarks of that folder sorted newest first. *)
Lemma groupBookmarksByFolder_spec bs g :
  groupBookmarksByFolder h bs = inr g ->
  exists grouped,
    forEach_addToGroup [] bs = inr grouped
    /\ Grouped grouped bs
    /\ g = map (sorted_entry bs)
             (JsArray.sort (localeCompare_ja h) (JsObject.keys grouped)).
Proof.
  unfold groupBookmarksByFolder.
  destruct (forEach_addToGroup [] bs) as [e|grouped] eqn:Hgroup;
    [discriminate|].
  intros E. inversion E; subst g; clear E.
  exists grouped. split; [reflexivity|].
  assert (Hg : Grouped grouped bs)
    by (apply (forEach_addToGroup_Grouped bs [] [] grouped Grouped_nil Hgroup)).
  split; [exact Hg|].
  destruct Hg as (Hnd & Hmem & _ & _).
  assert (Hnames : Permutation
                     (JsArray.sort (localeCompare_ja h) (JsObject.keys grouped))
                     (map fst grouped)).
  { rewrite sort_perm. unfold JsObject.keys.
    apply Permutation_map, entries_perm. }
  rewrite fold_write_sorted with (bs := bs); [reflexivity| | |].
  - apply (Permutation_NoDup (Permutation_sym Hnames) Hnd).
  - intros k Hin. apply (Permutation_in _ Hnames) in Hin.
    apply in_map_iff in Hin. destruct Hin as ([k' ms] & <- & Hin). simpl.
    rewrite (In_own grouped k' ms Hnd Hin).
    destruct (Hmem k' ms Hin) as (-> & _). reflexivity.
  - intros k _ [].
Qed.

(** The sections of the digest: distinct folder names, each with its
    bookmarks newest first, every bookmark in exactly one section. *)
Lemma groupBookmarksByFolder_entries bs g :
  groupBookmarksByFolder h bs = inr g ->
  NoDup (map fst (JsObject.entries g))
  /\ (forall k ms, In (k, ms) (JsObject.entries g) ->
        ms = JsArray.sort newestFirst (filter (inFolder k) bs)
        /\ ms <> [] /\ JsObject.inherited k = false)
  /\ (forall b, In b bs ->
        In (folderNameOf b) (map fst (JsObject.entries g)))
  /\ Permutation (concat (map snd (JsObject.entries g))) bs.
Proof.
  intros Hg.
  destruct (groupBookmarksByFolder_spec bs g Hg) as
    (grouped & _ & (Hnd & Hmem & Hcov & Hperm) & ->).
  set (names := JsArray.sort (localeCompare_ja h) (JsObject.keys grouped)).
  assert (Hnames : Permutation names (map fst grouped)).
  { unfold names. rewrite sort_perm. unfold JsObject.keys.
    apply Permutation_map, entries_perm. }
  assert (Hfst : map fst (map (sorted_entry bs) names) = names).
  { rewrite map_map. simpl. apply map_id. }
  pose proof (entries_perm (map (sorted_entry bs) names)) as Hent.
  split; [|split; [|split]].
  - apply Permutation_NoDup with (l := map fst (map (sorted_entry bs) names)).
    + apply Permutation_sym, Permutation_map, Hent.
    + rewrite Hfst. apply (Permutation_NoDup (Permutation_sym Hnames) Hnd).
  - intros k ms Hin. apply (Permutation_in _ Hent) in Hin.
    apply in_map_iff in Hin. destruct Hin as (k' & E & Hin).
    inversion E; subst k' ms; clear E.
    apply (Permutation_in _ Hnames) in Hin.
    apply in_map_iff in Hin. destruct Hin as ([k' ms0] & E & Hin).
    simpl in E. subst k'.
    destruct (Hmem k ms0 Hin) as (Hms & Hne & Hinh).
    split; [reflexivity|]. split; [|exact Hinh].
    intros Hnil. apply Hne. rewrite Hms.
    apply Permutation_nil. rewrite <- Hnil. apply sort_perm.
  - intros b Hin.
    apply (Permutation_in _ (Permutation_sym (Permutation_map fst Hent))).
    rewrite Hfst.
    apply (Permutation_in _ (Permutation_sym Hnames)), Hcov, Hin.
  - rewrite (concat_perm _ _ (Permutation_map snd Hent)).
    rewrite map_map. simpl.
    rewrite (concat_perm _ _
               (Permutation_map
                  (fun k => JsArray.sort newestFirst (filter (inFolder k) bs))
                  Hnames)).
    rewrite map_map. rewrite <- Hperm.
    apply concat_map_perm. intros [k ms] Hin. simpl.
    destruct (Hmem k ms Hin) as (<- & _). apply sort_perm.
Qed.

(** Grouping returns when no folder name is a member of
    [Object.prototype]. *)
Lemma groupBookmarksByFolder_succeeds bs :
  (forall b, In b bs -> JsObject.inherited (folderNameOf b) = false) ->
  exists g, groupBookmarksByFolder h bs = inr g.
Proof.
  intros Hplain. unfold groupBookmarksByFolder.
  destruct (forEach_addToGroup_succeeds bs [] [] Grouped_nil Hplain)
    as (grouped & ->).
  eauto.
Qed.

End GroupFacts.

(* ================================================================== *)
(** ** Rendering *)
(* ================================================================== *)

Lemma formatFolderSection_spec (k : jsstring) (ms : Group) :
  formatFolderSection k ms
  = H4 ++ k ++ concat (map (fun b => LF :: formatSingleBookmark b) ms).
Proof.
  unfold formatFolderSection.
  assert (Hfold : forall acc,
            fold_left
              (fun section bookmark =>
                 section ++ [LF] ++ formatSingleBookmark bookmark) ms acc
            = acc ++ concat (map (fun b => LF :: formatSingleBookmark b) ms)).
  { induction ms as [|b ms IH]; intros acc; simpl.
    - rewrite app_nil_r. reflexivity.
    - rewrite IH, <- app_assoc. reflexivity. }
  rewrite Hfold, <- app_assoc. reflexivity.
Qed.

(** The body of a non-empty digest: the optional header, then the
    sections joined by blank lines. *)
Lemma formatBookmarksToEmailBody_spec (h : Host) b bs opts :
  formatBookmarksToEmailBody h (Some (b :: bs)) opts
  = match groupBookmarksByFolder h (b :: bs) with
    | inl e => inl e
    | inr g =>
      inr ((if includeHeader opts
            then formatHeader (length (b :: bs)) (dateRange opts) ++ [LF; LF]
            else [])
           ++ join [LF; LF]
                (map (fun e => formatFolderSection (fst e) (snd e))
                     (JsObject.entries g)))
    end.
Proof. reflexivity. Qed.

Section StarFacts.

Lemma stars_app (a b : jsstring) : stars (a ++ b) = stars a + stars b.
Proof. unfold stars. apply count_occ_app. Qed.

Lemma stars_uint_digits (d : Decimal.uint) : stars (uint_digits d) = 0.
Proof. induction d; simpl; auto. Qed.

Lemma stars_Number_toString (z : Z) : stars (Number_toString z) = 0.
Proof.
  unfold Number_toString. destruct (z <? 0)%Z.
  - change (45%N :: ?l) with ([45%N] ++ l). rewrite stars_app.
    rewrite stars_uint_digits. reflexivity.
  - apply stars_uint_digits.
Qed.

Lemma stars_folderNameOf (b : BookmarkModel.t) :
  stars (folder b) = 0 -> stars (folderNameOf b) = 0.
Proof.
  unfold folderNameOf. destruct (folder b); [reflexivity|auto].
Qed.

(** The marks on a bookmark line: those of its title and link, and one
    more when the bookmark is a favourite. *)
Lemma stars_formatSingleBookmark (b : BookmarkModel.t) :
  stars (formatSingleBookmark b)
  = stars (title b) + stars (url b) + (if isFavorite b then 1 else 0).
Proof.
  unfold formatSingleBookmark.
  destruct (isFavorite b); rewrite !stars_app;
    change (stars (js "* ")) with 0;
    change (stars [QUOTE]) with 0;
    change (stars (js ":")) with 0;
    try change (stars FAVORITE_MARK) with 1; lia.
Qed.

Lemma stars_concat_map {A : Type} (f : A -> jsstring) (l : list A) :
  stars (concat (map f l)) = list_sum (map (fun a => stars (f a)) l).
Proof.
  induction l as [|a l IH]; simpl; [reflexivity|].
  rewrite stars_app, IH. reflexivity.
Qed.

Lemma stars_join (l : list jsstring) :
  stars (join [LF; LF] l) = list_sum (map stars l).
Proof.
  induction l as [|x l IH]; [reflexivity|].
  destruct l as [|y r]; [simpl; lia|].
  change (join [LF; LF] (x :: y :: r))
    with (x ++ [LF; LF] ++ join [LF; LF] (y :: r)).
  rewrite !stars_app, IH. reflexivity.
Qed.

Lemma list_sum_perm (l l' : list nat) :
  Permutation l l' -> list_sum l = list_sum l'.
Proof.
  induction 1; simpl; lia.
Qed.

Lemma list_sum_concat (l : list (list nat)) :
  list_sum (concat l) = list_sum (map list_sum l).
Proof.
  induction l as [|x l IH]; simpl; [reflexivity|].
  rewrite list_sum_app, IH. reflexivity.
Qed.

Lemma favourites_sum (bs : list BookmarkModel.t) :
  list_sum (map (fun b => if isFavorite b then 1 else 0) bs)
  = length (filter isFavorite bs).
Proof.
  induction bs as [|b bs IH]; simpl; [reflexivity|].
  destruct (isFavorite b); simpl; rewrite IH; reflexivity.
Qed.

Lemma stars_given (r : option jsstring) :
  (forall s, r = Some s -> stars s = 0) ->
  stars (match given r with
         | Some s => DIGEST_TITLE ++ js " (" ++ s ++ js ")"
         | None => DIGEST_TITLE
         end) = 0.
Proof.
  intros Hr. unfold given. destruct r as [[|c s]|]; try reflexivity.
  rewrite !stars_app, (Hr (c :: s) eq_refl). reflexivity.
Qed.

Lemma stars_formatHeader (n : nat) (r : option jsstring) :
  (forall s, r = Some s -> stars s = 0) ->
  stars (formatHeader n r) = 0.
Proof.
  intros Hr. unfold formatHeader.
  rewrite !stars_app, stars_given, stars_Number_toString by assumption.
  reflexivity.
Qed.

Lemma stars_formatEmptyMessage (r : option jsstring) :
  (forall s, r = Some s -> stars s = 0) ->
  stars (formatEmptyMessage r) = 0.
Proof.
  intros Hr. unfold formatEmptyMessage.
  rewrite !stars_app, stars_given by assumption. reflexivity.
Qed.

End StarFacts.

(** The marks in the sections are those of the bookmark lines. *)
Lemma stars_sections (h : Host) (bs : list BookmarkModel.t) g :
  groupBookmarksByFolder h bs = inr g ->
  (forall b, In b bs -> stars (folder b) = 0) ->
  stars (join [LF; LF]
           (map (fun e => formatFolderSection (fst e) (snd e))
                (JsObject.entries g)))
  = list_sum (map (fun b => stars (formatSingleBookmark b)) bs).
Proof.
  intros Hg Hfolder.
  destruct (groupBookmarksByFolder_entries h bs g Hg) as
    (_ & Hmem & _ & Hperm).
  rewrite stars_join, map_map.
  rewrite <- (list_sum_perm _ _
                (Permutation_map
                   (fun b => stars (formatSingleBookmark b)) Hperm)).
  rewrite concat_map, list_sum_concat, !map_map.
  f_equal. apply map_ext_in. intros [k ms] Hin. simpl.
  rewrite formatFolderSection_spec, !stars_app, stars_concat_map.
  change (stars H4) with 0.
  assert (Hk : stars k = 0).
  { destruct (Hmem k ms Hin) as (Hms & Hne & _).
    destruct ms as [|b0 ms']; [contradiction|].
    assert (Hb0 : In b0 (filter (inFolder k) bs)).
    { apply (Permutation_in b0 (sort_perm newestFirst _)).
      rewrite <- Hms. left. reflexivity. }
    apply filter_In in Hb0. destruct Hb0 as [Hb0 Hname].
    apply eqb_eq in Hname. rewrite <- Hname.
    apply stars_folderNameOf, Hfolder, Hb0. }
  rewrite Hk. simpl. f_equal.
Qed.

(** C8 (amended).  A favourite renders as [* "Title":URL], one space and
    the token [%{color: red}★%]; any other record renders as
    [* "Title":URL] alone; and when neither the titles, links and
    folders of the records nor the date-range label contain the mark,
    the body contains exactly one mark per favourite record, so the mark
    occurs nowhere but in those tokens. *)
Theorem C8_favourite_mark_only_on_favourites
  (h : Host) (bs : list BookmarkModel.t) (opts : Options) :
  (forall b, isFavorite b = true ->
     formatSingleBookmark b
     = js "* " ++ [QUOTE] ++ title b ++ [QUOTE] ++ js ":" ++ url b
       ++ js " " ++ js "%{color: red}★%")
  /\ (forall b, isFavorite b = false ->
        formatSingleBookmark b
        = js "* " ++ [QUOTE] ++ title b ++ [QUOTE] ++ js ":" ++ url b)
  /\ (forall body,
        (forall b, In b bs ->
           stars (title b) = 0 /\ stars (url b) = 0 /\ stars (folder b) = 0) ->
        (forall r, dateRange opts = Some r -> stars r = 0) ->
        formatBookmarksToEmailBody h (Some bs) opts = inr body ->
        stars body = length (filter isFavorite bs)).
Proof.
  split; [|split].
  - intros b Hfav. unfold formatSingleBookmark. rewrite Hfav.
    rewrite <- !app_assoc. reflexivity.
  - intros b Hfav. unfold formatSingleBookmark. rewrite Hfav. reflexivity.
  - intros body Hclean Hrange.
    destruct bs as [|b bs'].
    + simpl. intros E. inversion E.
      apply stars_formatEmptyMessage. exact Hrange.
    + rewrite formatBookmarksToEmailBody_spec.
      destruct (groupBookmarksByFolder h (b :: bs')) as [e|g] eqn:Hg;
        [discriminate|].
      intros E. inversion E; subst body; clear E.
      rewrite stars_app.
      rewrite (stars_sections h (b :: bs') g Hg)
        by (intros b' Hin; apply Hclean; exact Hin).
      match goal with
      | |- stars ?head + _ = _ => assert (Hhead : stars head = 0)
      end.
      { destruct (includeHeader opts); [|reflexivity].
        rewrite stars_app, stars_formatHeader by exact Hrange. reflexivity. }
      rewrite Hhead, Nat.add_0_l.
      rewrite <- favourites_sum. f_equal.
      apply map_ext_in. intros b' Hin.
      rewrite stars_formatSingleBookmark.
      destruct (Hclean b' Hin) as (-> & -> & _). reflexivity.
Qed.

(** C8 on two records of folder [tech], the first a favourite: the body
    holds one mark. *)
Lemma C8_witness :
  let bs := [Examples.record 1 "A" "tech" true 2;
             Examples.record 2 "B" "tech" false 1] in
  (forall b, In b bs ->
     stars (title b) = 0 /\ stars (url b) = 0 /\ stars (folder b) = 0)
  /\ (forall r, dateRange defaultOptions = Some r -> stars r = 0)
  /\ exists body,
       formatBookmarksToEmailBody Examples.utc (Some bs) defaultOptions
       = inr body
       /\ stars body = 1.
Proof.
  cbv zeta.
  assert (Hclean : forall b,
            In b [Examples.record 1 "A" "tech" true 2;
                  Examples.record 2 "B" "tech" false 1] ->
            stars (title b) = 0 /\ stars (url b) = 0 /\ stars (folder b) = 0).
  { intros b [<-|[<-|[]]]; repeat split; reflexivity. }
  assert (Hrange : forall r, dateRange defaultOptions = Some r -> stars r = 0).
  { intros r E. discriminate. }
  split; [exact Hclean|]. split; [exact Hrange|].
  destruct (formatBookmarksToEmailBody Examples.utc
              (Some [Examples.record 1 "A" "tech" true 2;
                     Examples.record 2 "B" "tech" false 1]) defaultOptions)
    as [e|body] eqn:Hbody; [vm_compute in Hbody; discriminate|].
  exists body. split; [reflexivity|].
  apply (proj2 (proj2 (C8_favourite_mark_only_on_favourites Examples.utc
                         [Examples.record 1 "A" "tech" true 2;
                          Examples.record 2 "B" "tech" false 1]
                         defaultOptions)) body Hclean Hrange Hbody).
Defined.

(** C8 as first stated fails: with the date-range label [★] the body of
    a single record that is no favourite, and whose title, link and
    folder are free of the mark, contains the mark. *)
Lemma C8_counterexample :
  let b := Examples.record 1 "A" "tech" false 1 in
  let opts := {| dateRange := Some (js "★"); includeHeader := true |} in
  isFavorite b = false
  /\ stars (title b) = 0 /\ stars (url b) = 0 /\ stars (folder b) = 0
  /\ exists body,
       formatBookmarksToEmailBody Examples.utc (Some [b]) opts = inr body
       /\ stars body = 1.
Proof.
  cbv zeta. repeat (split; [reflexivity|]).
  eexists. split; vm_compute; reflexivity.
Qed.

(** C7.  With one record in folder [10] and one in folder [9], the
    section of [9] is rendered before the section of [10] whatever the
    collation says, and in particular when it puts [10] before [9]:
    [Object.entries] lists integer-like names first, in numeric order,
    and so undoes the sort by [localeCompare]. *)
Theorem C7_integer_like_folders_ignore_collation (h : Host) :
  (localeCompare_ja h (js "10") (js "9") < 0)%Z ->
  exists body i j,
    formatBookmarksToEmailBody h
      (Some [Examples.record 1 "A" "10" false 2;
             Examples.record 2 "B" "9" false 1]) defaultOptions
    = inr body
    /\ indexOf (H4 ++ js "9") body = Some i
    /\ indexOf (H4 ++ js "10") body = Some j
    /\ i < j.
Proof.
  intros _. eexists. exists 41, 75.
  split; [|split; [|split]].
  - rewrite formatBookmarksToEmailBody_spec.
    unfold groupBookmarksByFolder.
    assert (Hgrouped :
              forEach_addToGroup []
                [Examples.record 1 "A" "10" false 2;
                 Examples.record 2 "B" "9" false 1]
              = inr [(js "10", [Examples.record 1 "A" "10" false 2]);
                     (js "9", [Examples.record 2 "B" "9" false 1])])
      by (vm_compute; reflexivity).
    rewrite Hgrouped. cbv beta iota zeta.
    match goal with
    | |- context [@JsObject.keys ?V ?o] =>
      assert (Hkeys : @JsObject.keys V o = [js "9"; js "10"])
        by (vm_compute; reflexivity);
      rewrite Hkeys
    end.
    cbn [JsArray.sort JsArray.insert].
    destruct (0 <? localeCompare_ja h (js "9") (js "10"))%Z;
      vm_compute; reflexivity.
  - vm_compute. reflexivity.
  - vm_compute. reflexivity.
  - lia.
Qed.

(** C7 with comparison by code units as the collation: it puts [10]
    before [9]. *)
Lemma C7_witness :
  (localeCompare_ja Examples.utc (js "10") (js "9") < 0)%Z
  /\ exists body i j,
       formatBookmarksToEmailBody Examples.utc
         (Some [Examples.record 1 "A" "10" false 2;
                Examples.record 2 "B" "9" false 1]) defaultOptions
       = inr body
       /\ indexOf (H4 ++ js "9") body = Some i
       /\ indexOf (H4 ++ js "10") body = Some j
       /\ i < j.
Proof.
  assert (Hcmp : (localeCompare_ja Examples.utc (js "10") (js "9") < 0)%Z)
    by (vm_compute; reflexivity).
  split; [exact Hcmp|].
  apply (C7_integer_like_folders_ignore_collation Examples.utc Hcmp).
Defined.

(* ================================================================== *)
(** ** The lines of the body *)
(* ================================================================== *)

Section LineFacts.

Lemma lines_not_nil (s : jsstring) : lines s <> [].
Proof.
  destruct s as [|c r]; simpl; [discriminate|].
  destruct (c =? LF)%N; [discriminate|].
  destruct (lines r); discriminate.
Qed.

(** A line feed ends a line. *)
Lemma lines_app_LF (a b : jsstring) :
  lines (a ++ LF :: b) = lines a ++ lines b.
Proof.
  induction a as [|c a IH]; simpl.
  - reflexivity.
  - destruct (c =? LF)%N; [rewrite IH; reflexivity|].
    rewrite IH. destruct (lines a) as [|l ls] eqn:Ha.
    + exfalso. apply (lines_not_nil a Ha).
    + reflexivity.
Qed.

Lemma lines_one (s : jsstring) : noLineFeed s -> lines s = [s].
Proof.
  unfold noLineFeed. induction s as [|c s IH]; intros Hno; simpl.
  - reflexivity.
  - destruct (c =? LF)%N eqn:E.
    + apply N.eqb_eq in E. exfalso. apply Hno. left. auto.
    + rewrite IH; [reflexivity|]. intros Hin. apply Hno. right. exact Hin.
Qed.

Lemma noLineFeed_app (a b : jsstring) :
  noLineFeed a -> noLineFeed b -> noLineFeed (a ++ b).
Proof.
  unfold noLineFeed. intros Ha Hb Hin. apply in_app_or in Hin. tauto.
Qed.

Lemma noLineFeed_uint_digits (d : Decimal.uint) : noLineFeed (uint_digits d).
Proof.
  unfold noLineFeed.
  induction d; simpl; intros Hin; try tauto;
    destruct Hin as [E|Hin]; try discriminate; tauto.
Qed.

Lemma noLineFeed_Number_toString (z : Z) : noLineFeed (Number_toString z).
Proof.
  unfold Number_toString. destruct (z <? 0)%Z.
  - intros [E|Hin]; [discriminate|].
    apply (noLineFeed_uint_digits _ Hin).
  - apply noLineFeed_uint_digits.
Qed.

(** A check by computation that a literal holds no line feed. *)
Lemma noLineFeed_check (s : jsstring) :
  forallb (fun c => negb (c =? LF)%N) s = true -> noLineFeed s.
Proof.
  rewrite forallb_forall. intros Hall Hin. specialize (Hall LF Hin).
  rewrite N.eqb_refl in Hall. discriminate.
Qed.

Lemma noLineFeed_formatSingleBookmark (b : BookmarkModel.t) :
  noLineFeed (title b) -> noLineFeed (url b) ->
  noLineFeed (formatSingleBookmark b).
Proof.
  intros Ht Hu. unfold formatSingleBookmark.
  assert (Hline : noLineFeed
                    (js "* " ++ [QUOTE] ++ title b ++ [QUOTE] ++ js ":"
                     ++ url b)).
  { repeat apply noLineFeed_app; try assumption;
      apply noLineFeed_check; reflexivity. }
  destruct (isFavorite b); [|exact Hline].
  apply noLineFeed_app; [exact Hline|].
  apply noLineFeed_check. reflexivity.
Qed.

Lemma noLineFeed_folderNameOf (b : BookmarkModel.t) :
  noLineFeed (folder b) -> noLineFeed (folderNameOf b).
Proof.
  unfold folderNameOf. destruct (folder b); [|auto].
  intros _. apply noLineFeed_check. reflexivity.
Qed.

(** The lines of a section: its heading, then one line per bookmark. *)
Lemma lines_section (k : jsstring) (ms : Group) :
  noLineFeed k ->
  (forall b, In b ms -> noLineFeed (formatSingleBookmark b)) ->
  lines (formatFolderSection k ms)
  = (H4 ++ k) :: map formatSingleBookmark ms.
Proof.
  intros Hk Hms. rewrite formatFolderSection_spec, app_assoc.
  assert (Hhead : noLineFeed (H4 ++ k)).
  { apply noLineFeed_app; [apply noLineFeed_check; reflexivity|exact Hk]. }
  generalize dependent (H4 ++ k). clear Hk.
  induction ms as [|b ms IH]; intros p Hp; simpl.
  - rewrite app_nil_r. apply lines_one. exact Hp.
  - rewrite lines_app_LF, (lines_one p Hp). simpl. f_equal.
    apply IH.
    + intros b' Hin. apply Hms. right. exact Hin.
    + apply Hms. left. reflexivity.
Qed.

Lemma lines_join (l : list jsstring) (f : jsstring -> bool) :
  f [] = false -> l <> [] ->
  filter f (lines (join [LF; LF] l))
  = concat (map (fun s => filter f (lines s)) l).
Proof.
  intros Hf. induction l as [|x l IH]; intros Hne; [contradiction|].
  destruct l as [|y r].
  - simpl. rewrite app_nil_r. reflexivity.
  - specialize (IH ltac:(discriminate)).
    change (join [LF; LF] (x :: y :: r))
      with (x ++ LF :: LF :: join [LF; LF] (y :: r)).
    set (rest := join [LF; LF] (y :: r)) in *.
    rewrite lines_app_LF, filter_app.
    change (lines (LF :: rest)) with ([] :: lines rest).
    cbn [filter]. rewrite Hf, IH. reflexivity.
Qed.

(** The header contributes no line that starts like a heading or like a
    bookmark line. *)
Lemma lines_header (f : jsstring -> bool) (n : nat) (r : option jsstring)
  (rest : jsstring) :
  f [] = false ->
  (forall x, f (DIGEST_TITLE ++ x) = false) ->
  (forall x, f (TOTAL_PREFIX ++ x) = false) ->
  (forall s, r = Some s -> noLineFeed s) ->
  filter f (lines ((formatHeader n r ++ [LF; LF]) ++ rest))
  = filter f (lines rest).
Proof.
  intros Hnil Htitle Htotal Hr. unfold formatHeader.
  set (head := match given r with
               | Some s => DIGEST_TITLE ++ js " (" ++ s ++ js ")"
               | None => DIGEST_TITLE
               end).
  set (total := TOTAL_PREFIX ++ Number_toString (Z.of_nat n) ++ TOTAL_SUFFIX).
  assert (Hhead : noLineFeed head /\ f head = false).
  { unfold head, given. destruct r as [[|c s]|].
    - split; [apply noLineFeed_check; reflexivity|].
      rewrite <- (app_nil_r DIGEST_TITLE). apply Htitle.
    - split; [|apply Htitle].
      repeat apply noLineFeed_app;
        try (apply noLineFeed_check; reflexivity).
      apply Hr. reflexivity.
    - split; [apply noLineFeed_check; reflexivity|].
      rewrite <- (app_nil_r DIGEST_TITLE). apply Htitle. }
  assert (Htot : noLineFeed total).
  { unfold total. repeat apply noLineFeed_app;
      try (apply noLineFeed_check; reflexivity).
    apply noLineFeed_Number_toString. }
  destruct Hhead as [Hhead Hfhead].
  assert (Hftot : f total = false) by (unfold total; apply Htotal).
  clearbody head total.
  assert (E : ((head ++ [LF; LF] ++ total) ++ [LF; LF]) ++ rest
              = head ++ LF :: ([] ++ LF :: (total ++ LF :: ([] ++ LF :: rest))))
    by (repeat rewrite <- app_assoc; reflexivity).
  rewrite E, !lines_app_LF, (lines_one head Hhead), (lines_one total Htot).
  change (lines []) with [@nil N].
  cbn [app filter]. rewrite Hfhead, Hnil, Hftot. reflexivity.
Qed.

End LineFacts.

Lemma filter_all {A : Type} (f : A -> bool) (l : list A) :
  (forall a, In a l -> f a = true) -> filter f l = l.
Proof.
  induction l as [|a l IH]; intros Hf; simpl; [reflexivity|].
  rewrite (Hf a) by (left; reflexivity). f_equal.
  apply IH. intros a' Hin. apply Hf. right. exact Hin.
Qed.

Lemma NoDup_map_injective {A B : Type} (f : A -> B) (l : list A) :
  (forall a a', f a = f a' -> a = a') -> NoDup l -> NoDup (map f l).
Proof.
  intros Hinj. induction 1 as [|a l Hnotin _ IH]; simpl; constructor.
  - intros Hin. apply in_map_iff in Hin. destruct Hin as (a' & E & Hin).
    apply Hinj in E. subst a'. contradiction.
  - exact IH.
Qed.

Lemma isBookmarkLine_formatSingleBookmark (b : BookmarkModel.t) :
  isBookmarkLine (formatSingleBookmark b) = true
  /\ isHeadingLine (formatSingleBookmark b) = false.
Proof.
  unfold formatSingleBookmark. destruct (isFavorite b); split; reflexivity.
Qed.

Lemma isHeadingLine_heading (k : jsstring) :
  isHeadingLine (H4 ++ k) = true /\ isBookmarkLine (H4 ++ k) = false.
Proof. split; reflexivity. Qed.

(** The bookmark lines and the heading lines of a body, section by
    section. *)
Lemma lines_of_body (h : Host) (bs : list BookmarkModel.t) (opts : Options)
  g body :
  bs <> [] ->
  (forall b, In b bs ->
     noLineFeed (title b) /\ noLineFeed (url b) /\ noLineFeed (folder b)) ->
  (forall r, dateRange opts = Some r -> noLineFeed r) ->
  groupBookmarksByFolder h bs = inr g ->
  formatBookmarksToEmailBody h (Some bs) opts = inr body ->
  filter isBookmarkLine (lines body)
  = map formatSingleBookmark (concat (map snd (JsObject.entries g)))
  /\ filter isHeadingLine (lines body)
     = map (fun e => H4 ++ fst e) (JsObject.entries g).
Proof.
  intros Hne Hclean Hrange Hg.
  destruct (groupBookmarksByFolder_entries h bs g Hg) as
    (_ & Hmem & Hcov & Hperm).
  destruct bs as [|b0 bs']; [contradiction|].
  rewrite formatBookmarksToEmailBody_spec, Hg.
  intros E. inversion E; subst body; clear E.
  set (es := JsObject.entries g) in *.
  set (sections := map (fun e => formatFolderSection (fst e) (snd e)) es).
  assert (Hes : sections <> []).
  { unfold sections. destruct es as [|e es'] eqn:Hes; [|discriminate].
    exfalso. apply (Hcov b0). left. reflexivity. }
  assert (Hsec : forall e, In e es ->
            lines (formatFolderSection (fst e) (snd e))
            = (H4 ++ fst e) :: map formatSingleBookmark (snd e)).
  { intros [k ms] Hin. simpl.
    assert (Hin_bs : forall b, In b ms -> In b (b0 :: bs')).
    { intros b Hb. apply (Permutation_in b Hperm).
      apply in_concat. exists ms. split; [|exact Hb].
      apply (in_map snd) in Hin. exact Hin. }
    apply lines_section.
    - destruct (Hmem k ms Hin) as (Hms & Hnil & _).
      destruct ms as [|b1 ms']; [contradiction|].
      assert (Hb1 : In b1 (filter (inFolder k) (b0 :: bs'))).
      { apply (Permutation_in b1 (sort_perm newestFirst _)).
        rewrite <- Hms. left. reflexivity. }
      apply filter_In in Hb1. destruct Hb1 as [Hb1 Hname].
      apply eqb_eq in Hname. rewrite <- Hname.
      apply noLineFeed_folderNameOf. apply (Hclean b1 Hb1).
    - intros b Hb. specialize (Hclean b (Hin_bs b Hb)).
      apply noLineFeed_formatSingleBookmark; tauto. }
  assert (Hbody : forall f : jsstring -> bool,
            f [] = false ->
            (forall x, f (DIGEST_TITLE ++ x) = false) ->
            (forall x, f (TOTAL_PREFIX ++ x) = false) ->
            filter f
              (lines
                 ((if includeHeader opts
                   then formatHeader (length (b0 :: bs')) (dateRange opts)
                          ++ [LF; LF]
                   else []) ++ join [LF; LF] sections))
            = concat
                (map (fun e =>
                        filter f
                          ((H4 ++ fst e) :: map formatSingleBookmark (snd e)))
                     es)).
  { intros f Hnil Htitle Htotal.
    assert (Hjoin : filter f (lines (join [LF; LF] sections))
                    = concat
                        (map (fun e =>
                                filter f
                                  ((H4 ++ fst e)
                                     :: map formatSingleBookmark (snd e)))
                             es)).
    { rewrite (lines_join sections f Hnil Hes). unfold sections.
      rewrite map_map. f_equal. apply map_ext_in. intros e Hin.
      rewrite (Hsec e Hin). reflexivity. }
    destruct (includeHeader opts).
    - rewrite lines_header by assumption. exact Hjoin.
    - exact Hjoin. }
  split.
  - rewrite Hbody by reflexivity.
    rewrite concat_map, map_map. f_equal. apply map_ext. intros [k ms].
    cbn [fst snd filter].
    rewrite (proj2 (isHeadingLine_heading k)).
    apply filter_all. intros l Hl. apply in_map_iff in Hl.
    destruct Hl as (b & <- & _).
    apply isBookmarkLine_formatSingleBookmark.
  - rewrite Hbody by reflexivity.
    rewrite <- (flat_map_concat_map _ es).
    rewrite (flat_map_ext _ (fun e => [H4 ++ fst e]));
      [rewrite flat_map_concat_map; clear; induction es; simpl;
       [reflexivity|f_equal; assumption]|].
    intros [k ms]. cbn [fst snd filter].
    rewrite (proj1 (isHeadingLine_heading k)). f_equal.
    apply filter_none. intros l Hl. apply in_map_iff in Hl.
    destruct Hl as (b & <- & _).
    apply isBookmarkLine_formatSingleBookmark.
Qed.

(** C10 (amended).  For a non-empty list of records whose titles, links
    and folders hold no line feed and whose folder names are not members
    of [Object.prototype], and a date-range label without line feed, the
    body is produced; its bookmark lines are the lines of the input
    records, one each; and its heading lines are pairwise distinct and
    are exactly the headings [h4. name] for the names [folder || '未分類']
    of the records. *)
Theorem C10_one_line_per_record_one_heading_per_folder
  (h : Host) (bs : list BookmarkModel.t) (opts : Options) :
  bs <> [] ->
  (forall b, In b bs ->
     noLineFeed (title b) /\ noLineFeed (url b) /\ noLineFeed (folder b)) ->
  (forall b, In b bs -> JsObject.inherited (folderNameOf b) = false) ->
  (forall r, dateRange opts = Some r -> noLineFeed r) ->
  exists body,
    formatBookmarksToEmailBody h (Some bs) opts = inr body
    /\ Permutation (filter isBookmarkLine (lines body))
         (map formatSingleBookmark bs)
    /\ NoDup (filter isHeadingLine (lines body))
    /\ (forall l,
          In l (filter isHeadingLine (lines body))
          <-> exists b, In b bs /\ l = H4 ++ folderNameOf b).
Proof.
  intros Hne Hclean Hplain Hrange.
  destruct (groupBookmarksByFolder_succeeds h bs Hplain) as (g & Hg).
  assert (Hbody : exists body,
            formatBookmarksToEmailBody h (Some bs) opts = inr body).
  { destruct bs as [|b0 bs']; [contradiction|].
    rewrite formatBookmarksToEmailBody_spec, Hg. eauto. }
  destruct Hbody as (body & Hbody). exists body.
  split; [exact Hbody|].
  destruct (lines_of_body h bs opts g body Hne Hclean Hrange Hg Hbody)
    as (-> & ->).
  destruct (groupBookmarksByFolder_entries h bs g Hg) as
    (Hnd & Hmem & Hcov & Hperm).
  split; [apply Permutation_map; exact Hperm|]. split.
  - rewrite <- (map_map fst (fun k => H4 ++ k)).
    apply NoDup_map_injective; [|exact Hnd].
    intros k k' E. apply app_inv_head in E. exact E.
  - intros l. rewrite in_map_iff. split.
    + intros ([k ms] & <- & Hin). simpl.
      destruct (Hmem k ms Hin) as (Hms & Hnil & _).
      destruct ms as [|b1 ms']; [contradiction|].
      assert (Hb1 : In b1 (filter (inFolder k) bs)).
      { apply (Permutation_in b1 (sort_perm newestFirst _)).
        rewrite <- Hms. left. reflexivity. }
      apply filter_In in Hb1. destruct Hb1 as [Hb1 Hname].
      apply eqb_eq in Hname. exists b1. rewrite Hname. auto.
    + intros (b & Hb & ->). specialize (Hcov b Hb).
      apply in_map_iff in Hcov. destruct Hcov as (e & <- & Hin).
      exists e. auto.
Qed.

(** C10 on three records in two folders. *)
Lemma C10_witness :
  let bs := [Examples.record 1 "A" "tech" true 2;
             Examples.record 2 "B" "news" false 1;
             Examples.record 3 "C" "tech" false 3] in
  bs <> []
  /\ (forall b, In b bs ->
        noLineFeed (title b) /\ noLineFeed (url b) /\ noLineFeed (folder b))
  /\ (forall b, In b bs -> JsObject.inherited (folderNameOf b) = false)
  /\ (forall r, dateRange defaultOptions = Some r -> noLineFeed r)
  /\ exists body,
       formatBookmarksToEmailBody Examples.utc (Some bs) defaultOptions
       = inr body
       /\ Permutation (filter isBookmarkLine (lines body))
            (map formatSingleBookmark bs)
       /\ NoDup (filter isHeadingLine (lines body))
       /\ (forall l,
             In l (filter isHeadingLine (lines body))
             <-> exists b, In b bs /\ l = H4 ++ folderNameOf b).
Proof.
  cbv zeta.
  assert (Hne : [Examples.record 1 "A" "tech" true 2;
                 Examples.record 2 "B" "news" false 1;
                 Examples.record 3 "C" "tech" false 3] <> [])
    by discriminate.
  assert (Hclean : forall b,
            In b [Examples.record 1 "A" "tech" true 2;
                  Examples.record 2 "B" "news" false 1;
                  Examples.record 3 "C" "tech" false 3] ->
            noLineFeed (title b) /\ noLineFeed (url b)
            /\ noLineFeed (folder b)).
  { intros b [<-|[<-|[<-|[]]]]; repeat split;
      apply noLineFeed_check; reflexivity. }
  assert (Hplain : forall b,
            In b [Examples.record 1 "A" "tech" true 2;
                  Examples.record 2 "B" "news" false 1;
                  Examples.record 3 "C" "tech" false 3] ->
            JsObject.inherited (folderNameOf b) = false).
  { intros b [<-|[<-|[<-|[]]]]; reflexivity. }
  assert (Hrange : forall r,
            dateRange defaultOptions = Some r -> noLineFeed r)
    by (intros r E; discriminate).
  split; [exact Hne|]. split; [exact Hclean|]. split; [exact Hplain|].
  split; [exact Hrange|].
  apply (C10_one_line_per_record_one_heading_per_folder
           Examples.utc _ defaultOptions Hne Hclean Hplain Hrange).
Defined.

(** C10 as first stated fails: the folder value of a record whose
    folder is the empty string appears in no heading line; the record is
    filed under the placeholder. *)
Lemma C10_counterexample :
  let b := Examples.record 1 "A" "" false 1 in
  exists body,
    formatBookmarksToEmailBody Examples.utc (Some [b]) defaultOptions
    = inr body
    /\ ~ In (H4 ++ folder b) (lines body)
    /\ filter isHeadingLine (lines body) = [H4 ++ UNSORTED].
Proof.
  cbv zeta. eexists. split; [vm_compute; reflexivity|].
  split; [|vm_compute; reflexivity].
  vm_compute. intros H.
  repeat (destruct H as [H|H]; [discriminate H|]). exact H.
Qed.

(** It also fails when a title holds a line feed: one record, two lines
    that start like a bookmark line. *)
Lemma C10_fails_with_a_line_feed :
  let b := {| id := 1; title := js "A" ++ [LF] ++ js "* " ++ [QUOTE];
              url := js "https://example.com/"; folder := js "tech";
              isFavorite := false; createdAt := 1 |} in
  exists body,
    formatBookmarksToEmailBody Examples.utc (Some [b]) defaultOptions
    = inr body
    /\ length (filter isBookmarkLine (lines body)) = 2.
Proof.
  cbv zeta. eexists. split; vm_compute; reflexivity.
Qed.

(** A folder named like a member of [Object.prototype] makes
    [formatBookmarksToEmailBody] throw: [grouped[folderName]] finds the
    inherited member, no array is created, and [push] is not a function
    of what was found. *)
Lemma prototype_folder_name_throws (h : Host) (opts : Options)
  (b : BookmarkModel.t) (bs : list BookmarkModel.t) :
  JsObject.inherited (folderNameOf b) = true ->
  formatBookmarksToEmailBody h (Some (b :: bs)) opts
  = inl (TypeError MSG_PUSH_NOT_FUNCTION).
Proof.
  intros Hinh. rewrite formatBookmarksToEmailBody_spec.
  unfold groupBookmarksByFolder.
  rewrite (forEach_addToGroup_inherited b bs Hinh). reflexivity.
Qed.

Lemma constructor_folder_throws (h : Host) :
  formatBookmarksToEmailBody h
    (Some [Examples.record 1 "A" "constructor" false 1]) defaultOptions
  = inl (TypeError MSG_PUSH_NOT_FUNCTION).
Proof. apply prototype_folder_name_throws. reflexivity. Qed.

(* ================================================================== *)
(** ** The subject line *)
(* ================================================================== *)

Section DateFacts.

Local Open Scope Z_scope.

(** Months run from 1 to 12 and days of the month from 1 to 31. *)
Lemma civil_bounds (day : Z) :
  1 <= snd (fst (civil day)) <= 12 /\ 1 <= snd (civil day) <= 31.
Proof.
  unfold civil. cbv zeta. cbn [fst snd].
  destruct (Z.ltb _ 10) eqn:E;
    [apply Z.ltb_lt in E | apply Z.ltb_ge in E];
    Z.to_euclidean_division_equations; lia.
Qed.

(** The year of [civil] is ECMAScript's [YearFromTime]. *)
Lemma civil_year (day : Z) :
  DayFromYear (fst (fst (civil day))) <= day
  < DayFromYear (fst (fst (civil day)) + 1).
Proof.
  unfold civil, DayFromYear. cbv zeta. cbn [fst snd].
  destruct (Z.ltb _ 10) eqn:E1; destruct (Z.leb _ 2) eqn:E2;
    try apply Z.ltb_lt in E1; try apply Z.ltb_ge in E1;
    try apply Z.leb_le in E2; try apply Z.leb_gt in E2;
    Z.to_euclidean_division_equations; lia.
Qed.

Lemma DaysInYear_diff (y : Z) :
  DayFromYear (y + 1) - DayFromYear y = DaysInYear y.
Proof.
  unfold DayFromYear, DaysInYear.
  destruct (Z.eqb_spec (y mod 4) 0); destruct (Z.eqb_spec (y mod 100) 0);
    destruct (Z.eqb_spec (y mod 400) 0); cbn [negb];
    Z.to_euclidean_division_equations; lia.
Qed.

(** The day number of the first of March of a year, counted in eras of
    400 years. *)
Lemma march_first (era yoe : Z) :
  0 <= yoe <= 399 ->
  era * 146097 + (365 * yoe + yoe / 4 - yoe / 100) - 719468
  = DayFromYear (yoe + era * 400 + 1) - 306.
Proof.
  intros H. unfold DayFromYear. Z.to_euclidean_division_equations; lia.
Qed.

Lemma year_of_era (doe : Z) :
  0 <= doe < 146097 ->
  let yoe := (doe - doe / 1460 + doe / 36524 - doe / 146096) / 365 in
  let doy := doe - (365 * yoe + yoe / 4 - yoe / 100) in
  0 <= yoe <= 399 /\ 0 <= doy <= 365.
Proof.
  intros H. cbv zeta. Z.to_euclidean_division_equations; lia.
Qed.

Lemma year_of_era_next (doe : Z) :
  0 <= doe < 146097 ->
  let yoe := (doe - doe / 1460 + doe / 36524 - doe / 146096) / 365 in
  yoe < 399 -> doe < 365 * (yoe + 1) + (yoe + 1) / 4 - (yoe + 1) / 100.
Proof.
  intros H. cbv zeta. intros Hy.
  Z.to_euclidean_division_equations; lia.
Qed.

(** The year that runs from March to February in which a day falls. *)
Lemma march_year (day : Z) :
  let z := day + 719468 in
  let era := z / 146097 in
  let doe := z - era * 146097 in
  let yoe := (doe - doe / 1460 + doe / 36524 - doe / 146096) / 365 in
  let doy := doe - (365 * yoe + yoe / 4 - yoe / 100) in
  0 <= yoe <= 399 /\ 0 <= doy <= 365
  /\ day - doy = DayFromYear (yoe + era * 400 + 1) - 306
  /\ day < DayFromYear (yoe + era * 400 + 2) - 306.
Proof.
  cbv zeta.
  set (era := (day + 719468) / 146097).
  set (doe := day + 719468 - era * 146097).
  assert (Hdoe : 0 <= doe < 146097).
  { unfold doe, era. Z.to_euclidean_division_equations; lia. }
  pose proof (year_of_era doe Hdoe) as Hb.
  pose proof (year_of_era_next doe Hdoe) as Hn.
  cbv zeta in Hb, Hn.
  set (yoe := (doe - doe / 1460 + doe / 36524 - doe / 146096) / 365) in *.
  destruct Hb as [Hyoe Hdoy].
  pose proof (march_first era yoe Hyoe) as Hmar.
  assert (Hday : day = era * 146097 + doe - 719468) by (unfold doe; lia).
  clearbody doe era yoe.
  split; [exact Hyoe|]. split; [exact Hdoy|]. split; [lia|].
  destruct (Z.eq_dec yoe 399) as [->|Hne].
  - pose proof (march_first (era + 1) 0 ltac:(lia)) as Hmar'.
    replace (0 + (era + 1) * 400 + 1) with (399 + era * 400 + 2) in Hmar'
      by lia.
    change (0 / 4) with 0 in Hmar'. change (0 / 100) with 0 in Hmar'.
    lia.
  - pose proof (march_first era (yoe + 1) ltac:(lia)) as Hmar'.
    replace (yoe + 1 + era * 400 + 1) with (yoe + era * 400 + 2) in Hmar'
      by lia.
    specialize (Hn ltac:(lia)). lia.
Qed.

(** The month and the day of the month read off the day of the
    March-based year agree with ECMAScript's tables. *)
Lemma month_table (L doy : Z) :
  0 <= L <= 1 -> 0 <= doy <= 365 ->
  let mp := (5 * doy + 2) / 153 in
  let d := doy - (153 * mp + 2) / 5 + 1 in
  (mp < 10 -> MonthFromDay L (doy + 59 + L) = mp + 2
              /\ DateFromDay L (doy + 59 + L) = d)
  /\ (10 <= mp -> doy - 306 < 59 + L ->
        MonthFromDay L (doy - 306) = mp - 10
        /\ DateFromDay L (doy - 306) = d).
Proof.
  intros HL Hdoy. cbv zeta.
  assert (Hcases : exists mp,
            (5 * doy + 2) / 153 = mp
            /\ 153 * mp <= 5 * doy + 2 < 153 * mp + 153 /\ 0 <= mp <= 11).
  { eexists. split; [reflexivity|].
    Z.to_euclidean_division_equations; lia. }
  destruct Hcases as (mp & -> & Hr & Hb).
  assert (Hmp : mp = 0 \/ mp = 1 \/ mp = 2 \/ mp = 3 \/ mp = 4 \/ mp = 5
                \/ mp = 6 \/ mp = 7 \/ mp = 8 \/ mp = 9 \/ mp = 10
                \/ mp = 11) by lia.
  unfold DateFromDay, MonthFromDay.
  repeat (destruct Hmp as [->|Hmp]); try subst mp;
    (split; [intros Hlt | intros Hge Hfeb]; try lia;
     repeat match goal with
            | |- context [Z.ltb ?a ?b] => destruct (Z.ltb_spec a b); try lia
            end; cbn; split; try lia).
Qed.

(** The month and the day of the month of [civil] are ECMAScript's
    [MonthFromTime] (plus one) and [DateFromTime]. *)
Lemma civil_calendar (day : Z) :
  let y := fst (fst (civil day)) in
  let dwy := day - DayFromYear y in
  let L := DaysInYear y - 365 in
  snd (fst (civil day)) = MonthFromDay L dwy + 1
  /\ snd (civil day) = DateFromDay L dwy.
Proof.
  pose proof (march_year day) as Hm. revert Hm.
  unfold civil. cbv zeta. cbn [fst snd].
  set (era := (day + 719468) / 146097).
  set (doe := day + 719468 - era * 146097).
  set (yoe := (doe - doe / 1460 + doe / 36524 - doe / 146096) / 365).
  set (doy := doe - (365 * yoe + yoe / 4 - yoe / 100)).
  intros (Hyoe & Hdoy & Hmar & Hnext).
  pose proof (DaysInYear_diff (yoe + era * 400)) as Hlen0.
  pose proof (DaysInYear_diff (yoe + era * 400 + 1)) as Hlen1.
  replace (yoe + era * 400 + 1 + 1) with (yoe + era * 400 + 2) in Hlen1
    by lia.
  assert (HL : forall y, 0 <= DaysInYear y - 365 <= 1).
  { intros y. unfold DaysInYear.
    destruct (negb _); [lia|]. destruct (negb _); [lia|].
    destruct (negb _); lia. }
  pose proof (month_table (DaysInYear (yoe + era * 400) - 365) doy
                (HL _) Hdoy) as [Hlate _].
  pose proof (month_table (DaysInYear (yoe + era * 400 + 1) - 365) doy
                (HL _) Hdoy) as [_ Hearly].
  cbv zeta in Hlate, Hearly.
  clearbody doy yoe era. clear doe.
  destruct (Z.ltb_spec ((5 * doy + 2) / 153) 10) as [Hlt|Hge].
  - destruct (Z.leb_spec ((5 * doy + 2) / 153 + 3) 2) as [Habs|_].
    + exfalso. Z.to_euclidean_division_equations; lia.
    + replace (yoe + era * 400 + 0) with (yoe + era * 400) by lia.
      replace (day - DayFromYear (yoe + era * 400))
        with (doy + 59 + (DaysInYear (yoe + era * 400) - 365)) by lia.
      destruct (Hlate Hlt) as [-> ->]. split; lia.
  - destruct (Z.leb_spec ((5 * doy + 2) / 153 - 9) 2) as [_|Habs].
    + replace (day - DayFromYear (yoe + era * 400 + 1))
        with (doy - 306) by lia.
      destruct (Hearly Hge ltac:(lia)) as [-> ->]. split; lia.
    + exfalso. Z.to_euclidean_division_equations; lia.
Qed.

Lemma civil_examples :
  civil 0 = (1970, 1, 1)
  /\ civil (-1) = (1969, 12, 31)
  /\ civil 11016 = (2000, 2, 29)
  /\ civil 11017 = (2000, 3, 1)
  /\ civil (-25509) = (1900, 2, 28)
  /\ civil (-25508) = (1900, 3, 1)
  /\ civil 19782 = (2024, 2, 29)
  /\ civil 19787 = (2024, 3, 5)
  /\ civil 20088 = (2024, 12, 31)
  /\ civil 20089 = (2025, 1, 1).
Proof. repeat split; reflexivity. Qed.

(** Checking a property of every integer of a range by computation. *)
Lemma range_check (P : Z -> bool) (lo : Z) (n : nat) :
  forallb (fun k => P (lo + Z.of_nat k)) (seq 0 n) = true ->
  forall z, lo <= z < lo + Z.of_nat n -> P z = true.
Proof.
  rewrite forallb_forall. intros Hall z Hz.
  replace z with (lo + Z.of_nat (Z.to_nat (z - lo))) by lia.
  apply Hall. apply in_seq. lia.
Qed.

(** [padStart(2, '0')] of a number below 100 gives its two digits. *)
Lemma padStart_twoDigits (n : Z) :
  0 <= n <= 99 ->
  padStart 2 (js "0") (Number_toString n) = twoDigits n.
Proof.
  intros Hn.
  apply eqb_eq.
  apply (range_check
           (fun z => JsStr.eqb (padStart 2 (js "0") (Number_toString z))
                       (twoDigits z)) 0 100);
    [vm_compute; reflexivity | lia].
Qed.

(** A year from 1000 to 9999 prints as four digits. *)
Lemma year_four_digits (y : Z) :
  1000 <= y <= 9999 -> length (Number_toString y) = 4%nat.
Proof.
  intros Hy.
  apply Nat.eqb_eq.
  apply (range_check
           (fun z => Nat.eqb (length (Number_toString z)) 4)
           1000 (9 * 1000));
    [vm_compute; reflexivity | lia].
Qed.

End DateFacts.

(** C9 (amended).  [generateEmailSubject] returns the fixed prefix
    followed by one date, that of the end date when given and of the
    clock otherwise, taken in the local time zone of the host: the year
    in decimal (four digits from 1000 to 9999), a slash, the month as
    two digits, a slash, the day of the month as two digits.  For
    2024-03-05T10:00:00Z the date reads 2024/03/05 when the local time
    zone is between UTC-10:00 and UTC+13:59, UTC included. *)
Theorem C9_subject_carries_the_local_date
  (h : Host) (startDate endDate : option Z) :
  let target := match endDate with Some e => e | None => Date_now h end in
  let y := getFullYear h target in
  let m := (getMonth h target + 1)%Z in
  let d := getDate h target in
  generateEmailSubject h startDate endDate
  = SUBJECT_PREFIX ++ Number_toString y ++ js "/" ++ twoDigits m
    ++ js "/" ++ twoDigits d
  /\ (1 <= m <= 12)%Z /\ (1 <= d <= 31)%Z
  /\ ((1000 <= y <= 9999)%Z -> length (Number_toString y) = 4)
  /\ ((-36000000 <= LocalTZA h Examples.t_2024_03_05_10h < 50400000)%Z ->
      generateEmailSubject h None (Some Examples.t_2024_03_05_10h)
      = SUBJECT_PREFIX ++ js "2024/03/05").
Proof.
  cbv zeta.
  set (target := match endDate with Some e => e | None => Date_now h end).
  pose proof (civil_bounds (localTime h target / msPerDay)) as [Hm Hd].
  assert (Hmonth : (1 <= getMonth h target + 1 <= 12)%Z)
    by (unfold getMonth; lia).
  assert (Hday : (1 <= getDate h target <= 31)%Z) by exact Hd.
  split; [|split; [exact Hmonth|split; [exact Hday|split]]].
  - unfold generateEmailSubject. fold target.
    rewrite !padStart_twoDigits by lia. reflexivity.
  - apply year_four_digits.
  - intros Htz. unfold generateEmailSubject, getFullYear, getMonth, getDate.
    assert (Hdayno : (localTime h Examples.t_2024_03_05_10h / msPerDay
                      = 19787)%Z).
    { unfold localTime, msPerDay, Examples.t_2024_03_05_10h in *.
      symmetry. apply (Z.div_unique _ _ _
                         (36000000 + LocalTZA h 1709632800000)); lia. }
    rewrite Hdayno. vm_compute. reflexivity.
Qed.

(** C9 in UTC: the subject for 2024-03-05T10:00:00Z. *)
Lemma C9_witness :
  (-36000000 <= LocalTZA Examples.utc Examples.t_2024_03_05_10h < 50400000)%Z
  /\ generateEmailSubject Examples.utc None (Some Examples.t_2024_03_05_10h)
     = SUBJECT_PREFIX ++ js "2024/03/05".
Proof.
  assert (Htz : (-36000000
                 <= LocalTZA Examples.utc Examples.t_2024_03_05_10h
                 < 50400000)%Z) by (simpl; lia).
  split; [exact Htz|].
  apply (proj2 (proj2 (proj2 (proj2
           (C9_subject_carries_the_local_date Examples.utc None None)))) Htz).
Defined.

(** C9 as first stated fails: on a host in the time zone UTC+14:00 the
    subject for 2024-03-05T10:00:00Z carries 2024/03/06. *)
Lemma C9_counterexample :
  generateEmailSubject (Examples.host 50400000) None
    (Some Examples.t_2024_03_05_10h)
  = SUBJECT_PREFIX ++ js "2024/03/06"
  /\ generateEmailSubject (Examples.host 50400000) None
       (Some Examples.t_2024_03_05_10h)
     <> SUBJECT_PREFIX ++ js "2024/03/05".
Proof.
  split; [vm_compute; reflexivity|].
  vm_compute. discriminate.
Qed.

(* ================================================================== *)
(** ** Order of the sections and of their lines *)
(* ================================================================== *)

Section OrderFacts.

Lemma Forall_insert {A : Type} (cmp : A -> A -> Z) (P : A -> Prop) x l :
  P x -> Forall P l -> Forall P (JsArray.insert cmp x l).
Proof.
  intros Hx Hl.
  apply (Permutation_Forall (Permutation_sym (insert_perm cmp x l))).
  constructor; assumption.
Qed.

(** Within a section the lines run from the newest record to the
    oldest. *)
Lemma sort_newestFirst_sorted (l : list BookmarkModel.t) :
  StronglySorted (fun a b => (createdAt b <= createdAt a)%Z)
    (JsArray.sort newestFirst l).
Proof.
  induction l as [|x l IH]; simpl; [constructor|].
  induction IH as [|y r Hr IHr Hy]; simpl.
  - constructor; constructor.
  - unfold newestFirst at 1.
    destruct (0 <? createdAt y - createdAt x)%Z eqn:E.
    + apply Z.ltb_lt in E. constructor; [exact IHr|].
      apply Forall_insert; [lia|exact Hy].
    + apply Z.ltb_ge in E. constructor.
      * constructor; assumption.
      * constructor; [lia|].
        eapply Forall_impl; [|exact Hy]. simpl. intros b Hb. lia.
Qed.

(** Records created at the same instant keep their relative order: the
    sort is stable. *)
Lemma sort_newestFirst_stable (l : list BookmarkModel.t) (t : Z) :
  filter (fun b => (createdAt b =? t)%Z) (JsArray.sort newestFirst l)
  = filter (fun b => (createdAt b =? t)%Z) l.
Proof.
  assert (Hins : forall x r,
            filter (fun b => (createdAt b =? t)%Z)
              (JsArray.insert newestFirst x r)
            = filter (fun b => (createdAt b =? t)%Z) (x :: r)).
  { intros x r. induction r as [|y r IH]; [reflexivity|].
    simpl JsArray.insert. unfold newestFirst at 1.
    destruct (0 <? createdAt y - createdAt x)%Z eqn:E; [|reflexivity].
    apply Z.ltb_lt in E. simpl filter in *. rewrite IH.
    destruct (createdAt x =? t)%Z eqn:Ex; [|reflexivity].
    apply Z.eqb_eq in Ex.
    assert (Ey : (createdAt y =? t)%Z = false) by (apply Z.eqb_neq; lia).
    rewrite Ey. reflexivity. }
  induction l as [|x l IH]; [reflexivity|].
  simpl JsArray.sort. rewrite Hins. simpl. rewrite IH. reflexivity.
Qed.

(** Sorting by a comparator that never puts two names each strictly
    after the other leaves every name not after its successor. *)
Lemma sort_sorted {A : Type} (cmp : A -> A -> Z) (l : list A) :
  (forall a b, (0 < cmp a b)%Z -> (cmp b a <= 0)%Z) ->
  Sorted (fun a b => (cmp a b <= 0)%Z) (JsArray.sort cmp l).
Proof.
  intros Hanti.
  assert (Hins : forall x r,
            Sorted (fun a b => (cmp a b <= 0)%Z) r ->
            Sorted (fun a b => (cmp a b <= 0)%Z) (JsArray.insert cmp x r)).
  { intros x r Hr. induction Hr as [|y r Hr IHr Hy]; simpl.
    - repeat constructor.
    - destruct (0 <? cmp x y)%Z eqn:E.
      + apply Z.ltb_lt in E. constructor; [exact IHr|].
        destruct r as [|z r']; simpl.
        * constructor. apply Hanti. exact E.
        * destruct (0 <? cmp x z)%Z.
          -- constructor. inversion Hy. assumption.
          -- constructor. apply Hanti. exact E.
      + apply Z.ltb_ge in E. constructor.
        * constructor; assumption.
        * constructor. exact E. }
  induction l as [|x l IH]; simpl; [constructor|].
  apply Hins. exact IH.
Qed.

Context (h : Host).

(** The lines of a section: the records of the folder, newest first,
    ties in input order. *)
Lemma section_lines_newest_first bs g k ms :
  groupBookmarksByFolder h bs = inr g ->
  In (k, ms) (JsObject.entries g) ->
  Permutation ms (filter (inFolder k) bs)
  /\ StronglySorted (fun a b => (createdAt b <= createdAt a)%Z) ms
  /\ (forall t,
        filter (fun b => (createdAt b =? t)%Z) ms
        = filter (fun b => (createdAt b =? t)%Z) (filter (inFolder k) bs)).
Proof.
  intros Hg Hin.
  destruct (groupBookmarksByFolder_entries h bs g Hg) as (_ & Hmem & _).
  destruct (Hmem k ms Hin) as (-> & _).
  split; [apply sort_perm|]. split.
  - apply sort_newestFirst_sorted.
  - intros t. apply sort_newestFirst_stable.
Qed.

(** When no folder name is integer-like, the sections come in the order
    the collation sorted the names in. *)
Lemma sections_follow_collation bs g :
  (forall a b, (0 < localeCompare_ja h a b)%Z ->
               (localeCompare_ja h b a <= 0)%Z) ->
  (forall b, In b bs -> JsObject.isArrayIndex (folderNameOf b) = false) ->
  groupBookmarksByFolder h bs = inr g ->
  Sorted (fun a b => (localeCompare_ja h a b <= 0)%Z)
    (map fst (JsObject.entries g)).
Proof.
  intros Hanti Hplain Hg.
  destruct (groupBookmarksByFolder_spec h bs g Hg) as
    (grouped & _ & (Hnd & Hmem & _ & _) & ->).
  set (names := JsArray.sort (localeCompare_ja h) (JsObject.keys grouped)).
  assert (Hfst : map fst (map (sorted_entry bs) names) = names).
  { rewrite map_map. simpl. apply map_id. }
  rewrite entries_no_index.
  - rewrite Hfst. apply sort_sorted. exact Hanti.
  - rewrite Hfst. intros k Hk.
    apply (Permutation_in k (sort_perm _ _)) in Hk.
    unfold JsObject.keys in Hk.
    apply (Permutation_in k (Permutation_map fst (entries_perm grouped)))
      in Hk.
    apply in_map_iff in Hk. destruct Hk as ([k' ms] & <- & Hin). simpl.
    destruct (Hmem k' ms Hin) as (Hms & Hne & _).
    destruct ms as [|b ms']; [contradiction|].
    assert (Hb : In b (filter (inFolder k') bs))
      by (rewrite <- Hms; left; reflexivity).
    apply filter_In in Hb. destruct Hb as [Hb Hname].
    apply eqb_eq in Hname. rewrite <- Hname. apply Hplain. exact Hb.
Qed.

End OrderFacts.

(** A call returns the same whatever fuel it is given beyond 101. *)
Lemma getRecentBookmarks_fuel (h : Host) (upstream : Upstream) (fuel : nat) :
  101 <= fuel ->
  getRecentBookmarks h upstream fuel = getRecentBookmarks h upstream 101.
Proof.
  intros Hfuel.
  destruct (getRecentBookmarks_terminates h upstream 101 (le_n _))
    as (evs & r & Hrun & _).
  rewrite Hrun. unfold getRecentBookmarks in *.
  apply (while_mono h upstream 101 fuel init (evs, r) Hrun Hfuel).
Qed.

(* ================================================================== *)
(** ** The constructor, its inverse and the validator *)
(* ================================================================== *)

Section ModelFacts.
Context (h : Host).

(** The data whose fields have the types of an instance are the plain
    objects of the instances. *)
Lemma typed_toPlainObject (d : Data) (b : BookmarkModel.t) :
  typed d = Some b <-> d = BookmarkMethods.toPlainObject b.
Proof.
  split.
  - intros Hty. apply typed_fields in Hty.
    destruct Hty as (H1 & H2 & H3 & H4 & H5 & H6).
    destruct d as [di dt du df dv dc]. simpl in *. subst.
    reflexivity.
  - intros ->. destruct b; reflexivity.
Qed.

(** What [validate] finds wrong with the plain object of a record: a
    zero identifier, an empty link, a link the URL parser refuses. *)
Lemma validate_toPlainObject (b : BookmarkModel.t) :
  validate h (BookmarkMethods.toPlainObject b)
  = (if (id b =? 0)%Z then [MSG_ID] else [])
    ++ (match url b with [] => [MSG_URL] | _ :: _ => [] end)
    ++ (match url b with
        | [] => []
        | _ :: _ => if URL_parses h (url b) then [] else [MSG_URL_FORMAT]
        end).
Proof.
  unfold validate. simpl.
  destruct (id b =? 0)%Z; destruct (url b) as [|c r]; reflexivity.
Qed.

Lemma new_iff (d : Data) (b : BookmarkModel.t) :
  new h d = inr b
  <-> d = BookmarkMethods.toPlainObject b
      /\ id b <> 0%Z /\ url b <> [] /\ URL_parses h (url b) = true.
Proof.
  split.
  - intros Hnew. apply new_inr in Hnew. destruct Hnew as [Hv Hty].
    apply typed_toPlainObject in Hty. subst d.
    rewrite validate_toPlainObject in Hv.
    split; [reflexivity|].
    destruct (Z.eqb_spec (id b) 0); [discriminate|].
    destruct (url b) as [|c r]; [discriminate|].
    destruct (URL_parses h (c :: r)); [|discriminate].
    repeat split; [assumption|discriminate].
  - intros (-> & Hid & Hurl & Hparse).
    unfold new. rewrite validate_toPlainObject.
    rewrite (proj2 (typed_toPlainObject _ b) eq_refl).
    apply Z.eqb_neq in Hid. rewrite Hid, Hparse.
    destruct (url b) as [|c r]; [contradiction|]. reflexivity.
Qed.



End ModelFacts.

(** X1.  The constructor returns exactly on the data whose six fields
    are those of a record (a number, three strings, a boolean and a
    valid Date) with a non-zero identifier and a non-empty link that the
    URL parser accepts; the instance then carries the fields
    unchanged. *)
Theorem constructor_accepts_exactly_the_well_formed_data
  (h : Host) (d : Data) (b : BookmarkModel.t) :
  new h d = inr b
  <-> d_id d = JNum (id b) /\ id b <> 0%Z
      /\ d_title d = JStr (title b)
      /\ d_url d = JStr (url b) /\ url b <> []
      /\ URL_parses h (url b) = true
      /\ d_folder d = JStr (folder b)
      /\ d_isFavorite d = JBool (isFavorite b)
      /\ d_createdAt d = IsDate (Some (createdAt b)).
Proof.
  rewrite new_iff. split.
  - intros (-> & Hid & Hurl & Hparse). simpl. tauto.
  - intros (H1 & Hid & H2 & H3 & Hurl & Hparse & H4 & H5 & H6).
    split; [|tauto].
    destruct d as [di dt du df dv dc]. simpl in *. subst. reflexivity.
Qed.

(** X2.  [toPlainObject] undoes the constructor: the plain object of a
    constructed instance is the data it was constructed from, and
    constructing from it again gives the same instance. *)
Theorem toPlainObject_round_trip
  (h : Host) (d : Data) (b : BookmarkModel.t) :
  new h d = inr b ->
  BookmarkMethods.toPlainObject b = d
  /\ new h (BookmarkMethods.toPlainObject b) = inr b.
Proof.
  intros Hnew. pose proof Hnew as Hd.
  apply new_iff in Hd. destruct Hd as (-> & _).
  split; [reflexivity|exact Hnew].
Qed.

Lemma toPlainObject_round_trip_witness :
  let d := {| d_id := JNum 7; d_title := JStr (js "A");
              d_url := JStr (js "https://example.com/");
              d_folder := JStr (js "tech"); d_isFavorite := JBool true;
              d_createdAt := IsDate (Some 1%Z) |} in
  let b := Examples.record 7 "A" "tech" true 1 in
  new Examples.utc d = inr b
  /\ BookmarkMethods.toPlainObject b = d
  /\ new Examples.utc (BookmarkMethods.toPlainObject b) = inr b.
Proof.
  cbv zeta.
  assert (Hnew : new Examples.utc
                   {| d_id := JNum 7; d_title := JStr (js "A");
                      d_url := JStr (js "https://example.com/");
                      d_folder := JStr (js "tech");
                      d_isFavorite := JBool true;
                      d_createdAt := IsDate (Some 1%Z) |}
                 = inr (Examples.record 7 "A" "tech" true 1))
    by (vm_compute; reflexivity).
  split; [exact Hnew|].
  apply (toPlainObject_round_trip Examples.utc _ _ Hnew).
Defined.


(* ================================================================== *)
(** ** Conversion of a raw item, field by field *)
(* ================================================================== *)

Section ItemFacts.
Context (h : Host).

Lemma firstTag_spec (item : JsVal) (f : jsstring) :
  Props.firstTag item = Some f
  <-> exists tag0,
        tags_at0 (get item (js "tags")) = inr tag0
        /\ nullish_else tag0 (JStr UNSORTED) = JStr f.
Proof.
  unfold Props.firstTag, tags_at0. split.
  - destruct (get item (js "tags")) as [| |bt|nt|st|at'|ot];
      try discriminate.
    + destruct st as [|c r]; intros E; inversion E; eexists;
        (split; [reflexivity|reflexivity]).
    + destruct at' as [|x xs].
      * intros E; inversion E. eexists. split; reflexivity.
      * destruct x; try discriminate; intros E; inversion E;
          eexists; (split; [reflexivity|reflexivity]).
  - intros (tag0 & Htag & Hf).
    destruct (get item (js "tags")) as [| |bt|nt|st|at'|ot];
      try discriminate; inversion Htag; subst tag0; clear Htag.
    + destruct st as [|c r]; simpl in Hf; inversion Hf; reflexivity.
    + destruct at' as [|x xs]; simpl in Hf; [inversion Hf; reflexivity|].
      destruct x; simpl in Hf; inversion Hf; reflexivity.
Qed.

Lemma titleOf_spec (item : JsVal) (ti : jsstring) :
  Props.titleOf item = Some ti
  <-> or_else (get item (js "title")) (JStr UNTITLED) = JStr ti.
Proof.
  unfold Props.titleOf, or_else.
  destruct (get item (js "title")) as [| |bt|nt|st|at'|ot]; simpl.
  - split; intros E; inversion E; reflexivity.
  - split; intros E; inversion E; reflexivity.
  - destruct bt; split; intros E; inversion E; reflexivity.
  - destruct (nt =? 0)%Z; simpl; split; intros E; inversion E; reflexivity.
  - destruct st; split; intros E; inversion E; reflexivity.
  - split; discriminate.
  - split; discriminate.
Qed.

End ItemFacts.

(** X4.  A raw item converts exactly when [_id] is a non-zero number,
    [link] a non-empty string that the URL parser accepts, [title] a
    non-empty string or falsy (the record is then titled
    ['タイトルなし']), [tags] an array or a string whose first element is a
    string or absent (the folder is then ['未分類']), and [created] falsy
    (the record is then dated by the clock) or something [new Date]
    turns into a valid date; [isFavorite] is the truthiness of
    [important]. *)
Theorem item_converts_exactly_when_its_fields_fit
  (h : Host) (item : JsVal) (b : BookmarkModel.t) :
  fromRaindropApiResponse h item = inr b
  <-> get item (js "_id") = JNum (id b) /\ id b <> 0%Z
      /\ get item (js "link") = JStr (url b) /\ url b <> []
      /\ URL_parses h (url b) = true
      /\ Props.titleOf item = Some (title b)
      /\ Props.firstTag item = Some (folder b)
      /\ isFavorite b = truthy (get item (js "important"))
      /\ (if truthy (get item (js "created"))
          then new_Date h (get item (js "created")) = Some (createdAt b)
          else createdAt b = Date_now h).
Proof.
  rewrite titleOf_spec, firstTag_spec.
  unfold fromRaindropApiResponse. split.
  - destruct (negb (truthy item) || _); [discriminate|].
    destruct (negb (truthy (get item (js "_id")))); [discriminate|].
    destruct (negb (truthy (get item (js "link")))); [discriminate|].
    destruct (tags_at0 (get item (js "tags"))) as [e|tag0] eqn:Htags;
      [discriminate|].
    intros Hnew. apply new_iff in Hnew.
    destruct Hnew as (Hd & Hid & Hurl & Hparse).
    unfold BookmarkMethods.toPlainObject in Hd.
    injection Hd as H1 H2 H3 H4 H5 H6.
    split; [exact H1|]. split; [exact Hid|].
    split; [exact H3|]. split; [exact Hurl|]. split; [exact Hparse|].
    split; [exact H2|].
    split; [exists tag0; split; [reflexivity|exact H4]|].
    split; [symmetry; exact H5|].
    destruct (truthy (get item (js "created"))); [exact H6|].
    injection H6 as H6. symmetry. exact H6.
  - intros (Hid & Hnz & Hlink & Hne & Hparse & Htitle
            & (tag0 & Htags & Hfolder) & Hfav & Hcreated).
    assert (Hobj : exists props, item = JObj props).
    { destruct item; simpl in Hid; try discriminate. eauto. }
    destruct Hobj as (props & ->).
    cbn [truthy typeof negb orb].
    rewrite Hid, Hlink, Htags. cbn [truthy].
    apply Z.eqb_neq in Hnz. rewrite Hnz.
    destruct (url b) as [|c r] eqn:Hurl; [contradiction|].
    cbn [negb]. apply new_iff.
    split; [|split; [apply Z.eqb_neq; exact Hnz|split; [rewrite Hurl; discriminate|rewrite Hurl; exact Hparse]]].
    unfold BookmarkMethods.toPlainObject.
    rewrite Htitle, Hfolder, Hfav, Hurl. f_equal.
    destruct (truthy (get (JObj props) (js "created")));
      rewrite Hcreated; reflexivity.
Qed.

(** X5.  The batch converter accounts for every item: an item either
    yields a record or is named in the warning, so the records and the
    reported failures together are as many as the items, and the
    warning is logged exactly when some item failed. *)
Theorem batch_accounts_for_every_item (h : Host) (items : list JsVal) :
  exists warns l,
    fromRaindropApiResponseArray h (JArr items) = (warns, inr l)
    /\ length l + length (failures h 0 items) = length items
    /\ (warns = [] <-> length l = length items)
    /\ length warns <= 1.
Proof.
  rewrite fromRaindropApiResponseArray_spec.
  eexists. eexists. split; [reflexivity|].
  assert (Hcount : forall start,
            length (converted h items) + length (failures h start items)
            = length items).
  { induction items as [|item rest IH]; intros start; [reflexivity|].
    unfold converted in *. simpl.
    destruct (fromRaindropApiResponse h item); simpl;
      specialize (IH (S start)); lia. }
  split; [apply Hcount|].
  specialize (Hcount 0).
  unfold batchWarning.
  destruct (failures h 0 items) as [|f fs]; simpl in *.
  - split; [|lia]. split; [intros _; lia|reflexivity].
  - split; [|lia]. split; [discriminate|lia].
Qed.

(* ================================================================== *)
(** ** The log of a fetch *)
(* ================================================================== *)

Section LogFacts.
Context (h : Host) (upstream : Upstream).

Lemma thrownAt_None (p : nat) :
  Props.thrownAt upstream p = None <-> pageItems upstream p <> None.
Proof.
  unfold Props.thrownAt, pageItems.
  destruct (upstream p) as [e|[data| |]]; cbn [destructure];
    try (split; [discriminate|tauto]).
  destruct (items data); split; try discriminate; tauto.
Qed.

(** A page without an array of items makes the body throw. *)
Lemma body_throws (st : Loop) :
  pageItems upstream (page st) = None ->
  exists e,
    Props.thrownAt upstream (page st) = Some e
    /\ body h upstream st = ([Request (page st)], Throw e).
Proof.
  unfold pageItems, Props.thrownAt, body.
  destruct (upstream (page st)) as [e|[data| |]]; cbn [destructure]; eauto.
  destruct (items data); try discriminate; eauto.
Qed.

Lemma requests_pageEvents (a n : nat) :
  requests (flat_map (Props.pageEvents h upstream) (seq a n)) = seq a n.
Proof.
  revert a. induction n as [|n IH]; intros a; [reflexivity|].
  cbn [seq flat_map]. rewrite requests_app, IH.
  unfold Props.pageEvents.
  change (requests (Request a :: ?l)) with (a :: requests l).
  destruct (pageItems upstream a) as [its|];
    [rewrite requests_batchWarning|]; reflexivity.
Qed.

Lemma requests_ending (p : nat) (r : Result (list BookmarkModel.t)) :
  requests (Props.ending p r) = [].
Proof.
  unfold Props.ending. destruct r; [reflexivity|].
  destruct (p =? 100); reflexivity.
Qed.

(** The events of the pages: requests, and warnings about items. *)
Lemma pageEvents_kinds (l : list nat) (ev : Event) :
  In ev (flat_map (Props.pageEvents h upstream) l) ->
  (exists p, ev = Request p) \/ (exists t, ev = ConsoleWarn (MSG_BATCH ++ t)).
Proof.
  rewrite in_flat_map. intros (p & _ & Hin).
  unfold Props.pageEvents in Hin. destruct Hin as [<-|Hin]; [eauto|].
  destruct (pageItems upstream p) as [its|]; [|contradiction].
  unfold batchWarning in Hin.
  destruct (failures h 0 its); [contradiction|].
  destruct Hin as [<-|[]]. eauto.
Qed.

(** The whole log of a run: page by page, then the ending. *)
Lemma while_log (fuel : nat) (st : Loop) evs r :
  while h upstream fuel st = Some (evs, r) ->
  hasMorePages st = true ->
  page st <= 100 ->
  exists n,
    page st + n <= 100
    /\ evs = flat_map (Props.pageEvents h upstream) (seq (page st) (S n))
             ++ Props.ending (page st + n) r
    /\ (forall e, r = inl e ->
          Props.thrownAt upstream (page st + n) = Some e).
Proof.
  revert st evs r.
  induction fuel as [|fuel IH]; intros st evs r; [discriminate|].
  cbn [while]. intros Hrun Hmore Hp. rewrite Hmore in Hrun.
  pose proof (body_spec h upstream st) as Hb.
  destruct (pageItems upstream (page st)) as [its|] eqn:Hits.
  - cbv zeta in Hb. rewrite Hb in Hrun. clear Hb.
    assert (Hev : Props.pageEvents h upstream (page st)
                  = Request (page st) :: batchWarning (failures h 0 its)).
    { unfold Props.pageEvents. rewrite Hits. reflexivity. }
    destruct (100 <? S (page st))%nat eqn:Hlim.
    + apply Nat.ltb_lt in Hlim. inversion Hrun; subst evs r; clear Hrun.
      exists 0. rewrite Nat.add_0_r.
      split; [lia|]. split; [|discriminate].
      cbn [seq flat_map]. rewrite Hev, app_nil_r.
      unfold Props.ending.
      replace (page st =? 100) with true
        by (symmetry; apply Nat.eqb_eq; lia).
      reflexivity.
    + apply Nat.ltb_ge in Hlim.
      match type of Hrun with
      | context [while h upstream fuel ?s] => set (st' := s) in *
      end.
      destruct (while h upstream fuel st') as [[evs' r']|] eqn:Hrec;
        [|discriminate].
      inversion Hrun; subst evs r; clear Hrun.
      destruct (hasMorePages st') eqn:Hmore'.
      * destruct (IH st' evs' r' Hrec Hmore') as (n & Hle & Hevs & Herr).
        { simpl. lia. }
        simpl page in *. exists (S n).
        replace (page st + S n) with (S (page st) + n) by lia.
        split; [exact Hle|]. split; [|exact Herr].
        rewrite Hevs.
        change (seq (page st) (S (S n)))
          with (page st :: seq (S (page st)) (S n)).
        cbn [flat_map]. rewrite Hev, <- app_assoc. reflexivity.
      * destruct fuel as [|fuel]; [discriminate|].
        cbn [while] in Hrec. rewrite Hmore' in Hrec.
        inversion Hrec; subst evs' r'; clear Hrec.
        exists 0. rewrite Nat.add_0_r.
        split; [lia|]. split; [|discriminate].
        cbn [seq flat_map]. rewrite Hev, !app_nil_r.
        unfold Props.ending.
        replace (page st =? 100) with false
          by (symmetry; apply Nat.eqb_neq; lia).
        rewrite app_nil_r. reflexivity.
  - clear Hb. destruct (body_throws st Hits) as (e & Hthrown & Hb).
    rewrite Hb in Hrun. inversion Hrun; subst evs r; clear Hrun.
    exists 0. rewrite Nat.add_0_r.
    split; [lia|]. split.
    + cbn [seq flat_map]. unfold Props.pageEvents. rewrite Hits.
      reflexivity.
    + intros e' E. inversion E; subst e'. exact Hthrown.
Qed.

Lemma before_flat_map (p : nat) :
  before h upstream p = flat_map (pageRecords h upstream) (seq 0 p).
Proof.
  induction p as [|p IH]; [reflexivity|].
  rewrite seq_S, flat_map_app. simpl. rewrite IH, app_nil_r. reflexivity.
Qed.

(** A run, its pages and its log. *)
Lemma getRecentBookmarks_log (fuel : nat) :
  101 <= fuel ->
  exists evs r n,
    getRecentBookmarks h upstream fuel = Some (evs, r)
    /\ n <= 100
    /\ evs = flat_map (Props.pageEvents h upstream) (seq 0 (S n))
             ++ Props.ending n r
    /\ requests evs = seq 0 (S n)
    /\ (forall q, q < n -> continues h upstream q = true)
    /\ (n < 100 -> continues h upstream n = false)
    /\ (forall l, r = inr l ->
          l = accumulated h upstream n /\ pageItems upstream n <> None)
    /\ (forall e, r = inl e -> Props.thrownAt upstream n = Some e).
Proof.
  intros Hfuel.
  destruct (getRecentBookmarks_trace h upstream fuel Hfuel) as
    (evs & r & n & Hrun & Hreq & Hle & Hbefore & Hlast & Hok & _).
  pose proof Hrun as Hlog. unfold getRecentBookmarks in Hlog.
  apply while_log in Hlog; [|reflexivity|simpl; lia].
  destruct Hlog as (n' & _ & Hevs & Herr).
  change (page init) with 0 in Hevs, Herr.
  change (0 + n') with n' in Hevs, Herr.
  assert (Hn : n' = n).
  { pose proof Hreq as Hlen. rewrite Hevs in Hlen.
    rewrite requests_app, requests_pageEvents, requests_ending, app_nil_r
      in Hlen.
    apply (f_equal (@length nat)) in Hlen. rewrite !length_seq in Hlen.
    lia. }
  subst n'. exists evs, r, n. tauto.
Qed.

Lemma continues_full (q : nat) :
  continues h upstream q = true ->
  exists its, pageItems upstream q = Some its /\ length its = 50.
Proof.
  unfold continues. destruct (pageItems upstream q) as [its|];
    [|discriminate].
  intros Hc. apply andb_true_iff in Hc. destruct Hc as [Hlen _].
  apply Nat.eqb_eq in Hlen. eauto.
Qed.

End LogFacts.

(** X6.  When [getRecentBookmarks] returns, it has requested the pages
    0 to n for some n up to 100, every one of them answered with an
    array of items, every page before the last held exactly 50 items,
    and the array returned is the records of page 0, then those of page
    1, and so on to page n, each page in the order of its items. *)
Theorem fetch_returns_the_pages_in_arrival_order
  (h : Host) (upstream : Upstream) (fuel : nat) evs l :
  101 <= fuel ->
  getRecentBookmarks h upstream fuel = Some (evs, inr l) ->
  exists n,
    n <= 100
    /\ requests evs = seq 0 (S n)
    /\ l = flat_map (pageRecords h upstream) (seq 0 (S n))
    /\ (forall q, q <= n -> Props.thrownAt upstream q = None)
    /\ (forall q, q < n ->
          exists its, pageItems upstream q = Some its /\ length its = 50).
Proof.
  intros Hfuel Hrun.
  destruct (getRecentBookmarks_log h upstream fuel Hfuel) as
    (evs' & r & n & Hrun' & Hle & _ & Hreq & Hbefore & _ & Hok & _).
  rewrite Hrun in Hrun'. inversion Hrun'; subst evs' r; clear Hrun'.
  destruct (Hok l eq_refl) as [Hl Hn].
  exists n. split; [exact Hle|]. split; [exact Hreq|].
  split; [rewrite Hl; apply before_flat_map|]. split.
  - intros q Hq. apply thrownAt_None.
    destruct (Nat.eq_dec q n) as [->|Hne]; [exact Hn|].
    destruct (continues_full h upstream q (Hbefore q ltac:(lia)))
      as (its & -> & _).
    discriminate.
  - intros q Hq. apply continues_full with (h := h). apply Hbefore. exact Hq.
Qed.

Lemma fetch_returns_the_pages_in_arrival_order_witness :
  101 <= 101
  /\ exists evs l,
       getRecentBookmarks Examples.utc (Examples.steadyUpstream 75) 101
       = Some (evs, inr l)
       /\ exists n,
            n <= 100
            /\ requests evs = seq 0 (S n)
            /\ l = flat_map
                     (pageRecords Examples.utc (Examples.steadyUpstream 75))
                     (seq 0 (S n))
            /\ (forall q, q <= n ->
                  Props.thrownAt (Examples.steadyUpstream 75) q = None)
            /\ (forall q, q < n ->
                  exists its,
                    pageItems (Examples.steadyUpstream 75) q = Some its
                    /\ length its = 50).
Proof.
  split; [lia|].
  destruct (getRecentBookmarks Examples.utc (Examples.steadyUpstream 75) 101)
    as [[evs [e|l]]|] eqn:Hrun;
    [vm_compute in Hrun; discriminate| |vm_compute in Hrun; discriminate].
  exists evs, l. split; [reflexivity|].
  apply (fetch_returns_the_pages_in_arrival_order
           Examples.utc (Examples.steadyUpstream 75) 101 evs l
           (le_n 101) Hrun).
Defined.

(** When the loop throws: exactly when one of the pages it requests
    fails, which is then the last page requested; the message is logged
    once, as the last event. *)
Lemma loop_throws_at_the_last_page
  (h : Host) (upstream : Upstream) (fuel : nat) :
  101 <= fuel ->
  exists evs r,
    getRecentBookmarks h upstream fuel = Some (evs, r)
    /\ (forall e,
          r = inl e
          <-> exists p, requested evs p /\ Props.thrownAt upstream p = Some e)
    /\ (forall e,
          r = inl e ->
          exists n evs',
            requests evs = seq 0 (S n)
            /\ Props.thrownAt upstream n = Some e
            /\ evs = evs' ++ [ConsoleError MSG_FETCH_ERROR (message e)]
            /\ forall label text, ~ In (ConsoleError label text) evs').
Proof.
  intros Hfuel.
  destruct (getRecentBookmarks_log h upstream fuel Hfuel) as
    (evs & r & n & Hrun & Hle & Hevs & Hreq & Hbefore & _ & Hok & Herr).
  exists evs, r. split; [exact Hrun|]. split.
  - intros e. split.
    + intros ->. exists n. split; [|apply Herr; reflexivity].
      unfold requested. rewrite Hreq. apply in_seq. lia.
    + intros (p & Hp & Hthrown). unfold requested in Hp.
      rewrite Hreq in Hp. apply in_seq in Hp.
      destruct (Nat.eq_dec p n) as [->|Hne].
      * destruct r as [e'|l].
        -- rewrite (Herr e' eq_refl) in Hthrown. congruence.
        -- destruct (Hok l eq_refl) as [_ Hn].
           apply thrownAt_None in Hn. congruence.
      * destruct (continues_full h upstream p (Hbefore p ltac:(lia)))
          as (its & Hits & _).
        assert (Hnone : Props.thrownAt upstream p = None)
          by (apply thrownAt_None; rewrite Hits; discriminate).
        congruence.
  - intros e ->.
    exists n, (flat_map (Props.pageEvents h upstream) (seq 0 (S n))).
    split; [exact Hreq|]. split; [apply Herr; reflexivity|].
    split; [exact Hevs|].
    intros label text Hin. apply pageEvents_kinds in Hin.
    destruct Hin as [(p & E)|(t & E)]; discriminate.
Qed.

(** With two dates that can be formatted, given or replaced, the
    method is the loop against the pages under their filter. *)
Lemma getRecentBookmarks_of_valid_dates
  (h : Host) (UTC : Z -> Z) (server : RaindropMethods.Server)
  (fromDate toDate : option JsDate) (f t : Z) (fuel : nat) :
  match fromDate with
  | Some d => d
  | None => RaindropMethods.sevenDaysAgo h UTC
  end = Some f ->
  match toDate with
  | Some d => d
  | None => Some (Date_now h)
  end = Some t ->
  RaindropMethods.getRecentBookmarks h UTC server fromDate toDate fuel
  = getRecentBookmarks h
      (RaindropMethods.pagesOf server
         (JsBuiltins.toISOString f ++ js ".." ++ JsBuiltins.toISOString t))
      fuel.
Proof.
  intros Hf Ht. unfold RaindropMethods.getRecentBookmarks.
  rewrite Hf, Ht. reflexivity.
Qed.

(** X7.  [getRecentBookmarks] always returns or throws.  When one of
    its two dates (as given, or as replaced when missing) is an Invalid
    Date, it throws the RangeError of [toISOString] before any request
    and logs nothing.  Otherwise the [created] filter is the two dates
    in ISO format joined by [..], and the method throws exactly when one
    of the pages it requests is rejected, answered with [null] or
    [undefined] data or answered without an array of items; that page
    is the last one requested, the error thrown is the one of that page
    (the error rejected with, the TypeError of the destructuring, or the
    error ['Raindrop.io APIからの無効なレスポンス形式']), the records of
    the earlier pages are not returned, and the message is written once
    to [console.error], as the last event. *)
Theorem fetch_throws_exactly_when_a_requested_page_fails
  (h : Host) (UTC : Z -> Z) (server : RaindropMethods.Server)
  (fromDate toDate : option JsDate) (fuel : nat) :
  101 <= fuel ->
  let startDate :=
    match fromDate with
    | Some d => d
    | None => RaindropMethods.sevenDaysAgo h UTC
    end in
  let endDate :=
    match toDate with
    | Some d => d
    | None => Some (Date_now h)
    end in
  exists evs r,
    RaindropMethods.getRecentBookmarks h UTC server fromDate toDate fuel
    = Some (evs, r)
    /\ match startDate, endDate with
       | Some f, Some t =>
         let upstream :=
           RaindropMethods.pagesOf server
             (JsBuiltins.toISOString f ++ js ".."
              ++ JsBuiltins.toISOString t) in
         (forall e,
            r = inl e
            <-> exists p,
                  requested evs p /\ Props.thrownAt upstream p = Some e)
         /\ (forall e,
               r = inl e ->
               exists n evs',
                 requests evs = seq 0 (S n)
                 /\ Props.thrownAt upstream n = Some e
                 /\ evs = evs' ++ [ConsoleError MSG_FETCH_ERROR (message e)]
                 /\ forall label text, ~ In (ConsoleError label text) evs')
       | _, _ =>
         evs = [] /\ r = inl (RangeError JsBuiltins.MSG_INVALID_TIME)
       end.
Proof.
  intros Hfuel. cbv zeta.
  unfold RaindropMethods.getRecentBookmarks, RaindropMethods.createdFilter.
  destruct (match fromDate with
            | Some d => d
            | None => RaindropMethods.sevenDaysAgo h UTC
            end) as [f|];
    [|eexists; eexists; split; [reflexivity|split; reflexivity]].
  destruct (match toDate with
            | Some d => d
            | None => Some (Date_now h)
            end) as [t|];
    [|eexists; eexists; split; [reflexivity|split; reflexivity]].
  cbn [JsBuiltins.Date_toISOString].
  apply loop_throws_at_the_last_page. exact Hfuel.
Qed.

Lemma fetch_throws_exactly_when_a_requested_page_fails_witness :
  101 <= 101
  /\ exists evs r,
       RaindropMethods.getRecentBookmarks Examples.utc (fun t => t)
         (fun request =>
            match RaindropMethods.page_ request with
            | 0 => Examples.endlessUpstream 0
            | _ => inl (Error Interceptor.MSG_NETWORK)
            end) None None 101
       = Some (evs, r)
       /\ r = inl (Error Interceptor.MSG_NETWORK)
       /\ requests evs = [0; 1].
Proof.
  split; [lia|].
  destruct (fetch_throws_exactly_when_a_requested_page_fails
              Examples.utc (fun t => t)
              (fun request =>
                 match RaindropMethods.page_ request with
                 | 0 => Examples.endlessUpstream 0
                 | _ => inl (Error Interceptor.MSG_NETWORK)
                 end) None None 101 (le_n 101))
    as (evs & r & Hrun & _).
  exists evs, r. split; [exact Hrun|].
  assert (Hobs : observe (Some (evs, r))
                 = Some ([0; 1], None,
                         Some (ConsoleError MSG_FETCH_ERROR
                                 Interceptor.MSG_NETWORK)))
    by (rewrite <- Hrun; vm_compute; reflexivity).
  assert (Hreq : requests evs = [0; 1]).
  { exact (f_equal (fun o : option (list nat * option nat * option Event) =>
                      match o with
                      | Some (reqs, _, _) => reqs
                      | None => []
                      end) Hobs). }
  split; [|exact Hreq].
  clear Hobs Hreq. revert Hrun. vm_compute. intros Hrun.
  inversion Hrun. reflexivity.
Defined.

(** X8.  The warning about the page limit is logged exactly when page
    100 was requested and answered with an array of items, whether or
    not that page asked for a further one; the call then returns the
    records of the pages 0 to 100 and the warning is the last event. *)
Theorem page_limit_warning_exactly_after_page_100
  (h : Host) (upstream : Upstream) (fuel : nat) :
  101 <= fuel ->
  exists evs r,
    getRecentBookmarks h upstream fuel = Some (evs, r)
    /\ (In (ConsoleWarn MSG_PAGE_LIMIT) evs
        <-> requested evs 100 /\ pageItems upstream 100 <> None)
    /\ (In (ConsoleWarn MSG_PAGE_LIMIT) evs ->
        r = inr (accumulated h upstream 100)
        /\ last evs (Request 0) = ConsoleWarn MSG_PAGE_LIMIT).
Proof.
  intros Hfuel.
  destruct (getRecentBookmarks_log h upstream fuel Hfuel) as
    (evs & r & n & Hrun & Hle & Hevs & Hreq & _ & _ & Hok & Herr).
  exists evs, r. split; [exact Hrun|].
  assert (Hwarn : In (ConsoleWarn MSG_PAGE_LIMIT) evs
                  <-> n = 100 /\ exists l, r = inr l).
  { rewrite Hevs, in_app_iff. split.
    - intros [Hin|Hin].
      + apply pageEvents_kinds in Hin.
        destruct Hin as [(p & E)|(t & E)]; discriminate.
      + unfold Props.ending in Hin. destruct r as [e|l].
        * destruct Hin as [E|[]]. discriminate.
        * destruct (Nat.eqb_spec n 100); [eauto|contradiction].
    - intros (-> & l & ->). right. simpl. auto. }
  split.
  - rewrite Hwarn. unfold requested. rewrite Hreq, in_seq. split.
    + intros (-> & l & ->). split; [lia|].
      apply (Hok l eq_refl).
    + intros (Hin & Hitems). assert (Hn : n = 100) by lia. subst n.
      split; [reflexivity|]. destruct r as [e|l]; [|eauto].
      exfalso. apply thrownAt_None in Hitems.
      rewrite (Herr e eq_refl) in Hitems. discriminate.
  - intros Hin. apply Hwarn in Hin. destruct Hin as (-> & l & ->).
    destruct (Hok l eq_refl) as [-> _]. split; [reflexivity|].
    rewrite Hevs. apply last_last.
Qed.

Lemma page_limit_warning_exactly_after_page_100_witness :
  101 <= 101
  /\ exists evs r,
       getRecentBookmarks Examples.utc Examples.endlessUpstream 101
       = Some (evs, r)
       /\ In (ConsoleWarn MSG_PAGE_LIMIT) evs.
Proof.
  split; [lia|].
  destruct (page_limit_warning_exactly_after_page_100
              Examples.utc Examples.endlessUpstream 101 (le_n 101))
    as (evs & r & Hrun & Hiff & _).
  exists evs, r. split; [exact Hrun|].
  apply Hiff.
  assert (Hobs : observe (Some (evs, r))
                 = Some (seq 0 101, Some (101 * 50),
                         Some (ConsoleWarn MSG_PAGE_LIMIT)))
    by (rewrite <- Hrun; vm_compute; reflexivity).
  split; [|discriminate].
  assert (Hreq : requests evs = seq 0 101).
  { exact (f_equal (fun o : option (list nat * option nat * option Event) =>
                      match o with
                      | Some (reqs, _, _) => reqs
                      | None => []
                      end) Hobs). }
  unfold requested. rewrite Hreq. apply in_seq. lia.
Defined.

(* ================================================================== *)
(** ** The fetch of one collection *)
(* ================================================================== *)

(** X9.  [getBookmarksByCollection] throws a TypeError, logging
    nothing, when its [options] are [null].  Otherwise it formats the
    two dates only when both are given; when one of them is then an Invalid Date, the
    RangeError of [toISOString] is logged and rethrown and no request is
    sent.  Otherwise it sends one request, to
    [/raindrops/<collectionId>], with the page and page size of the
    options and with the [created] filter exactly when both dates are
    given.  When the request is rejected, or answered with [null] or
    [undefined] data, the error (for the latter the TypeError of the
    destructuring) is logged and rethrown.  When the response carries an
    array of items, the records of the items that convert are returned,
    in order, with the warning about the others.  When it carries data
    without such an array, the empty array is returned and nothing is
    logged, although the same response makes [getRecentBookmarks]
    throw. *)
Theorem collection_fetch_outcome
  (h : Host) (server : RaindropMethods.Server)
  (collectionId : Z) (options : RaindropMethods.Options) :
  let rethrown (e : JsError) :=
    [ConsoleError
       (RaindropMethods.MSG_COLLECTION ++ Number_toString collectionId
        ++ RaindropMethods.MSG_COLLECTION_ERROR) (message e)] in
  let answered (filter : option jsstring)
      (sent : option RaindropMethods.Get) (log : list Event)
      (result : Result (list BookmarkModel.t)) : Prop :=
    let request :=
      {| RaindropMethods.path :=
           js "/raindrops/" ++ Number_toString collectionId;
         RaindropMethods.perpage := RaindropMethods.perPage options;
         RaindropMethods.page_ := RaindropMethods.page options;
         RaindropMethods.created := filter |} in
    sent = Some request
    /\ match server request with
       | inl e => result = inl e /\ log = rethrown e
       | inr NullData =>
         result = inl (TypeError MSG_DESTRUCTURE_NULL)
         /\ log = rethrown (TypeError MSG_DESTRUCTURE_NULL)
       | inr UndefinedData =>
         result = inl (TypeError MSG_DESTRUCTURE_UNDEFINED)
         /\ log = rethrown (TypeError MSG_DESTRUCTURE_UNDEFINED)
       | inr (WithData data) =>
         match items data with
         | JArr its =>
           result = inr (converted h its)
           /\ log = batchWarning (failures h 0 its)
         | _ =>
           result = inr [] /\ log = []
           /\ forall fuel, 1 <= fuel ->
                getRecentBookmarks h (fun _ => inr (WithData data)) fuel
                = Some ([Request 0;
                         ConsoleError MSG_FETCH_ERROR MSG_INVALID_RESPONSE],
                        inl (Error MSG_INVALID_RESPONSE))
         end
       end in
  RaindropMethods.getBookmarksByCollection h server collectionId None
  = (None, [], inl (TypeError RaindropMethods.MSG_OPTIONS_NULL))
  /\ exists sent log result,
    RaindropMethods.getBookmarksByCollection h server collectionId
      (Some options)
    = (sent, log, result)
    /\ match RaindropMethods.fromDate options,
             RaindropMethods.toDate options with
       | Some fromDate, Some toDate =>
         match fromDate, toDate with
         | Some f, Some t =>
           answered (Some (JsBuiltins.toISOString f ++ js ".."
                           ++ JsBuiltins.toISOString t)) sent log result
         | _, _ =>
           sent = None
           /\ result = inl (RangeError JsBuiltins.MSG_INVALID_TIME)
           /\ log = rethrown (RangeError JsBuiltins.MSG_INVALID_TIME)
         end
       | _, _ => answered None sent log result
       end.
Proof.
  cbv zeta.
  assert (Hrecent : forall data fuel,
            (forall its, items data <> JArr its) -> 1 <= fuel ->
            getRecentBookmarks h (fun _ => inr (WithData data)) fuel
            = Some ([Request 0;
                     ConsoleError MSG_FETCH_ERROR MSG_INVALID_RESPONSE],
                    inl (Error MSG_INVALID_RESPONSE))).
  { intros data fuel Hno Hfuel. destruct fuel as [|fuel]; [lia|].
    unfold getRecentBookmarks. simpl. unfold body. simpl.
    destruct (items data) as [| |bv|nv|sv|its|ov]; try reflexivity.
    exfalso. apply (Hno its). reflexivity. }
  assert (Hsent : forall filter,
            let request :=
              {| RaindropMethods.path :=
                   js "/raindrops/" ++ Number_toString collectionId;
                 RaindropMethods.perpage := RaindropMethods.perPage options;
                 RaindropMethods.page_ := RaindropMethods.page options;
                 RaindropMethods.created := filter |} in
            exists log result,
              match server request with
              | inl e =>
                (Some request,
                 [ConsoleError
                    (RaindropMethods.MSG_COLLECTION
                     ++ Number_toString collectionId
                     ++ RaindropMethods.MSG_COLLECTION_ERROR) (message e)],
                 inl e)
              | inr response =>
                match destructure response with
                | inl e =>
                  (Some request,
                   [ConsoleError
                      (RaindropMethods.MSG_COLLECTION
                       ++ Number_toString collectionId
                       ++ RaindropMethods.MSG_COLLECTION_ERROR) (message e)],
                   inl e)
                | inr data =>
                  match items data with
                  | JArr _ =>
                    match fromRaindropApiResponseArray h (items data) with
                    | (warns, inl e) =>
                      (Some request,
                       warns
                       ++ [ConsoleError
                             (RaindropMethods.MSG_COLLECTION
                              ++ Number_toString collectionId
                              ++ RaindropMethods.MSG_COLLECTION_ERROR)
                             (message e)],
                       inl e)
                    | (warns, inr bookmarks) =>
                      (Some request, warns, inr bookmarks)
                    end
                  | _ => (Some request, [], inr [])
                  end
                end
              end = (Some request, log, result)
              /\ match server request with
                 | inl e =>
                   result = inl e
                   /\ log = [ConsoleError
                               (RaindropMethods.MSG_COLLECTION
                                ++ Number_toString collectionId
                                ++ RaindropMethods.MSG_COLLECTION_ERROR)
                               (message e)]
                 | inr NullData =>
                   result = inl (TypeError MSG_DESTRUCTURE_NULL)
                   /\ log = [ConsoleError
                               (RaindropMethods.MSG_COLLECTION
                                ++ Number_toString collectionId
                                ++ RaindropMethods.MSG_COLLECTION_ERROR)
                               (message (TypeError MSG_DESTRUCTURE_NULL))]
                 | inr UndefinedData =>
                   result = inl (TypeError MSG_DESTRUCTURE_UNDEFINED)
                   /\ log = [ConsoleError
                               (RaindropMethods.MSG_COLLECTION
                                ++ Number_toString collectionId
                                ++ RaindropMethods.MSG_COLLECTION_ERROR)
                               (message
                                  (TypeError MSG_DESTRUCTURE_UNDEFINED))]
                 | inr (WithData data) =>
                   match items data with
                   | JArr its =>
                     result = inr (converted h its)
                     /\ log = batchWarning (failures h 0 its)
                   | _ =>
                     result = inr [] /\ log = []
                     /\ forall fuel, 1 <= fuel ->
                          getRecentBookmarks h
                            (fun _ => inr (WithData data)) fuel
                          = Some ([Request 0;
                                   ConsoleError MSG_FETCH_ERROR
                                     MSG_INVALID_RESPONSE],
                                  inl (Error MSG_INVALID_RESPONSE))
                   end
                 end).
  { intros filter request.
    destruct (server request) as [e|[data| |]]; cbn [destructure];
      try (eexists _, _; split; [reflexivity|]; split; reflexivity).
    destruct (items data) as [| |bv|nv|sv|its|ov] eqn:Hitems;
      try (eexists _, _; split; [reflexivity|];
           split; [reflexivity|]; split; [reflexivity|];
           intros fuel Hfuel; apply Hrecent; [|exact Hfuel];
           intros its E; rewrite Hitems in E; discriminate).
    rewrite fromRaindropApiResponseArray_spec.
    eexists _, _. split; [reflexivity|]. split; reflexivity. }
  split; [reflexivity|].
  unfold RaindropMethods.getBookmarksByCollection,
    RaindropMethods.createdFilter.
  destruct (RaindropMethods.fromDate options) as [[f|]|];
    destruct (RaindropMethods.toDate options) as [[t|]|];
    cbn [JsBuiltins.Date_toISOString];
    try (eexists _, _, _; split; [reflexivity|];
         split; [reflexivity|]; split; reflexivity);
    cbv zeta;
    match goal with
    | |- context [server ?req] =>
      destruct (Hsent (RaindropMethods.created req))
        as (log & result & Hrun & Hrest);
      exists (Some req), log, result
    end;
    (split; [exact Hrun|]); (split; [reflexivity|exact Hrest]).
Qed.

(* ================================================================== *)
(** ** Classification of the errors *)
(* ================================================================== *)

Section IncludesFacts.

Lemma startsWith_app (p s t : jsstring) :
  startsWith p s = true -> startsWith p (s ++ t) = true.
Proof.
  revert s. induction p as [|a p IH]; intros s; [reflexivity|].
  destruct s as [|b s]; [discriminate|]. simpl.
  intros H. apply andb_true_iff in H. destruct H as [-> H].
  simpl. apply IH. exact H.
Qed.

Lemma includes_app_l (needle s t : jsstring) :
  JsBuiltins.includes needle s = true ->
  JsBuiltins.includes needle (s ++ t) = true.
Proof.
  induction s as [|c s IH]; simpl.
  - rewrite orb_false_r. intros H.
    destruct needle; [|discriminate].
    destruct t; reflexivity.
  - intros H. apply orb_true_iff in H. destruct H as [H|H].
    + change (c :: s ++ t) with ((c :: s) ++ t).
      rewrite (startsWith_app _ _ t H). reflexivity.
    + rewrite (IH H). apply orb_true_r.
Qed.

End IncludesFacts.

Section ClassificationFacts.

Import ErrorHandler.

(** The pairs [classifyError] can return. *)
Lemma classifyError_range (error : Caught) :
  In (classifyError error)
    [(CONFIGURATION_ERROR, CRITICAL); (RAINDROP_API_ERROR, HIGH);
     (RAINDROP_API_ERROR, MEDIUM); (SES_ERROR, HIGH);
     (NETWORK_ERROR, MEDIUM); (TIMEOUT_ERROR, MEDIUM);
     (UNKNOWN_ERROR, MEDIUM)].
Proof.
  unfold classifyError.
  repeat match goal with
         | |- context [if ?c then _ else _] => destruct c
         end;
    destruct (nameOf error); simpl; tauto.
Qed.

(** An [Error] or a [TypeError] is classified by its message alone. *)
Lemma classifyError_caught (e : JsError) (stack : jsstring) :
  classifyError (caught e stack)
  = if JsBuiltins.includes (js "環境変数") (Js.message e)
       || JsBuiltins.includes (js "設定") (Js.message e)
    then (CONFIGURATION_ERROR, CRITICAL)
    else if JsBuiltins.includes (js "Raindrop") (Js.message e)
            || JsBuiltins.includes (js "API") (Js.message e)
    then (RAINDROP_API_ERROR, HIGH)
    else if JsBuiltins.includes (js "SES") (Js.message e)
            || JsBuiltins.includes (js "メール") (Js.message e)
    then (SES_ERROR, HIGH)
    else if JsBuiltins.includes (js "Network") (Js.message e)
            || JsBuiltins.includes (js "ネットワーク") (Js.message e)
    then (NETWORK_ERROR, MEDIUM)
    else if JsBuiltins.includes (js "timeout") (Js.message e)
            || JsBuiltins.includes (js "タイムアウト") (Js.message e)
    then (TIMEOUT_ERROR, MEDIUM)
    else (UNKNOWN_ERROR, MEDIUM).
Proof.
  unfold classifyError, messageIncludes.
  change (messageOf (caught e stack)) with (Js.message e).
  match goal with
  | |- (let '(type, severity) := ?X in _) = _ => generalize X
  end.
  intros [ty sv]. destruct e; vm_compute; reflexivity.
Qed.

(** What [handleError] returns for an error that is no [AppError]. *)
Lemma handleError_Plain (h : Host) {Ctx : Type} (e : PlainError)
  (context : Ctx) :
  snd (handleError h (Plain e) context)
  = new_AppError h (message e) (fst (classifyError (Plain e)))
      (snd (classifyError (Plain e))) (Some e).
Proof.
  unfold handleError. destruct (classifyError (Plain e)). reflexivity.
Qed.

Lemma handleError_App (h : Host) {Ctx : Type} (a : AppError)
  (context : Ctx) :
  handleError h (App a) context = (logError a context, a).
Proof.
  unfold handleError. destruct (classifyError (App a)). reflexivity.
Qed.

(** An [Error] or a [TypeError] that [handleError] wrapped is
    recoverable only by its type. *)
Lemma isRecoverable_caught (h : Host) {Ctx : Type} (e : JsError)
  (stack : jsstring) (context : Ctx) :
  isRecoverable (snd (handleError h (caught e stack) context))
  = match fst (classifyError (caught e stack)) with
    | NETWORK_ERROR | TIMEOUT_ERROR => true
    | _ => false
    end.
Proof.
  unfold caught. rewrite handleError_Plain. unfold isRecoverable.
  cbn [type originalError new_AppError name].
  destruct (fst (classifyError _)); try reflexivity;
    destruct e; vm_compute; reflexivity.
Qed.

(** The error that [handleError] makes of an [Error] or a [TypeError],
    and the response to it, read off the classification. *)
Lemma outcome_caught (h : Host) (JSON_stringify : JsVal -> jsstring)
  {Ctx : Type} (e : JsError) (stack : jsstring) (context : Ctx) :
  let appError := snd (handleError h (caught e stack) context) in
  type appError = fst (classifyError (caught e stack))
  /\ severity appError = snd (classifyError (caught e stack))
  /\ app_message appError = Js.message e
  /\ statusCode (generateErrorResponse JSON_stringify appError)
     = fst (statusAndMessage (fst (classifyError (caught e stack)))).
Proof.
  cbv zeta. unfold caught. rewrite handleError_Plain.
  unfold generateErrorResponse. cbn [type severity app_message new_AppError].
  destruct (statusAndMessage _). repeat split; reflexivity.
Qed.

(** How the errors of the interceptor are classified. *)
Lemma classify_interceptor (error : Interceptor.AxiosError)
  (stack : jsstring) :
  (forall e, error <> Interceptor.Other e) ->
  In (classifyError (caught (fst (Interceptor.handleError error)) stack))
    [(RAINDROP_API_ERROR, HIGH); (CONFIGURATION_ERROR, CRITICAL);
     (UNKNOWN_ERROR, MEDIUM)].
Proof.
  intros Hresp. rewrite classifyError_caught.
  destruct error as [status data| |e]; [| |destruct (Hresp e eq_refl)].
  - unfold Interceptor.handleError. cbn [fst Js.message].
    destruct (status =? 401)%Z; [vm_compute; auto|].
    destruct (status =? 403)%Z; [vm_compute; auto|].
    destruct (status =? 429)%Z; [vm_compute; auto|].
    destruct (_ || _ || _ || _)%bool; [vm_compute; auto|].
    assert (Hr : forall x,
              JsBuiltins.includes (js "Raindrop")
                (Interceptor.MSG_API_ERROR ++ x) = true).
    { intros x. apply includes_app_l. vm_compute. reflexivity. }
    destruct (truthy data && _)%bool;
      repeat rewrite <- app_assoc; rewrite Hr;
      match goal with
      | |- context [if ?c then _ else _] => destruct c
      end; simpl; auto.
  - vm_compute. auto.
Qed.

(** How the errors of [#handleSESError] are classified. *)
Lemma classify_ses (error : SESClient.AwsError) (stack : jsstring) :
  In (classifyError
        (caught (SESClient.error (SESClient.handleSESError error)) stack))
    [(SES_ERROR, HIGH); (CONFIGURATION_ERROR, CRITICAL);
     (RAINDROP_API_ERROR, HIGH); (UNKNOWN_ERROR, MEDIUM)].
Proof.
  rewrite classifyError_caught.
  unfold SESClient.handleSESError. cbn [SESClient.error Js.message].
  match goal with
  | |- context [SESClient.lookup ?k ?t] => generalize k
  end.
  intros code.
  assert (Htable : forall m,
            SESClient.lookup code SESClient.sesMessages = Some m ->
            In m (map snd SESClient.sesMessages)).
  { generalize SESClient.sesMessages. intros table.
    induction table as [|[k v] table IH]; intros m; simpl; [discriminate|].
    destruct (JsStr.eqb code k).
    - intros E. inversion E. auto.
    - intros E. right. apply IH. exact E. }
  destruct (SESClient.lookup code SESClient.sesMessages) as [m|].
  - specialize (Htable m eq_refl). unfold SESClient.sesMessages in Htable.
    cbn [map snd] in Htable.
    repeat (destruct Htable as [<-|Htable]; [vm_compute; auto 6|]).
    contradiction.
  - assert (Hm : forall x,
              JsBuiltins.includes (js "メール") (SESClient.MSG_FAILED ++ x)
              = true).
    { intros x. apply includes_app_l. vm_compute. reflexivity. }
    assert (Hsent : forall x,
              In (if JsBuiltins.includes (js "環境変数")
                       (SESClient.MSG_FAILED ++ x)
                     || JsBuiltins.includes (js "設定")
                          (SESClient.MSG_FAILED ++ x)
                  then (CONFIGURATION_ERROR, CRITICAL)
                  else if JsBuiltins.includes (js "Raindrop")
                            (SESClient.MSG_FAILED ++ x)
                          || JsBuiltins.includes (js "API")
                               (SESClient.MSG_FAILED ++ x)
                  then (RAINDROP_API_ERROR, HIGH)
                  else if JsBuiltins.includes (js "SES")
                            (SESClient.MSG_FAILED ++ x)
                          || JsBuiltins.includes (js "メール")
                               (SESClient.MSG_FAILED ++ x)
                  then (SES_ERROR, HIGH)
                  else if JsBuiltins.includes (js "Network")
                            (SESClient.MSG_FAILED ++ x)
                          || JsBuiltins.includes (js "ネットワーク")
                               (SESClient.MSG_FAILED ++ x)
                  then (NETWORK_ERROR, MEDIUM)
                  else if JsBuiltins.includes (js "timeout")
                            (SESClient.MSG_FAILED ++ x)
                          || JsBuiltins.includes (js "タイムアウト")
                               (SESClient.MSG_FAILED ++ x)
                  then (TIMEOUT_ERROR, MEDIUM)
                  else (UNKNOWN_ERROR, MEDIUM))
                [(SES_ERROR, HIGH); (CONFIGURATION_ERROR, CRITICAL);
                 (RAINDROP_API_ERROR, HIGH); (UNKNOWN_ERROR, MEDIUM)]).
    { intros x. rewrite Hm, orb_true_r.
      repeat match goal with
             | |- context [if ?c then _ else _] => destruct c
             end; simpl; auto. }
    destruct (SESClient.aws_message error) as [|c r].
    + rewrite <- (app_nil_r SESClient.MSG_FAILED). apply Hsent.
    + apply Hsent.
Qed.

End ClassificationFacts.

(** X10.  An error that the interceptor of the Raindrop client made out
    of a response or of a request without response is never classified
    as a network or timeout error by the error handler: it is answered
    with 502 as an API error, or with 500 as a configuration error (when
    the [errorMessage] of the server mentions a setting) or as an
    unknown error, and it is never recoverable.  In particular the
    network error of the client is an API error answered with 502, and
    the rate-limit error (429) an unknown error answered with 500 that
    raises no alert. *)
Theorem raindrop_failures_are_never_classified_as_network
  (h : Host) (JSON_stringify : JsVal -> jsstring) (Ctx : Type)
  (error : Interceptor.AxiosError) (stack : jsstring) (context : Ctx) :
  (forall e, error <> Interceptor.Other e) ->
  let thrown := fst (Interceptor.handleError error) in
  let appError :=
    snd (ErrorHandler.handleError h (ErrorHandler.caught thrown stack)
           context) in
  let response :=
    ErrorHandler.generateErrorResponse JSON_stringify appError in
  let outcome :=
    (ErrorHandler.type appError, ErrorHandler.severity appError,
     ErrorHandler.statusCode response) in
  In outcome
    [(ErrorHandler.RAINDROP_API_ERROR, ErrorHandler.HIGH, 502%Z);
     (ErrorHandler.CONFIGURATION_ERROR, ErrorHandler.CRITICAL, 500%Z);
     (ErrorHandler.UNKNOWN_ERROR, ErrorHandler.MEDIUM, 500%Z)]
  /\ ErrorHandler.isRecoverable appError = false
  /\ ErrorHandler.app_message appError = message thrown
  /\ (error = Interceptor.WithRequest ->
      outcome
      = (ErrorHandler.RAINDROP_API_ERROR, ErrorHandler.HIGH, 502%Z))
  /\ (forall data, error = Interceptor.WithResponse 429 data ->
        outcome = (ErrorHandler.UNKNOWN_ERROR, ErrorHandler.MEDIUM, 500%Z)
        /\ ErrorHandler.shouldAlert appError = false).
Proof.
  intros Hresp. cbv zeta.
  pose proof (classify_interceptor error stack Hresp) as Hclass.
  rewrite isRecoverable_caught.
  destruct (outcome_caught h JSON_stringify
              (fst (Interceptor.handleError error)) stack context)
    as (Hty & Hsv & Hmsg & Hstatus).
  unfold ErrorHandler.shouldAlert.
  rewrite Hty, Hsv, Hmsg, Hstatus.
  split; [|split; [|split; [reflexivity|split]]].
  - destruct Hclass as [<-|[<-|[<-|[]]]]; simpl; auto.
  - destruct Hclass as [<-|[<-|[<-|[]]]]; reflexivity.
  - intros ->. rewrite classifyError_caught. vm_compute. reflexivity.
  - intros data ->. rewrite classifyError_caught. vm_compute. auto.
Qed.

Lemma raindrop_failures_are_never_classified_as_network_witness :
  (forall e, Interceptor.WithRequest <> Interceptor.Other e)
  /\ ErrorHandler.isRecoverable
       (snd (ErrorHandler.handleError Examples.utc
               (ErrorHandler.caught
                  (fst (Interceptor.handleError Interceptor.WithRequest))
                  []) tt))
     = false.
Proof.
  assert (Hresp : forall e, Interceptor.WithRequest <> Interceptor.Other e)
    by (intros e; discriminate).
  split; [exact Hresp|].
  apply (raindrop_failures_are_never_classified_as_network
           Examples.utc (fun _ => []) unit Interceptor.WithRequest [] tt
           Hresp).
Defined.

(** X11.  An error that [sendEmail] throws after the SES service
    rejected the command is classified by the error handler by its
    message alone, because [#handleSESError] keeps the name of the AWS
    error in [code] only: it is an SES error, or a configuration or API
    error when the message mentions a setting or an API, or an unknown
    error; never a network or timeout error, and never recoverable.  A
    throttled send is an SES error of high severity answered with 502,
    a denied access a configuration error, and a paused account, which
    the handler's own rule on the name [SendingPausedException] makes
    an SES error of high severity, an unknown error of medium severity
    that raises no alert. *)
Theorem ses_failures_are_never_recoverable
  (h : Host) (JSON_stringify : JsVal -> jsstring) (Ctx : Type)
  (error : SESClient.AwsError) (stack : jsstring) (context : Ctx) :
  let thrown := SESClient.error (SESClient.handleSESError error) in
  let appError :=
    snd (ErrorHandler.handleError h (ErrorHandler.caught thrown stack)
           context) in
  let response :=
    ErrorHandler.generateErrorResponse JSON_stringify appError in
  let outcome :=
    (ErrorHandler.type appError, ErrorHandler.severity appError,
     ErrorHandler.statusCode response) in
  In outcome
    [(ErrorHandler.SES_ERROR, ErrorHandler.HIGH, 502%Z);
     (ErrorHandler.CONFIGURATION_ERROR, ErrorHandler.CRITICAL, 500%Z);
     (ErrorHandler.RAINDROP_API_ERROR, ErrorHandler.HIGH, 502%Z);
     (ErrorHandler.UNKNOWN_ERROR, ErrorHandler.MEDIUM, 500%Z)]
  /\ ErrorHandler.isRecoverable appError = false
  /\ (SESClient.aws_name error = js "Throttling" ->
      outcome = (ErrorHandler.SES_ERROR, ErrorHandler.HIGH, 502%Z)
      /\ SESClient.code (SESClient.handleSESError error)
         = Some (js "Throttling"))
  /\ (SESClient.aws_name error = js "AccessDenied" ->
      outcome
      = (ErrorHandler.CONFIGURATION_ERROR, ErrorHandler.CRITICAL, 500%Z))
  /\ (SESClient.aws_name error = js "SendingPausedException" ->
      outcome = (ErrorHandler.UNKNOWN_ERROR, ErrorHandler.MEDIUM, 500%Z)
      /\ ErrorHandler.shouldAlert appError = false
      /\ ErrorHandler.classifyError
           (ErrorHandler.Plain
              {| ErrorHandler.name := SESClient.aws_name error;
                 ErrorHandler.message := SESClient.aws_message error;
                 ErrorHandler.stack := stack |})
         = (ErrorHandler.SES_ERROR, ErrorHandler.HIGH)).
Proof.
  cbv zeta.
  pose proof (classify_ses error stack) as Hclass.
  rewrite isRecoverable_caught.
  destruct (outcome_caught h JSON_stringify
              (SESClient.error (SESClient.handleSESError error))
              stack context)
    as (Hty & Hsv & Hmsg & Hstatus).
  unfold ErrorHandler.shouldAlert.
  rewrite Hty, Hsv, Hstatus.
  split; [|split; [|split; [|split]]].
  - destruct Hclass as [<-|[<-|[<-|[<-|[]]]]]; simpl; auto.
  - destruct Hclass as [<-|[<-|[<-|[<-|[]]]]]; reflexivity.
  - intros Hname. rewrite classifyError_caught.
    unfold SESClient.handleSESError. rewrite Hname.
    vm_compute. auto.
  - intros Hname. rewrite classifyError_caught.
    unfold SESClient.handleSESError. rewrite Hname.
    vm_compute. auto.
  - intros Hname. rewrite classifyError_caught.
    unfold SESClient.handleSESError. rewrite Hname.
    split; [vm_compute; reflexivity|]. split; [vm_compute; reflexivity|].
    unfold ErrorHandler.classifyError.
    cbn [ErrorHandler.nameOf ErrorHandler.name].
    match goal with
    | |- (let '(type, severity) := ?X in _) = _ => generalize X
    end.
    intros [ty sv]. vm_compute. reflexivity.
Qed.

(** X12.  For an error that is no [AppError], [handleError] keeps the
    message and the error itself, never assigns the severity [LOW], and
    the response to it carries 500, 502 or 503; a response of 503 goes
    with a recoverable error that raises no alert, and an error that
    raises an alert is answered with 500 or 502.  An [AppError] is
    returned as it is. *)
Theorem handled_errors_status_and_alert
  (h : Host) (JSON_stringify : JsVal -> jsstring) (Ctx : Type)
  (e : ErrorHandler.PlainError) (a : ErrorHandler.AppError)
  (context : Ctx) :
  let appError :=
    snd (ErrorHandler.handleError h (ErrorHandler.Plain e) context) in
  let status :=
    ErrorHandler.statusCode
      (ErrorHandler.generateErrorResponse JSON_stringify appError) in
  ErrorHandler.app_message appError = ErrorHandler.message e
  /\ ErrorHandler.originalError appError = Some e
  /\ ErrorHandler.severity appError <> ErrorHandler.LOW
  /\ In status [500%Z; 502%Z; 503%Z]
  /\ (status = 503%Z ->
      ErrorHandler.isRecoverable appError = true
      /\ ErrorHandler.shouldAlert appError = false)
  /\ (ErrorHandler.shouldAlert appError = true ->
      status = 500%Z \/ status = 502%Z)
  /\ snd (ErrorHandler.handleError h (ErrorHandler.App a) context) = a.
Proof.
  cbv zeta. rewrite handleError_Plain, handleError_App.
  pose proof (classifyError_range (ErrorHandler.Plain e)) as Hclass.
  unfold ErrorHandler.generateErrorResponse, ErrorHandler.isRecoverable,
    ErrorHandler.shouldAlert.
  cbn [ErrorHandler.type ErrorHandler.severity ErrorHandler.app_message
       ErrorHandler.originalError ErrorHandler.new_AppError snd].
  destruct (ErrorHandler.classifyError (ErrorHandler.Plain e)) as [ty sv].
  cbn [fst snd].
  split; [reflexivity|]. split; [reflexivity|].
  repeat (destruct Hclass as [Hclass|Hclass];
          [inversion Hclass; subst ty sv; cbn;
           repeat split; auto; try discriminate; try tauto;
           intros; discriminate|]).
  contradiction.
Qed.

(* ================================================================== *)
(** ** Loading the configuration *)
(* ================================================================== *)

(** X13.  [loadConfiguration] returns exactly when the parameter store
    answers and its three values are truthy; the region is then the
    environment's, or ['us-east-1'].  Otherwise it throws an [AppError]
    of type [CONFIGURATION_ERROR] and severity [CRITICAL] without
    original error, whose message is the prefix ['設定取得エラー: ']
    followed by the message of the store's error or, for missing
    values, by the complaint that names the missing keys in the order
    token, sender, recipient; the error handler returns this error
    unchanged, raises an alert for it and answers with 500. *)
Theorem loadConfiguration_outcome
  (h : Host) (JSON_stringify : JsVal -> jsstring)
  (getDropCastConfig : Result Handler.DropCastConfig)
  (env_AWS_REGION : JsVal) :
  match Handler.loadConfiguration h getDropCastConfig env_AWS_REGION with
  | inr configuration =>
    exists config,
      getDropCastConfig = inr config
      /\ truthy (Handler.RAINDROP_API_TOKEN config) = true
      /\ truthy (Handler.EMAIL_FROM config) = true
      /\ truthy (Handler.EMAIL_TO config) = true
      /\ configuration
         = {| Handler.c_RAINDROP_API_TOKEN := Handler.RAINDROP_API_TOKEN config;
              Handler.c_EMAIL_FROM := Handler.EMAIL_FROM config;
              Handler.c_EMAIL_TO := Handler.EMAIL_TO config;
              Handler.c_AWS_REGION :=
                if truthy env_AWS_REGION then env_AWS_REGION
                else JStr (js "us-east-1") |}
  | inl appError =>
    ErrorHandler.type appError = ErrorHandler.CONFIGURATION_ERROR
    /\ ErrorHandler.severity appError = ErrorHandler.CRITICAL
    /\ ErrorHandler.originalError appError = None
    /\ match getDropCastConfig with
       | inl error =>
         ErrorHandler.app_message appError
         = Handler.MSG_LOAD ++ message error
       | inr config =>
         let missing :=
           (if truthy (Handler.RAINDROP_API_TOKEN config) then []
            else [js "RAINDROP_API_TOKEN"])
           ++ (if truthy (Handler.EMAIL_FROM config) then []
               else [js "EMAIL_FROM"])
           ++ (if truthy (Handler.EMAIL_TO config) then []
               else [js "EMAIL_TO"]) in
         missing <> []
         /\ ErrorHandler.app_message appError
            = Handler.MSG_LOAD ++ Handler.MSG_MISSING
              ++ join (js ", ") missing
       end
    /\ snd (ErrorHandler.handleError h (ErrorHandler.App appError) tt)
       = appError
    /\ ErrorHandler.shouldAlert appError = true
    /\ ErrorHandler.isRecoverable appError = false
    /\ ErrorHandler.statusCode
         (ErrorHandler.generateErrorResponse JSON_stringify appError)
       = 500%Z
  end.
Proof.
  unfold Handler.loadConfiguration.
  destruct getDropCastConfig as [error|config].
  - rewrite handleError_App. repeat split; reflexivity.
  - cbn [map filter fst snd].
    destruct (truthy (Handler.RAINDROP_API_TOKEN config)) eqn:Htoken;
      destruct (truthy (Handler.EMAIL_FROM config)) eqn:Hfrom;
      destruct (truthy (Handler.EMAIL_TO config)) eqn:Hto;
      cbn [negb map filter fst snd app];
      try (rewrite handleError_App;
           repeat split; try reflexivity; discriminate).
    exists config. repeat split; try assumption; reflexivity.
Qed.

(* ================================================================== *)
(** ** When the digest is produced, and how it opens *)
(* ================================================================== *)




Section OpeningFacts.

Lemma noLineFeed_headline (r : option jsstring) :
  (forall s, r = Some s -> noLineFeed s) -> noLineFeed (Props.headline r).
Proof.
  intros Hr. unfold Props.headline, given.
  destruct r as [[|c s]|]; try (apply noLineFeed_check; reflexivity).
  repeat apply noLineFeed_app; try (apply noLineFeed_check; reflexivity).
  apply Hr. reflexivity.
Qed.

Lemma noLineFeed_totalLine (n : nat) : noLineFeed (Props.totalLine n).
Proof.
  unfold Props.totalLine.
  repeat apply noLineFeed_app; try (apply noLineFeed_check; reflexivity).
  apply noLineFeed_Number_toString.
Qed.

Lemma startsWith_prefix (p x : jsstring) : startsWith p (p ++ x) = true.
Proof.
  induction p as [|a p IH]; [reflexivity|].
  simpl. rewrite N.eqb_refl. exact IH.
Qed.

Lemma startsWith_join_sections (es : list (jsstring * Group)) :
  es <> [] ->
  startsWith H4
    (join [LF; LF] (map (fun e => formatFolderSection (fst e) (snd e)) es))
  = true.
Proof.
  destruct es as [|[k ms] es]; [contradiction|]. intros _.
  cbn [map fst snd]. rewrite formatFolderSection_spec.
  destruct (map _ es) as [|s ss].
  - apply startsWith_prefix.
  - change (join [LF; LF] (?x :: s :: ss))
      with (x ++ [LF; LF] ++ join [LF; LF] (s :: ss)).
    rewrite <- app_assoc. apply startsWith_prefix.
Qed.

End OpeningFacts.

(** X15.  How a digest opens.  For no records ([null] or the empty
    array) the body is three lines whatever [includeHeader] says: the
    title (with the date-range label in parentheses when one is given),
    an empty line and the notice that there is nothing new.  For records
    and [includeHeader] the body is the title line, an empty line, the
    line stating the number of records given, an empty line, and then
    the sections, which start with a heading; without [includeHeader] it
    is the sections alone. *)
Theorem digest_opens_with_the_title_and_the_count
  (h : Host) (bookmarks : option (list BookmarkModel.t)) (opts : Options)
  (body : jsstring) :
  (forall r, dateRange opts = Some r -> noLineFeed r) ->
  formatBookmarksToEmailBody h bookmarks opts = inr body ->
  match bookmarks with
  | None | Some [] =>
    lines body = [Props.headline (dateRange opts); []; EMPTY_NOTICE]
  | Some (b :: bs) =>
    exists sections,
      startsWith H4 sections = true
      /\ if includeHeader opts
         then
           body = Props.headline (dateRange opts) ++ [LF; LF]
                  ++ Props.totalLine (length (b :: bs)) ++ [LF; LF]
                  ++ sections
           /\ lines body
              = Props.headline (dateRange opts) :: []
                :: Props.totalLine (length (b :: bs)) :: []
                :: lines sections
         else body = sections
  end.
Proof.
  intros Hrange.
  pose proof (noLineFeed_headline (dateRange opts) Hrange) as Hhead.
  assert (Hempty : lines (formatEmptyMessage (dateRange opts))
                   = [Props.headline (dateRange opts); []; EMPTY_NOTICE]).
  { assert (E : formatEmptyMessage (dateRange opts)
                = Props.headline (dateRange opts)
                  ++ LF :: ([] ++ LF :: EMPTY_NOTICE)) by reflexivity.
    rewrite E, !lines_app_LF, (lines_one _ Hhead).
    rewrite (lines_one EMPTY_NOTICE)
      by (apply noLineFeed_check; reflexivity).
    reflexivity. }
  destruct bookmarks as [[|b bs]|].
  - simpl. intros E. inversion E. exact Hempty.
  - rewrite formatBookmarksToEmailBody_spec.
    destruct (groupBookmarksByFolder h (b :: bs)) as [e|g] eqn:Hg;
      [discriminate|].
    intros E. inversion E; subst body; clear E.
    destruct (groupBookmarksByFolder_entries h (b :: bs) g Hg)
      as (_ & _ & Hcov & _).
    assert (Hes : JsObject.entries g <> []).
    { intros Hnil. specialize (Hcov b (or_introl eq_refl)).
      rewrite Hnil in Hcov. exact Hcov. }
    eexists. split; [apply (startsWith_join_sections _ Hes)|].
    destruct (includeHeader opts); [|reflexivity].
    set (sections := join [LF; LF] _).
    pose proof (noLineFeed_totalLine (length (b :: bs))) as Htotal.
    assert (E0 : forall n,
              formatHeader n (dateRange opts)
              = Props.headline (dateRange opts) ++ [LF; LF]
                ++ Props.totalLine n) by reflexivity.
    rewrite E0. cbn [length] in *.
    set (head := Props.headline (dateRange opts)) in *.
    set (total := Props.totalLine _) in *.
    assert (E : ((head ++ [LF; LF] ++ total) ++ [LF; LF]) ++ sections
                = head ++ [LF; LF] ++ total ++ [LF; LF] ++ sections)
      by (repeat rewrite <- app_assoc; reflexivity).
    rewrite E. split; [reflexivity|].
    change (head ++ [LF; LF] ++ total ++ [LF; LF] ++ sections)
      with (head ++ LF :: ([] ++ LF :: (total ++ LF :: ([] ++ LF :: sections)))).
    rewrite !lines_app_LF, (lines_one head Hhead), (lines_one total Htotal).
    reflexivity.
  - simpl. intros E. inversion E. exact Hempty.
Qed.

Lemma digest_opens_with_the_title_and_the_count_witness :
  let bs := [Examples.record 1 "A" "tech" true 2;
             Examples.record 2 "B" "news" false 1] in
  (forall r, dateRange defaultOptions = Some r -> noLineFeed r)
  /\ exists body,
       formatBookmarksToEmailBody Examples.utc (Some bs) defaultOptions
       = inr body
       /\ firstn 4 (lines body)
          = [DIGEST_TITLE; []; Props.totalLine 2; []].
Proof.
  cbv zeta.
  assert (Hrange : forall r,
            dateRange defaultOptions = Some r -> noLineFeed r)
    by (intros r E; discriminate).
  split; [exact Hrange|].
  destruct (formatBookmarksToEmailBody Examples.utc
              (Some [Examples.record 1 "A" "tech" true 2;
                     Examples.record 2 "B" "news" false 1]) defaultOptions)
    as [e|body] eqn:Hbody; [vm_compute in Hbody; discriminate|].
  exists body. split; [reflexivity|].
  destruct (digest_opens_with_the_title_and_the_count
              Examples.utc _ defaultOptions body Hrange Hbody)
    as (sections & _ & _ & ->).
  reflexivity.
Defined.

(* ================================================================== *)
(** ** The layout of the digest *)
(* ================================================================== *)

Lemma codeUnitCompare_antisym (a b : jsstring) :
  (0 < Examples.codeUnitCompare a b)%Z ->
  (Examples.codeUnitCompare b a <= 0)%Z.
Proof.
  revert b. induction a as [|x a IH]; intros [|y b]; simpl; try lia.
  destruct (N.ltb_spec x y); [lia|].
  destruct (N.ltb_spec y x); [lia|].
  apply IH.
Qed.

(** X16.  The layout of a digest whose records hold no line feed and
    whose folder names are neither members of [Object.prototype] nor
    integer-like, under a collation that never puts two names each
    strictly after the other: the heading lines are the headings of the
    sections, one per folder name, in an order the collation agrees
    with; the bookmark lines are those of the sections in the same
    order; and each section holds the records of its folder from the
    newest to the oldest, records created at the same instant in the
    order of the input. *)
Theorem digest_sections_follow_the_collation_newest_first
  (h : Host) (bs : list BookmarkModel.t) (opts : Options) :
  bs <> [] ->
  (forall b, In b bs ->
     noLineFeed (title b) /\ noLineFeed (url b) /\ noLineFeed (folder b)) ->
  (forall r, dateRange opts = Some r -> noLineFeed r) ->
  (forall b, In b bs -> JsObject.inherited (folderNameOf b) = false) ->
  (forall b, In b bs -> JsObject.isArrayIndex (folderNameOf b) = false) ->
  (forall a b, (0 < localeCompare_ja h a b)%Z ->
               (localeCompare_ja h b a <= 0)%Z) ->
  exists body sections,
    formatBookmarksToEmailBody h (Some bs) opts = inr body
    /\ filter isHeadingLine (lines body)
       = map (fun s => H4 ++ fst s) sections
    /\ filter isBookmarkLine (lines body)
       = map formatSingleBookmark (concat (map snd sections))
    /\ NoDup (map fst sections)
    /\ (forall k, In k (map fst sections)
                  <-> exists b, In b bs /\ folderNameOf b = k)
    /\ Sorted (fun a b => (localeCompare_ja h a b <= 0)%Z)
         (map fst sections)
    /\ forall k ms, In (k, ms) sections ->
         Permutation ms (filter (inFolder k) bs)
         /\ StronglySorted (fun a b => (createdAt b <= createdAt a)%Z) ms
         /\ forall t,
              filter (fun b => (createdAt b =? t)%Z) ms
              = filter (fun b => (createdAt b =? t)%Z)
                  (filter (inFolder k) bs).
Proof.
  intros Hne Hclean Hrange Hplain Hnoindex Hanti.
  destruct (groupBookmarksByFolder_succeeds h bs Hplain) as (g & Hg).
  assert (Hbody : exists body,
            formatBookmarksToEmailBody h (Some bs) opts = inr body).
  { destruct bs as [|b0 bs']; [contradiction|].
    rewrite formatBookmarksToEmailBody_spec, Hg. eauto. }
  destruct Hbody as (body & Hbody).
  exists body, (JsObject.entries g). split; [exact Hbody|].
  destruct (lines_of_body h bs opts g body Hne Hclean Hrange Hg Hbody)
    as (Hlines & Hheads).
  destruct (groupBookmarksByFolder_entries h bs g Hg) as
    (Hnd & Hmem & Hcov & _).
  split; [exact Hheads|]. split; [exact Hlines|]. split; [exact Hnd|].
  split; [|split].
  - intros k. split.
    + intros Hin. apply in_map_iff in Hin.
      destruct Hin as ([k' ms] & <- & Hin). simpl.
      destruct (Hmem k' ms Hin) as (Hms & Hnil & _).
      destruct ms as [|b1 ms']; [contradiction|].
      assert (Hb1 : In b1 (filter (inFolder k') bs)).
      { apply (Permutation_in b1 (sort_perm newestFirst _)).
        rewrite <- Hms. left. reflexivity. }
      apply filter_In in Hb1. destruct Hb1 as [Hb1 Hname].
      apply eqb_eq in Hname. eauto.
    + intros (b & Hb & <-). apply Hcov. exact Hb.
  - apply (sections_follow_collation h bs g Hanti Hnoindex Hg).
  - intros k ms Hin. apply (section_lines_newest_first h bs g k ms Hg Hin).
Qed.

Lemma digest_sections_follow_the_collation_newest_first_witness :
  let bs := [Examples.record 1 "A" "tech" true 2;
             Examples.record 2 "B" "news" false 1;
             Examples.record 3 "C" "tech" false 3] in
  exists body,
    formatBookmarksToEmailBody Examples.utc (Some bs) defaultOptions
    = inr body
    /\ filter isHeadingLine (lines body)
       = [H4 ++ js "news"; H4 ++ js "tech"]
    /\ filter isBookmarkLine (lines body)
       = map formatSingleBookmark
           [Examples.record 2 "B" "news" false 1;
            Examples.record 3 "C" "tech" false 3;
            Examples.record 1 "A" "tech" true 2].
Proof.
  cbv zeta.
  destruct (digest_sections_follow_the_collation_newest_first
              Examples.utc
              [Examples.record 1 "A" "tech" true 2;
               Examples.record 2 "B" "news" false 1;
               Examples.record 3 "C" "tech" false 3] defaultOptions)
    as (body & sections & Hbody & _).
  - discriminate.
  - intros b [<-|[<-|[<-|[]]]]; repeat split;
      apply noLineFeed_check; reflexivity.
  - intros r E. discriminate.
  - intros b [<-|[<-|[<-|[]]]]; reflexivity.
  - intros b [<-|[<-|[<-|[]]]]; reflexivity.
  - exact codeUnitCompare_antisym.
  - exists body. split; [exact Hbody|].
    vm_compute in Hbody. inversion Hbody; subst body.
    split; vm_compute; reflexivity.
Defined.

(* ================================================================== *)
(** ** The date-range label and the content of the mail *)
(* ================================================================== *)

Section LabelFacts.

Lemma allChars_app (p : N -> bool) (a b : jsstring) :
  Props.allChars p a -> Props.allChars p b -> Props.allChars p (a ++ b).
Proof. unfold Props.allChars. intros Ha Hb. apply Forall_app. auto. Qed.

Lemma allChars_firstn (p : N -> bool) (n : nat) (s : jsstring) :
  Props.allChars p s -> Props.allChars p (firstn n s).
Proof.
  unfold Props.allChars. revert n.
  induction s as [|c s IH]; intros [|n] Hs; simpl; try constructor.
  - inversion Hs. assumption.
  - inversion Hs. apply IH. assumption.
Qed.

Lemma allChars_repeat (p : N -> bool) (n : nat) (s : jsstring) :
  Props.allChars p s -> Props.allChars p (concat (repeat s n)).
Proof.
  intros Hs. induction n as [|n IH]; simpl; [constructor|].
  apply allChars_app; assumption.
Qed.

Lemma allChars_padStart (p : N -> bool) (n : nat) (fill s : jsstring) :
  Props.allChars p fill -> Props.allChars p s ->
  Props.allChars p (padStart n fill s).
Proof.
  intros Hfill Hs. unfold padStart.
  destruct (n <=? length s); [exact Hs|].
  apply allChars_app; [|exact Hs].
  apply allChars_firstn, allChars_repeat. exact Hfill.
Qed.

Lemma allChars_uint_digits (d : Decimal.uint) :
  Props.allChars Props.isDateChar (uint_digits d).
Proof.
  unfold Props.allChars.
  induction d; simpl; constructor; try reflexivity; assumption.
Qed.

Lemma allChars_Number_toString (z : Z) :
  Props.allChars Props.isDateChar (Number_toString z).
Proof.
  unfold Number_toString. destruct (z <? 0)%Z.
  - constructor; [reflexivity|]. apply allChars_uint_digits.
  - apply allChars_uint_digits.
Qed.

(** A check by computation that a literal is made of date characters. *)
Lemma allChars_check (p : N -> bool) (s : jsstring) :
  forallb p s = true -> Props.allChars p s.
Proof.
  unfold Props.allChars. rewrite forallb_forall, Forall_forall. auto.
Qed.

Lemma allChars_stars (s : jsstring) :
  Props.allChars Props.isDateChar s -> stars s = 0 /\ noLineFeed s.
Proof.
  unfold Props.allChars, stars, noLineFeed. intros Hs. split.
  - apply count_occ_not_In. intros Hin.
    rewrite Forall_forall in Hs. specialize (Hs _ Hin). discriminate.
  - intros Hin. rewrite Forall_forall in Hs. specialize (Hs _ Hin).
    discriminate.
Qed.

Context (h : Host).

Lemma allChars_formatDate (t : Z) :
  Props.allChars Props.isDateChar (formatDate h t).
Proof.
  unfold formatDate.
  repeat apply allChars_app;
    try apply allChars_padStart;
    try apply allChars_Number_toString;
    apply allChars_check; reflexivity.
Qed.

(** The date of [formatDate]: the year, then month and day on two
    digits. *)
Lemma formatDate_digits (t : Z) :
  formatDate h t
  = Number_toString (getFullYear h t) ++ js "/"
    ++ twoDigits (getMonth h t + 1) ++ js "/" ++ twoDigits (getDate h t).
Proof.
  pose proof (civil_bounds (localTime h t / msPerDay)) as [Hm Hd].
  unfold formatDate.
  rewrite !padStart_twoDigits; [reflexivity| |].
  - unfold getDate. lia.
  - unfold getMonth. lia.
Qed.

Lemma allChars_formatDateRange (s e : Z) :
  Props.allChars Props.isDateChar (formatDateRange h s e).
Proof.
  unfold formatDateRange.
  apply allChars_app; [apply allChars_formatDate|].
  apply allChars_app; [apply allChars_check; reflexivity|].
  apply allChars_formatDate.
Qed.

End LabelFacts.

(** X17.  The label of [formatDateRange] is the local date of the start,
    [ - ] and the local date of the end, each date as the year, a slash,
    the month on two digits, a slash and the day on two digits; it is
    made of digits, slashes, spaces and hyphens only, so it holds
    neither a line feed nor the favourite mark; and it is 23 characters
    long when both years lie between 1000 and 9999. *)
Theorem date_range_label_shape (h : Host) (startDate endDate : Z) :
  formatDateRange h startDate endDate
  = (Number_toString (getFullYear h startDate) ++ js "/"
     ++ twoDigits (getMonth h startDate + 1) ++ js "/"
     ++ twoDigits (getDate h startDate))
    ++ js " - "
    ++ (Number_toString (getFullYear h endDate) ++ js "/"
        ++ twoDigits (getMonth h endDate + 1) ++ js "/"
        ++ twoDigits (getDate h endDate))
  /\ Props.allChars Props.isDateChar (formatDateRange h startDate endDate)
  /\ stars (formatDateRange h startDate endDate) = 0
  /\ noLineFeed (formatDateRange h startDate endDate)
  /\ ((1000 <= getFullYear h startDate <= 9999)%Z ->
      (1000 <= getFullYear h endDate <= 9999)%Z ->
      length (formatDateRange h startDate endDate) = 23).
Proof.
  pose proof (allChars_formatDateRange h startDate endDate) as Hchars.
  destruct (allChars_stars _ Hchars) as [Hstars Hlf].
  assert (Hshape : formatDateRange h startDate endDate
                   = (Number_toString (getFullYear h startDate) ++ js "/"
                      ++ twoDigits (getMonth h startDate + 1) ++ js "/"
                      ++ twoDigits (getDate h startDate))
                     ++ js " - "
                     ++ (Number_toString (getFullYear h endDate) ++ js "/"
                         ++ twoDigits (getMonth h endDate + 1) ++ js "/"
                         ++ twoDigits (getDate h endDate))).
  { unfold formatDateRange. rewrite !formatDate_digits. reflexivity. }
  split; [exact Hshape|]. split; [exact Hchars|].
  split; [exact Hstars|]. split; [exact Hlf|].
  intros Hs He. rewrite Hshape.
  rewrite !length_app, !year_four_digits by assumption. reflexivity.
Qed.

Section ContentFacts.
Context (h : Host).

(** The marks in a body: one per favourite, when the records and the
    label hold none. *)
Lemma stars_of_body (bs : list BookmarkModel.t) (opts : Options)
  (body : jsstring) :
  (forall b, In b bs ->
     stars (title b) = 0 /\ stars (url b) = 0 /\ stars (folder b) = 0) ->
  (forall r, dateRange opts = Some r -> stars r = 0) ->
  formatBookmarksToEmailBody h (Some bs) opts = inr body ->
  stars body = length (filter isFavorite bs).
Proof.
  intros Hclean Hrange. destruct bs as [|b bs'].
  - simpl. intros E. inversion E.
    apply stars_formatEmptyMessage. exact Hrange.
  - rewrite formatBookmarksToEmailBody_spec.
    destruct (groupBookmarksByFolder h (b :: bs')) as [e|g] eqn:Hg;
      [discriminate|].
    intros E. inversion E; subst body; clear E.
    rewrite stars_app.
    rewrite (stars_sections h (b :: bs') g Hg)
      by (intros b' Hin; apply Hclean; exact Hin).
    match goal with
    | |- stars ?head + _ = _ => assert (Hhead : stars head = 0)
    end.
    { destruct (includeHeader opts); [|reflexivity].
      rewrite stars_app, stars_formatHeader by exact Hrange. reflexivity. }
    rewrite Hhead, Nat.add_0_l.
    rewrite <- favourites_sum. f_equal.
    apply map_ext_in. intros b' Hin.
    rewrite stars_formatSingleBookmark.
    destruct (Hclean b' Hin) as (-> & -> & _). reflexivity.
Qed.

(** A body with its header starts with the title of the digest. *)
Lemma body_starts_with_the_title (bookmarks : option (list BookmarkModel.t))
  (r : option jsstring) (body : jsstring) :
  formatBookmarksToEmailBody h bookmarks
    {| dateRange := r; includeHeader := true |} = inr body ->
  exists rest, body = DIGEST_TITLE ++ rest.
Proof.
  assert (Hhead : exists x, Props.headline r = DIGEST_TITLE ++ x).
  { unfold Props.headline. destruct (given r) as [s|].
    - eauto.
    - exists []. rewrite app_nil_r. reflexivity. }
  destruct Hhead as (x & Hx).
  assert (Hempty : exists rest, formatEmptyMessage r = DIGEST_TITLE ++ rest).
  { exists (x ++ [LF; LF] ++ EMPTY_NOTICE).
    rewrite app_assoc, <- Hx. reflexivity. }
  destruct bookmarks as [[|b bs]|].
  - simpl. intros E. inversion E. exact Hempty.
  - rewrite formatBookmarksToEmailBody_spec.
    destruct (groupBookmarksByFolder h (b :: bs)) as [e|g];
      [discriminate|].
    intros E. inversion E; subst body; clear E.
    cbn [includeHeader dateRange].
    assert (E0 : forall n,
              formatHeader n r
              = Props.headline r ++ [LF; LF] ++ Props.totalLine n)
      by reflexivity.
    rewrite E0, Hx. repeat rewrite <- app_assoc. eauto.
  - simpl. intros E. inversion E. exact Hempty.
Qed.

End ContentFacts.

(** X18.  The content [generateEmailContent] returns: the subject of
    [generateEmailSubject]; the body formatted with its header and with
    the date-range label, which is there exactly when both dates are
    given; the two addresses as passed ([null] when absent); and the
    number of records given, 0 for [null].  Whatever the dates, the body
    holds exactly one favourite mark per favourite record as soon as no
    title, link or folder holds one, and the subject holds none. *)
Theorem email_content_of_the_digest
  (h : Host) (bookmarks : option (list BookmarkModel.t))
  (options : EmailContent.Options) (content : EmailContent.t) :
  EmailContent.generateEmailContent h bookmarks options = inr content ->
  let records := match bookmarks with Some bs => bs | None => [] end in
  EmailContent.subject content
  = generateEmailSubject h (EmailContent.startDate options)
      (EmailContent.endDate options)
  /\ EmailContent.dateRange content
     = match EmailContent.startDate options, EmailContent.endDate options with
       | Some s, Some e => Some (formatDateRange h s e)
       | _, _ => None
       end
  /\ formatBookmarksToEmailBody h bookmarks
       {| dateRange := EmailContent.dateRange content;
          includeHeader := true |}
     = inr (EmailContent.body content)
  /\ EmailContent.bookmarkCount content = length records
  /\ EmailContent.from content
     = match EmailContent.fromEmail options with
       | JUndefined => JNull
       | v => v
       end
  /\ EmailContent.to content
     = match EmailContent.toEmail options with
       | JUndefined => JNull
       | v => v
       end
  /\ stars (EmailContent.subject content) = 0
  /\ ((forall b, In b records ->
         stars (title b) = 0 /\ stars (url b) = 0 /\ stars (folder b) = 0) ->
      stars (EmailContent.body content) = length (filter isFavorite records)).
Proof.
  unfold EmailContent.generateEmailContent.
  set (label := match EmailContent.startDate options,
                      EmailContent.endDate options with
                | Some s, Some e => Some (formatDateRange h s e)
                | _, _ => None
                end).
  destruct (formatBookmarksToEmailBody h bookmarks
              {| dateRange := label; includeHeader := true |})
    as [e|body] eqn:Hbody; [discriminate|].
  intros E. inversion E; subst content; clear E. cbv zeta.
  cbn [EmailContent.subject EmailContent.body EmailContent.from
       EmailContent.to EmailContent.bookmarkCount EmailContent.dateRange].
  assert (Hlabel : forall r, label = Some r -> stars r = 0).
  { intros r. unfold label.
    destruct (EmailContent.startDate options) as [s|]; [|discriminate].
    destruct (EmailContent.endDate options) as [e|]; [|discriminate].
    intros E. inversion E.
    apply (allChars_stars _ (allChars_formatDateRange h s e)). }
  split; [reflexivity|]. split; [reflexivity|]. split; [exact Hbody|].
  split; [destruct bookmarks; reflexivity|].
  split; [destruct (EmailContent.fromEmail options); reflexivity|].
  split; [destruct (EmailContent.toEmail options); reflexivity|]. split.
  - unfold generateEmailSubject.
    rewrite !stars_app, !stars_Number_toString.
    set (target := match EmailContent.endDate options with
                   | Some e => e
                   | None => Date_now h
                   end).
    pose proof (allChars_formatDate h target) as Hdate.
    apply allChars_stars in Hdate. destruct Hdate as [Hdate _].
    unfold formatDate in Hdate. rewrite !stars_app in Hdate.
    change (stars SUBJECT_PREFIX) with 0. lia.
  - intros Hclean. destruct bookmarks as [bs|].
    + apply (stars_of_body h bs
               {| dateRange := label; includeHeader := true |} body Hclean);
        [exact Hlabel|exact Hbody].
    + simpl in Hbody. inversion Hbody.
      apply stars_formatEmptyMessage. exact Hlabel.
Qed.

Lemma email_content_of_the_digest_witness :
  let bs := [Examples.record 1 "A" "tech" true 2;
             Examples.record 2 "B" "news" false 1] in
  let options :=
    {| EmailContent.startDate := Some Examples.t_2024_01_01;
       EmailContent.endDate := Some Examples.t_2024_03_05_10h;
       EmailContent.fromEmail := JUndefined;
       EmailContent.toEmail := JStr (js "to@example.com") |} in
  exists content,
    EmailContent.generateEmailContent Examples.utc (Some bs) options
    = inr content
    /\ EmailContent.subject content
       = SUBJECT_PREFIX ++ js "2024/03/05"
    /\ EmailContent.dateRange content
       = Some (js "2024/01/01 - 2024/03/05")
    /\ EmailContent.bookmarkCount content = 2
    /\ EmailContent.from content = JNull
    /\ stars (EmailContent.body content) = 1.
Proof.
  cbv zeta.
  destruct (EmailContent.generateEmailContent Examples.utc
              (Some [Examples.record 1 "A" "tech" true 2;
                     Examples.record 2 "B" "news" false 1])
              {| EmailContent.startDate := Some Examples.t_2024_01_01;
                 EmailContent.endDate := Some Examples.t_2024_03_05_10h;
                 EmailContent.fromEmail := JUndefined;
                 EmailContent.toEmail := JStr (js "to@example.com") |})
    as [e|content] eqn:Hcontent; [vm_compute in Hcontent; discriminate|].
  exists content. split; [reflexivity|].
  destruct (email_content_of_the_digest Examples.utc _ _ content Hcontent)
    as (Hsubject & Hrange & _ & Hcount & Hfrom & _ & _ & Hstars).
  split; [rewrite Hsubject; vm_compute; reflexivity|].
  split; [rewrite Hrange; vm_compute; reflexivity|].
  split; [exact Hcount|]. split; [exact Hfrom|].
  rewrite Hstars; [reflexivity|].
  intros b [<-|[<-|[]]]; repeat split; reflexivity.
Defined.

(* ================================================================== *)
(** ** Sending the digest *)
(* ================================================================== *)

(** X19.  [sendBookmarkDigest], for a client whose two addresses are
    non-empty strings and options that name no other address: when the
    body cannot be formatted the error is rethrown and nothing is sent;
    otherwise the subject and the body always pass the validation of
    [sendEmail] (neither is ever empty) and exactly one command is sent,
    from the sender to the one recipient, with the subject of
    [generateEmailSubject] and the formatted body.  When the service
    accepts it the result reports success, the message id of the
    service and the number of records; when it rejects it the message
    of its error is logged and the error of [#handleSESError] is
    thrown. *)
Theorem digest_is_sent_in_one_command
  (h : Host) (send : SESClient.Send) (this : SESClient.t)
  (bookmarks : option (list BookmarkModel.t))
  (options : EmailContent.Options) (sender recipient : jsstring) :
  SESClient.fromEmail this = JStr sender -> sender <> [] ->
  SESClient.toEmail this = JStr recipient -> recipient <> [] ->
  truthy (EmailContent.fromEmail options) = false ->
  truthy (EmailContent.toEmail options) = false ->
  let label :=
    match EmailContent.startDate options, EmailContent.endDate options with
    | Some s, Some e => Some (formatDateRange h s e)
    | _, _ => None
    end in
  let subject :=
    generateEmailSubject h (EmailContent.startDate options)
      (EmailContent.endDate options) in
  match formatBookmarksToEmailBody h bookmarks
          {| dateRange := label; includeHeader := true |} with
  | inl e =>
    SESClient.sendBookmarkDigest h send this bookmarks options
    = ([], inl {| SESClient.error := e; SESClient.code := None |})
  | inr body =>
    let params :=
      {| SESClient.Source := sender;
         SESClient.ToAddresses := [recipient];
         SESClient.Subject_Data := subject;
         SESClient.Body_Text_Data := body |} in
    subject <> [] /\ body <> []
    /\ SESClient.sendBookmarkDigest h send this bookmarks options
       = match send params with
         | inr MessageId =>
           ([SESClient.SendEmailCommand params],
            inr {| SESClient.sent :=
                     {| SESClient.success := true;
                        SESClient.messageId := MessageId;
                        SESClient.r_from := sender;
                        SESClient.r_to := recipient;
                        SESClient.r_subject := subject |};
                   SESClient.bookmarkCount :=
                     match bookmarks with
                     | Some bs => length bs
                     | None => 0
                     end;
                   SESClient.dateRange := label |})
         | inl error =>
           ([SESClient.SendEmailCommand params;
             SESClient.Console SESClient.MSG_SEND_ERROR
               (SESClient.aws_message error)],
            inl (SESClient.handleSESError error))
         end
  end.
Proof.
  intros Hfrom Hsender Hto Hrecipient Hofrom Hoto. cbv zeta.
  unfold SESClient.sendBookmarkDigest, EmailContent.generateEmailContent.
  cbn [EmailContent.startDate EmailContent.endDate EmailContent.fromEmail
       EmailContent.toEmail].
  destruct (formatBookmarksToEmailBody h bookmarks _) as [e|body] eqn:Hbody;
    [reflexivity|].
  assert (Hnonempty : exists c r, body = c :: r).
  { destruct (body_starts_with_the_title h bookmarks _ body Hbody)
      as (rest & ->).
    eexists _, _. reflexivity. }
  destruct Hnonempty as (c0 & r0 & ->).
  assert (Hsubject : exists c r,
            generateEmailSubject h (EmailContent.startDate options)
              (EmailContent.endDate options) = c :: r).
  { unfold generateEmailSubject. eexists _, _. reflexivity. }
  destruct Hsubject as (c & r & Hsubject).
  split; [rewrite Hsubject; discriminate|]. split; [discriminate|].
  assert (Haddr : forall v this_v s,
            truthy v = false -> this_v = JStr s -> s <> [] ->
            SESClient.nonEmptyString
              (EmailContent.default
                 (EmailContent.default
                    (or_else (EmailContent.default v JNull) this_v) JNull)
                 this_v)
            = Some s).
  { intros v this_v s Hv -> Hs. unfold or_else.
    assert (Hd : truthy (EmailContent.default v JNull) = false)
      by (destruct v; try discriminate; exact Hv || reflexivity).
    rewrite Hd. destruct s as [|c1 s1]; [contradiction|]. reflexivity. }
  unfold SESClient.sendEmail.
  cbn [SESClient.subject SESClient.body SESClient.from SESClient.to
       EmailContent.subject EmailContent.body EmailContent.from
       EmailContent.to EmailContent.bookmarkCount EmailContent.dateRange].
  rewrite (Haddr _ _ sender Hofrom Hfrom Hsender).
  rewrite (Haddr _ _ recipient Hoto Hto Hrecipient).
  rewrite Hsubject.
  cbn [SESClient.nonEmptyString].
  destruct (send _) as [error|MessageId]; reflexivity.
Qed.

Lemma digest_is_sent_in_one_command_witness :
  let this := {| SESClient.fromEmail := JStr (js "from@example.com");
                 SESClient.toEmail := JStr (js "to@example.com");
                 SESClient.region := JStr (js "us-east-1") |} in
  let options := {| EmailContent.startDate := None;
                    EmailContent.endDate := None;
                    EmailContent.fromEmail := JNull;
                    EmailContent.toEmail := JUndefined |} in
  exists effects result,
    SESClient.sendBookmarkDigest Examples.utc
      (fun _ => inr (JStr (js "id-1"))) this
      (Some [Examples.record 1 "A" "tech" true 2]) options
    = (effects, inr result)
    /\ length effects = 1
    /\ SESClient.bookmarkCount result = 1.
Proof.
  cbv zeta.
  pose proof (digest_is_sent_in_one_command Examples.utc
                (fun _ => inr (JStr (js "id-1")))
                {| SESClient.fromEmail := JStr (js "from@example.com");
                   SESClient.toEmail := JStr (js "to@example.com");
                   SESClient.region := JStr (js "us-east-1") |}
                (Some [Examples.record 1 "A" "tech" true 2])
                {| EmailContent.startDate := None;
                   EmailContent.endDate := None;
                   EmailContent.fromEmail := JNull;
                   EmailContent.toEmail := JUndefined |}
                (js "from@example.com") (js "to@example.com")
                eq_refl ltac:(discriminate) eq_refl ltac:(discriminate)
                eq_refl eq_refl) as Hsent.
  cbv zeta in Hsent.
  destruct (formatBookmarksToEmailBody Examples.utc
              (Some [Examples.record 1 "A" "tech" true 2]) _)
    as [e|body] eqn:Hbody; [vm_compute in Hbody; discriminate|].
  destruct Hsent as (_ & _ & ->).
  eexists _, _. split; [reflexivity|]. split; reflexivity.
Defined.

(* ================================================================== *)
(** ** Integer-like folder names *)
(* ================================================================== *)

Section IndexFacts.
Context {V : Type}.

Lemma insertIndex_sorted (e : N * (jsstring * V)) l :
  StronglySorted (fun a b => (fst a <= fst b)%N) l ->
  StronglySorted (fun a b => (fst a <= fst b)%N) (JsObject.insertIndex e l).
Proof.
  induction 1 as [|e' r Hr IH He']; simpl.
  - constructor; constructor.
  - destruct (N.ltb_spec (fst e) (fst e')).
    + constructor.
      * constructor; assumption.
      * constructor; [lia|].
        eapply Forall_impl; [|exact He']. simpl. intros a Ha. lia.
    + constructor; [exact IH|].
      apply (Permutation_Forall
               (Permutation_sym (insertIndex_perm e r))).
      constructor; [exact H|exact He'].
Qed.

(** The integer-like names are enumerated by ascending value. *)
Lemma indexEntries_sorted (o : JsObject.t V) :
  StronglySorted (fun a b => (fst a <= fst b)%N) (JsObject.indexEntries o).
Proof.
  induction o as [|[k v] r IH]; simpl; [constructor|].
  destruct (JsObject.arrayIndex k); [apply insertIndex_sorted|]; exact IH.
Qed.

Lemma indexEntries_index (o : JsObject.t V) e :
  In e (JsObject.indexEntries o) ->
  JsObject.arrayIndex (fst (snd e)) = Some (fst e).
Proof.
  induction o as [|[k v] r IH]; simpl; [tauto|].
  destruct (JsObject.arrayIndex k) as [i|] eqn:E; [|exact IH].
  intros Hin. apply (Permutation_in _ (insertIndex_perm _ _)) in Hin.
  destruct Hin as [<-|Hin]; [exact E|apply IH; exact Hin].
Qed.

End IndexFacts.

Lemma StronglySorted_map {A B : Type} (R : A -> A -> Prop)
  (R' : B -> B -> Prop) (f : A -> B) (l : list A) :
  (forall a b, In a l -> In b l -> R a b -> R' (f a) (f b)) ->
  StronglySorted R l -> StronglySorted R' (map f l).
Proof.
  intros Hf Hl. induction Hl as [|a l Hl IH Ha]; simpl; [constructor|].
  constructor.
  - apply IH. intros x y Hx Hy. apply Hf; right; assumption.
  - rewrite Forall_forall in *. intros y Hy. apply in_map_iff in Hy.
    destruct Hy as (x & <- & Hx).
    apply Hf; [left; reflexivity|right; exact Hx|apply Ha; exact Hx].
Qed.

Lemma StronglySorted_filter {A : Type} (R : A -> A -> Prop)
  (p : A -> bool) (l : list A) :
  StronglySorted R l -> StronglySorted R (filter p l).
Proof.
  induction 1 as [|a l Hl IH Ha]; simpl; [constructor|].
  destruct (p a); [|exact IH].
  constructor; [exact IH|].
  rewrite Forall_forall in *. intros x Hx. apply filter_In in Hx.
  apply Ha. tauto.
Qed.

Lemma filter_names {A : Type} (p : jsstring -> bool)
  (F : jsstring -> jsstring * A) (names : list jsstring) :
  (forall k, fst (F k) = k) ->
  map fst (filter (fun kv => p (fst kv)) (map F names)) = filter p names.
Proof.
  intros HF. induction names as [|k names IH]; simpl; [reflexivity|].
  rewrite (HF k). destruct (p k); simpl; rewrite ?HF, IH; reflexivity.
Qed.

Lemma codeUnitCompare_trans (a b c : jsstring) :
  (Examples.codeUnitCompare a b <= 0)%Z ->
  (Examples.codeUnitCompare b c <= 0)%Z ->
  (Examples.codeUnitCompare a c <= 0)%Z.
Proof.
  revert b c. induction a as [|x a IH]; intros [|y b] [|z c]; simpl;
    try lia.
  destruct (N.ltb_spec x y); destruct (N.ltb_spec y x);
    destruct (N.ltb_spec y z); destruct (N.ltb_spec z y);
    destruct (N.ltb_spec x z); destruct (N.ltb_spec z x);
    try lia.
  apply IH.
Qed.

(** X20.  The order of the sections in general.  For records whose
    fields hold no line feed and whose folder names are not members of
    [Object.prototype], under a collation that is transitive and never
    puts two names each strictly after the other, the headings of the
    digest are: first the folder names that spell an integer between 0
    and 4294967294 in canonical decimal, by ascending value whatever
    the collation says, then the other names in an order the collation
    agrees with. *)
Theorem integer_like_folders_come_first
  (h : Host) (bs : list BookmarkModel.t) (opts : Options) :
  bs <> [] ->
  (forall b, In b bs ->
     noLineFeed (title b) /\ noLineFeed (url b) /\ noLineFeed (folder b)) ->
  (forall r, dateRange opts = Some r -> noLineFeed r) ->
  (forall b, In b bs -> JsObject.inherited (folderNameOf b) = false) ->
  (forall a b, (0 < localeCompare_ja h a b)%Z ->
               (localeCompare_ja h b a <= 0)%Z) ->
  (forall a b c, (localeCompare_ja h a b <= 0)%Z ->
                 (localeCompare_ja h b c <= 0)%Z ->
                 (localeCompare_ja h a c <= 0)%Z) ->
  exists body numbered named,
    formatBookmarksToEmailBody h (Some bs) opts = inr body
    /\ filter isHeadingLine (lines body)
       = map (fun k => H4 ++ k) (numbered ++ named)
    /\ NoDup (numbered ++ named)
    /\ (forall k, In k (numbered ++ named)
                  <-> exists b, In b bs /\ folderNameOf b = k)
    /\ (forall k, In k numbered -> JsObject.isArrayIndex k = true)
    /\ (forall k, In k named -> JsObject.isArrayIndex k = false)
    /\ StronglySorted
         (fun a b => (Props.indexOfName a <= Props.indexOfName b)%N) numbered
    /\ StronglySorted (fun a b => (localeCompare_ja h a b <= 0)%Z) named.
Proof.
  intros Hne Hclean Hrange Hplain Hanti Htrans.
  destruct (groupBookmarksByFolder_succeeds h bs Hplain) as (g & Hg).
  assert (Hbody : exists body,
            formatBookmarksToEmailBody h (Some bs) opts = inr body).
  { destruct bs as [|b0 bs']; [contradiction|].
    rewrite formatBookmarksToEmailBody_spec, Hg. eauto. }
  destruct Hbody as (body & Hbody).
  destruct (lines_of_body h bs opts g body Hne Hclean Hrange Hg Hbody)
    as (_ & Hheads).
  destruct (groupBookmarksByFolder_entries h bs g Hg) as
    (Hnd & Hmem & Hcov & _).
  destruct (groupBookmarksByFolder_spec h bs g Hg) as
    (grouped & _ & _ & Hgdef).
  set (names := JsArray.sort (localeCompare_ja h) (JsObject.keys grouped))
    in Hgdef.
  set (numbered := map (fun e => fst (snd e)) (JsObject.indexEntries g)).
  set (named := map fst
                  (filter (fun kv => negb (JsObject.isArrayIndex (fst kv)))
                     g)).
  assert (Hkeys : map fst (JsObject.entries g) = numbered ++ named).
  { unfold JsObject.entries. rewrite map_app, map_map. reflexivity. }
  exists body, numbered, named.
  split; [exact Hbody|].
  split; [rewrite Hheads, <- (map_map fst (fun k => H4 ++ k));
          f_equal; exact Hkeys|].
  assert (Hnames : forall P : list jsstring -> Prop,
            P (map fst (JsObject.entries g)) -> P (numbered ++ named))
    by (intros P HP; exact (eq_ind _ P HP _ Hkeys)).
  split; [apply (Hnames (fun l => NoDup l)); exact Hnd|].
  split; [apply (Hnames (fun l => forall k,
                           In k l
                           <-> exists b, In b bs /\ folderNameOf b = k))
         |split; [|split; [|split]]].
  - intros k. split.
    + intros Hin. apply in_map_iff in Hin.
      destruct Hin as ([k' ms] & <- & Hin). simpl.
      destruct (Hmem k' ms Hin) as (Hms & Hnil & _).
      destruct ms as [|b1 ms']; [contradiction|].
      assert (Hb1 : In b1 (filter (inFolder k') bs)).
      { apply (Permutation_in b1 (sort_perm newestFirst _)).
        rewrite <- Hms. left. reflexivity. }
      apply filter_In in Hb1. destruct Hb1 as [Hb1 Hname].
      apply eqb_eq in Hname. eauto.
    + intros (b & Hb & <-). apply Hcov. exact Hb.
  - intros k Hin. unfold numbered in Hin. apply in_map_iff in Hin.
    destruct Hin as (e & <- & Hin).
    unfold JsObject.isArrayIndex.
    rewrite (indexEntries_index g e Hin). reflexivity.
  - intros k Hin. unfold named in Hin. apply in_map_iff in Hin.
    destruct Hin as ([k' ms] & <- & Hin). apply filter_In in Hin.
    simpl in *. apply negb_true_iff. tauto.
  - unfold numbered.
    apply (StronglySorted_map (fun a b => (fst a <= fst b)%N));
      [|apply indexEntries_sorted].
    intros a b Ha Hb Hab. unfold Props.indexOfName.
    rewrite (indexEntries_index g a Ha), (indexEntries_index g b Hb).
    exact Hab.
  - unfold named. rewrite Hgdef.
    rewrite (filter_names (fun k => negb (JsObject.isArrayIndex k))
               (sorted_entry bs) names) by reflexivity.
    apply StronglySorted_filter.
    apply Sorted_StronglySorted.
    + intros x y z. apply Htrans.
    + apply sort_sorted. exact Hanti.
Qed.

Lemma integer_like_folders_come_first_witness :
  let bs := [Examples.record 1 "A" "tech" false 3;
             Examples.record 2 "B" "10" false 2;
             Examples.record 3 "C" "9" false 1] in
  exists body,
    formatBookmarksToEmailBody Examples.utc (Some bs) defaultOptions
    = inr body
    /\ filter isHeadingLine (lines body)
       = [H4 ++ js "9"; H4 ++ js "10"; H4 ++ js "tech"]
    /\ (Examples.codeUnitCompare (js "10") (js "9") < 0)%Z.
Proof.
  cbv zeta.
  destruct (integer_like_folders_come_first
              Examples.utc
              [Examples.record 1 "A" "tech" false 3;
               Examples.record 2 "B" "10" false 2;
               Examples.record 3 "C" "9" false 1] defaultOptions)
    as (body & numbered & named & Hbody & _).
  - discriminate.
  - intros b [<-|[<-|[<-|[]]]]; repeat split;
      apply noLineFeed_check; reflexivity.
  - intros r E. discriminate.
  - intros b [<-|[<-|[<-|[]]]]; reflexivity.
  - exact codeUnitCompare_antisym.
  - exact codeUnitCompare_trans.
  - exists body. split; [exact Hbody|].
    vm_compute in Hbody. inversion Hbody; subst body.
    split; vm_compute; reflexivity.
Defined.

(* ================================================================== *)
(** ** What a fetch returns is valid *)
(* ================================================================== *)

Lemma fromRaindropApiResponse_new (h : Host) (item : JsVal)
  (b : BookmarkModel.t) :
  fromRaindropApiResponse h item = inr b -> exists d, new h d = inr b.
Proof.
  unfold fromRaindropApiResponse.
  destruct (negb (truthy item) || _); [discriminate|].
  destruct (negb (truthy (get item (js "_id")))); [discriminate|].
  destruct (negb (truthy (get item (js "link")))); [discriminate|].
  destruct (tags_at0 (get item (js "tags"))); [discriminate|].
  eauto.
Qed.

(** X21.  Every record that [getRecentBookmarks] returns is the
    conversion of an item of one of the pages requested, has a non-zero
    identifier and a non-empty link that the URL parser accepts, and is
    accepted again by [BookmarkValidator.isValid] when handed over as a
    plain object. *)
Theorem fetch_returns_only_valid_records
  (h : Host) (upstream : Upstream) (fuel : nat) evs l :
  101 <= fuel ->
  getRecentBookmarks h upstream fuel = Some (evs, inr l) ->
  forall b, In b l ->
    (exists p its item,
       requested evs p /\ pageItems upstream p = Some its /\ In item its
       /\ fromRaindropApiResponse h item = inr b)
    /\ id b <> 0%Z /\ url b <> [] /\ URL_parses h (url b) = true
    /\ BookmarkValidator.isValid h (BookmarkMethods.toPlainObject b) = true.
Proof.
  intros Hfuel Hrun b Hin.
  destruct (getRecentBookmarks_log h upstream fuel Hfuel) as
    (evs' & r & n & Hrun' & _ & _ & Hreq & _ & _ & Hok & _).
  rewrite Hrun in Hrun'. inversion Hrun'; subst evs' r; clear Hrun'.
  destruct (Hok l eq_refl) as [Hl _].
  unfold accumulated in Hl. rewrite before_flat_map in Hl. subst l.
  apply in_flat_map in Hin. destruct Hin as (p & Hp & Hin).
  unfold pageRecords in Hin.
  destruct (pageItems upstream p) as [its|] eqn:Hits; [|contradiction].
  unfold converted in Hin. apply in_flat_map in Hin.
  destruct Hin as (item & Hitem & Hin).
  destruct (fromRaindropApiResponse h item) as [e|b'] eqn:Hconv;
    [contradiction|].
  destruct Hin as [->|[]].
  destruct (fromRaindropApiResponse_new h item b Hconv) as (d & Hnew).
  pose proof Hnew as Hvalid. apply new_iff in Hvalid.
  destruct Hvalid as (-> & Hid & Hurl & Hparse).
  split.
  - exists p, its, item. unfold requested. rewrite Hreq. auto.
  - split; [exact Hid|]. split; [exact Hurl|]. split; [exact Hparse|].
    unfold BookmarkValidator.isValid. cbn [BookmarkValidator.construct].
    rewrite Hnew. reflexivity.
Qed.

Lemma fetch_returns_only_valid_records_witness :
  101 <= 101
  /\ exists evs l,
       getRecentBookmarks Examples.utc (Examples.steadyUpstream 75) 101
       = Some (evs, inr l)
       /\ forall b, In b l ->
            BookmarkValidator.isValid Examples.utc
              (BookmarkMethods.toPlainObject b) = true.
Proof.
  split; [lia|].
  destruct (getRecentBookmarks Examples.utc (Examples.steadyUpstream 75) 101)
    as [[evs [e|l]]|] eqn:Hrun;
    [vm_compute in Hrun; discriminate| |vm_compute in Hrun; discriminate].
  exists evs, l. split; [reflexivity|].
  intros b Hin.
  apply (fetch_returns_only_valid_records
           Examples.utc (Examples.steadyUpstream 75) 101 evs l
           (le_n 101) Hrun b Hin).
Defined.

(* ================================================================== *)
(** ** From the configuration to the clients *)
(* ================================================================== *)

Lemma loadConfiguration_inr (h : Host)
  (getDropCastConfig : Result Handler.DropCastConfig)
  (env_AWS_REGION : JsVal) (configuration : Handler.Configuration) :
  Handler.loadConfiguration h getDropCastConfig env_AWS_REGION
  = inr configuration ->
  truthy (Handler.c_RAINDROP_API_TOKEN configuration) = true
  /\ truthy (Handler.c_EMAIL_FROM configuration) = true
  /\ truthy (Handler.c_EMAIL_TO configuration) = true
  /\ truthy (Handler.c_AWS_REGION configuration) = true.
Proof.
  unfold Handler.loadConfiguration.
  destruct getDropCastConfig as [error|config]; [discriminate|].
  cbn [map filter fst snd].
  destruct (truthy (Handler.RAINDROP_API_TOKEN config)) eqn:Htoken;
    destruct (truthy (Handler.EMAIL_FROM config)) eqn:Hfrom;
    destruct (truthy (Handler.EMAIL_TO config)) eqn:Hto;
    cbn [negb map filter fst snd app]; try discriminate.
  intros E. inversion E; subst configuration; clear E.
  cbn [Handler.c_RAINDROP_API_TOKEN Handler.c_EMAIL_FROM
       Handler.c_EMAIL_TO Handler.c_AWS_REGION].
  repeat split; try assumption.
  unfold or_else. destruct (truthy env_AWS_REGION) eqn:E; [exact E|].
  reflexivity.
Qed.

(** X22.  The constructor of the Raindrop client throws exactly when
    neither its argument nor the environment gives a truthy token.  The
    constructor of the SES client throws a TypeError when its options
    are [null]; otherwise it throws exactly when no truthy sender or no
    truthy recipient is given, or when the constructor of the AWS client
    throws for the region, which is the option, or the
    environment's region or ['us-east-1'] when the option is
    [undefined].  So, with a configuration that [loadConfiguration]
    returned, whatever the environment holds, the Raindrop client is
    built with the token of the configuration, and the SES client with
    its two addresses and its region, which is truthy, unless the AWS
    client refuses that region; its error is then what is thrown. *)
Theorem clients_are_built_from_a_loaded_configuration
  (h : Host) (getDropCastConfig : Result Handler.DropCastConfig)
  (env_AWS_REGION env_RAINDROP_API_TOKEN : JsVal) (env : SESClient.Env)
  (apiToken : JsVal) (options : SESClient.Options)
  (AWSSESClient : JsVal -> option JsError) :
  let region :=
    match SESClient.o_region options with
    | JUndefined =>
      or_else (SESClient.AWS_REGION env) (JStr (js "us-east-1"))
    | v => v
    end in
  ((exists e, Interceptor.new apiToken env_RAINDROP_API_TOKEN = inl e)
   <-> truthy apiToken = false /\ truthy env_RAINDROP_API_TOKEN = false)
  /\ SESClient.new AWSSESClient None env
     = inl (TypeError SESClient.MSG_OPTIONS_NULL)
  /\ ((exists e, SESClient.new AWSSESClient (Some options) env = inl e)
      <-> truthy (match SESClient.o_fromEmail options with
                  | JUndefined => SESClient.EMAIL_FROM env
                  | v => v
                  end) = false
          \/ truthy (match SESClient.o_toEmail options with
                     | JUndefined => SESClient.EMAIL_TO env
                     | v => v
                     end) = false
          \/ AWSSESClient region <> None)
  /\ (forall e,
        SESClient.new AWSSESClient (Some options) env = inl e ->
        e = Error SESClient.MSG_NO_FROM \/ e = Error SESClient.MSG_NO_TO
        \/ AWSSESClient region = Some e)
  /\ forall configuration,
       Handler.loadConfiguration h getDropCastConfig env_AWS_REGION
       = inr configuration ->
       Interceptor.new (Handler.c_RAINDROP_API_TOKEN configuration)
         env_RAINDROP_API_TOKEN
       = inr (Handler.c_RAINDROP_API_TOKEN configuration)
       /\ truthy (Handler.c_AWS_REGION configuration) = true
       /\ SESClient.new AWSSESClient
            (Some
               {| SESClient.o_region := Handler.c_AWS_REGION configuration;
                  SESClient.o_fromEmail :=
                    Handler.c_EMAIL_FROM configuration;
                  SESClient.o_toEmail :=
                    Handler.c_EMAIL_TO configuration |})
            env
          = match AWSSESClient (Handler.c_AWS_REGION configuration) with
            | Some e => inl e
            | None =>
              inr {| SESClient.fromEmail :=
                       Handler.c_EMAIL_FROM configuration;
                     SESClient.toEmail := Handler.c_EMAIL_TO configuration;
                     SESClient.region :=
                       Handler.c_AWS_REGION configuration |}
            end.
Proof.
  cbv zeta.
  assert (Hkeep : forall v d : JsVal,
            truthy v = true ->
            match v with JUndefined => d | _ => v end = v)
    by (intros v d Hv; destruct v; try reflexivity; discriminate).
  split; [|split; [reflexivity|split; [|split]]].
  - unfold Interceptor.new, or_else.
    assert (Harg : truthy (match apiToken with
                           | JUndefined => JNull
                           | v => v
                           end) = truthy apiToken)
      by (destruct apiToken; reflexivity).
    rewrite Harg.
    destruct (truthy apiToken) eqn:Ha.
    + rewrite Harg. cbn [negb]. split.
      * intros (e & E). discriminate.
      * intros [E _]. discriminate.
    + destruct (truthy env_RAINDROP_API_TOKEN) eqn:He; cbn [negb]; split.
      * intros (e & E). discriminate.
      * intros [_ E]. discriminate.
      * auto.
      * eauto.
  - unfold SESClient.new.
    destruct (truthy (match SESClient.o_fromEmail options with
                      | JUndefined => SESClient.EMAIL_FROM env
                      | v => v
                      end)); cbn [negb]; [|split; eauto].
    destruct (truthy (match SESClient.o_toEmail options with
                      | JUndefined => SESClient.EMAIL_TO env
                      | v => v
                      end)); cbn [negb]; [|split; eauto].
    destruct (AWSSESClient _) as [e|].
    + split; [intros _; right; right; discriminate|eauto].
    + split; [intros (e & E); discriminate|].
      intros [E|[E|E]]; try discriminate. contradiction E. reflexivity.
  - intros e. unfold SESClient.new.
    destruct (truthy (match SESClient.o_fromEmail options with
                      | JUndefined => SESClient.EMAIL_FROM env
                      | v => v
                      end)); cbn [negb];
      [|intros E; inversion E; auto].
    destruct (truthy (match SESClient.o_toEmail options with
                      | JUndefined => SESClient.EMAIL_TO env
                      | v => v
                      end)); cbn [negb];
      [|intros E; inversion E; auto].
    destruct (AWSSESClient _) as [e'|]; [|discriminate].
    intros E. inversion E. auto.
  - intros configuration Hload.
    destruct (loadConfiguration_inr h getDropCastConfig env_AWS_REGION
                configuration Hload) as (Htoken & Hfrom & Hto & Hregion).
    split; [|split; [exact Hregion|]].
    + unfold Interceptor.new, or_else.
      rewrite (Hkeep _ JNull Htoken), Htoken. cbv iota.
      rewrite Htoken. reflexivity.
    + generalize dependent (Handler.c_EMAIL_FROM configuration).
      generalize dependent (Handler.c_EMAIL_TO configuration).
      generalize dependent (Handler.c_AWS_REGION configuration).
      intros r Hr t Ht f Hf. unfold SESClient.new.
      cbn [SESClient.o_region SESClient.o_fromEmail SESClient.o_toEmail].
      destruct f as [| |[|]|nf|[|cf sf]|af|pf]; try discriminate;
        destruct t as [| |[|]|nt|[|ct st]|at'|pt]; try discriminate;
        destruct r as [| |[|]|nr|[|cr sr]|ar|pr]; try discriminate;
        cbn [truthy] in *; rewrite ?Hf, ?Ht; reflexivity.
Qed.

(* ================================================================== *)
(** ** The validation of [sendEmail] *)
(* ================================================================== *)



(* ================================================================== *)
(** ** How a failed fetch is answered *)
(* ================================================================== *)

(** X24.  With the interceptor installed, and whatever the dates, the
    server or the network do (axios errors that carry a response or a
    request), an error thrown by [getRecentBookmarks] is an error of
    the interceptor, the error about a response without an array of
    items, the TypeError of a response whose data is [null] or
    [undefined], or the RangeError of an Invalid Date; the error handler
    never classifies it as a network or timeout error: it is never
    recoverable, and the response to it carries 500 or 502, never
    503. *)
Theorem a_failed_fetch_is_answered_with_500_or_502
  (h : Host) (JSON_stringify : JsVal -> jsstring) (Ctx : Type)
  (UTC : Z -> Z)
  (raw : RaindropMethods.Get -> Interceptor.AxiosError + Response)
  (fromDate toDate : option JsDate)
  (fuel : nat) (stack : jsstring) (context : Ctx) :
  101 <= fuel ->
  (forall request e, raw request <> inl (Interceptor.Other e)) ->
  exists evs r,
    RaindropMethods.getRecentBookmarks h UTC (Interceptor.intercepted raw)
      fromDate toDate fuel
    = Some (evs, r)
    /\ forall e, r = inl e ->
         let appError :=
           snd (ErrorHandler.handleError h (ErrorHandler.caught e stack)
                  context) in
         let status :=
           ErrorHandler.statusCode
             (ErrorHandler.generateErrorResponse JSON_stringify appError) in
         ((exists request error,
             raw request = inl error
             /\ e = fst (Interceptor.handleError error))
          \/ In e [Error MSG_INVALID_RESPONSE;
                   TypeError MSG_DESTRUCTURE_NULL;
                   TypeError MSG_DESTRUCTURE_UNDEFINED;
                   RangeError JsBuiltins.MSG_INVALID_TIME])
         /\ ErrorHandler.app_message appError = message e
         /\ (status = 500%Z \/ status = 502%Z)
         /\ ErrorHandler.isRecoverable appError = false
         /\ ErrorHandler.type appError <> ErrorHandler.NETWORK_ERROR
         /\ ErrorHandler.type appError <> ErrorHandler.TIMEOUT_ERROR.
Proof.
  intros Hfuel Hraw.
  assert (Hanswer : forall e,
            In (ErrorHandler.classifyError (ErrorHandler.caught e stack))
              [(ErrorHandler.RAINDROP_API_ERROR, ErrorHandler.HIGH);
               (ErrorHandler.CONFIGURATION_ERROR, ErrorHandler.CRITICAL);
               (ErrorHandler.UNKNOWN_ERROR, ErrorHandler.MEDIUM)] ->
            let appError :=
              snd (ErrorHandler.handleError h (ErrorHandler.caught e stack)
                     context) in
            let status :=
              ErrorHandler.statusCode
                (ErrorHandler.generateErrorResponse JSON_stringify appError) in
            ErrorHandler.app_message appError = message e
            /\ (status = 500%Z \/ status = 502%Z)
            /\ ErrorHandler.isRecoverable appError = false
            /\ ErrorHandler.type appError <> ErrorHandler.NETWORK_ERROR
            /\ ErrorHandler.type appError <> ErrorHandler.TIMEOUT_ERROR).
  { intros e Hclass. cbv zeta. rewrite isRecoverable_caught.
    destruct (outcome_caught h JSON_stringify e stack context)
      as (Hty & Hsv & Hmsg & Hstatus).
    rewrite Hty, Hmsg, Hstatus.
    split; [reflexivity|].
    destruct Hclass as [<-|[<-|[<-|[]]]]; cbn;
      repeat split; auto; discriminate. }
  assert (Hfixed : forall e,
            In e [Error MSG_INVALID_RESPONSE;
                  TypeError MSG_DESTRUCTURE_NULL;
                  TypeError MSG_DESTRUCTURE_UNDEFINED;
                  RangeError JsBuiltins.MSG_INVALID_TIME] ->
            In (ErrorHandler.classifyError (ErrorHandler.caught e stack))
              [(ErrorHandler.RAINDROP_API_ERROR, ErrorHandler.HIGH);
               (ErrorHandler.CONFIGURATION_ERROR, ErrorHandler.CRITICAL);
               (ErrorHandler.UNKNOWN_ERROR, ErrorHandler.MEDIUM)]).
  { intros e [<-|[<-|[<-|[<-|[]]]]];
      rewrite classifyError_caught; vm_compute; auto. }
  unfold RaindropMethods.getRecentBookmarks, RaindropMethods.createdFilter.
  destruct (match fromDate with
            | Some d => d
            | None => RaindropMethods.sevenDaysAgo h UTC
            end) as [f|];
    [|eexists; eexists; split; [reflexivity|];
      intros e E; inversion E; subst e;
      split; [right; simpl; auto|];
      apply Hanswer, Hfixed; simpl; auto].
  destruct (match toDate with
            | Some d => d
            | None => Some (Date_now h)
            end) as [t|];
    [|eexists; eexists; split; [reflexivity|];
      intros e E; inversion E; subst e;
      split; [right; simpl; auto|];
      apply Hanswer, Hfixed; simpl; auto].
  cbn [JsBuiltins.Date_toISOString].
  match goal with
  | |- context [getRecentBookmarks h ?u fuel] => set (upstream := u)
  end.
  destruct (getRecentBookmarks_log h upstream fuel Hfuel)
    as (evs & r & n & Hrun & _ & _ & _ & _ & _ & _ & Herr).
  exists evs, r. split; [exact Hrun|].
  intros e ->. specialize (Herr e eq_refl).
  unfold Props.thrownAt, upstream, RaindropMethods.pagesOf,
    Interceptor.intercepted in Herr.
  match type of Herr with
  | context [raw ?req] => set (request := req) in Herr
  end.
  destruct (raw request) as [error|[data| |]] eqn:Hn; cbn [destructure] in Herr.
  - inversion Herr; subst e.
    split; [left; exists request, error; auto|].
    apply Hanswer, classify_interceptor.
    intros e' ->. apply (Hraw request e'). exact Hn.
  - destruct (items data); inversion Herr; subst e;
      (split; [right; simpl; auto|]); apply Hanswer, Hfixed; simpl; auto.
  - inversion Herr; subst e.
    split; [right; simpl; auto|]. apply Hanswer, Hfixed; simpl; auto.
  - inversion Herr; subst e.
    split; [right; simpl; auto|]. apply Hanswer, Hfixed; simpl; auto.
Qed.

Lemma a_failed_fetch_is_answered_with_500_or_502_witness :
  101 <= 101
  /\ (forall request e,
        (fun _ : RaindropMethods.Get =>
           @inl Interceptor.AxiosError Response Interceptor.WithRequest)
          request
        <> inl (Interceptor.Other e))
  /\ exists evs,
       RaindropMethods.getRecentBookmarks Examples.utc (fun t => t)
         (Interceptor.intercepted (fun _ => inl Interceptor.WithRequest))
         None None 101
       = Some (evs, inl (Error Interceptor.MSG_NETWORK)).
Proof.
  assert (Hraw : forall request e,
            (fun _ : RaindropMethods.Get =>
               @inl Interceptor.AxiosError Response
                 Interceptor.WithRequest) request
            <> inl (Interceptor.Other e))
    by (intros request e; discriminate).
  split; [lia|]. split; [exact Hraw|].
  destruct (a_failed_fetch_is_answered_with_500_or_502
              Examples.utc (fun _ => []) unit (fun t => t)
              (fun _ => inl Interceptor.WithRequest) None None 101 [] tt
              (le_n 101) Hraw) as (evs & r & Hrun & _).
  exists evs. rewrite Hrun. vm_compute in Hrun.
  inversion Hrun. reflexivity.
Defined.

(** [toISOString] on six instants. *)
Lemma toISOString_examples :
  JsBuiltins.toISOString 0 = js "1970-01-01T00:00:00.000Z"
  /\ JsBuiltins.toISOString (-1) = js "1969-12-31T23:59:59.999Z"
  /\ JsBuiltins.toISOString Examples.t_2024_01_01
     = js "2024-01-01T00:00:00.000Z"
  /\ JsBuiltins.toISOString Examples.t_2024_03_05_10h
     = js "2024-03-05T10:00:00.000Z"
  /\ JsBuiltins.toISOString (-62198755200000)
     = js "-000001-01-01T00:00:00.000Z"
  /\ JsBuiltins.toISOString 253402300800000
     = js "+010000-01-01T00:00:00.000Z".
Proof. repeat split; vm_compute; reflexivity. Qed.

(* ================================================================== *)
(** ** The validator of raw items and the batch converter *)
(* ================================================================== *)

(** X25.  [BookmarkValidator.isValidApiItem] predicts the batch
    converter: the records of a batch are the conversions of the items
    it accepts, in the order of the items, and the warning is logged
    exactly when it refuses one of them. *)
Theorem isValidApiItem_predicts_the_batch (h : Host) (items : list JsVal) :
  exists warns l,
    fromRaindropApiResponseArray h (JArr items) = (warns, inr l)
    /\ map inr l
       = map (fromRaindropApiResponse h)
           (filter (BookmarkValidator.isValidApiItem h) items)
    /\ (warns = []
        <-> forallb (BookmarkValidator.isValidApiItem h) items = true).
Proof.
  rewrite fromRaindropApiResponseArray_spec.
  eexists. eexists. split; [reflexivity|]. split.
  - unfold converted, BookmarkValidator.isValidApiItem.
    induction items as [|item rest IH]; [reflexivity|].
    cbn [flat_map filter].
    destruct (fromRaindropApiResponse h item) as [e|b] eqn:Hitem.
    + exact IH.
    + cbn [app map]. rewrite Hitem, IH. reflexivity.
  - assert (Hfail : forall start,
              failures h start items = []
              <-> forallb (BookmarkValidator.isValidApiItem h) items = true).
    { unfold BookmarkValidator.isValidApiItem.
      induction items as [|item rest IH]; intros start;
        [split; reflexivity|].
      cbn [failures forallb].
      destruct (fromRaindropApiResponse h item) as [e|b].
      - split; discriminate.
      - apply IH. }
    rewrite <- (Hfail 0). unfold batchWarning.
    destruct (failures h 0 items); split; try reflexivity; discriminate.
Qed.
